(** * SedDepEroder: sediment-flux-dependent channel incision

    A shallow embedding of [landlab/components/stream_power/
    sed_flux_dep_incision.py].  Arrays are lists of IEEE-754 binary64 numbers
    (Rocq's primitive floats, which compute exactly as numpy's float64 does for
    [+ - * /], comparisons and square roots); numpy's indexing idioms are
    written out as list functions. *)

From Stdlib Require Import Floats ZArith Uint63 Lia String.
From stdpp Require Import base option list.

#[local] Set Warnings "-inexact-float".
#[local] Open Scope float_scope.

(** ** Part I.  Definitions *)

(** *** Floating point helpers *)

(** [np.spacing(0.)]: the smallest positive (subnormal) double, 2^-1074. *)
Definition np_spacing_0 : float := 0x1p-1074.

(** [np.finfo(float).eps]: the machine epsilon of binary64, 2^-52. *)
Definition machine_epsilon : float := 0x1p-52.

(** Python's builtin [min((a, b))]: the first item unless the second is
    strictly smaller (a NaN in first position is therefore returned). *)
Definition pymin (a b : float) : float := if b <? a then b else a.

(** Python's builtin [max((a, b))]. *)
Definition pymax (a b : float) : float := if a <? b then b else a.

(** [np.fmin]: the minimum that ignores NaN operands. *)
Definition np_fmin (x y : float) : float :=
  if is_nan y then x else if is_nan x then y else if y <? x then y else x.

(** [np.minimum] and [np.maximum]: NaN operands propagate. *)
Definition np_minimum (x y : float) : float :=
  if is_nan x then x else if is_nan y then y else if y <? x then y else x.

Definition np_maximum (x y : float) : float :=
  if is_nan x then x else if is_nan y then y else if x <? y then y else x.

(** [np.isclose(a, b)] with the default [rtol=1e-5], [atol=1e-8]. *)
Definition np_isclose (a b : float) : bool :=
  if is_finite a && is_finite b
  then abs (a - b) <=? 1e-8 + 1e-5 * abs b
  else a =? b.

(** *** numpy arrays as lists *)

Abbreviation ndarray := (list float).

(** [a[i]] for an index the grid keeps in range (Python raises [IndexError]
    outside; the model reads NaN there). *)
Definition getf (a : ndarray) (i : nat) : float := default nan (a !! i).

Definition getn (a : list nat) (i : nat) : nat := default 0%nat (a !! i).

(** [np.zeros(n)] and [a.fill(v)]. *)
Definition np_zeros (n : nat) : ndarray := replicate n 0.

Definition np_fill {A} (v : A) (a : list A) : list A := replicate (length a) v.

(** [a[idx]] for an integer index array. *)
Definition gather (a : ndarray) (idx : list nat) : ndarray :=
  (fun i => getf a i) <$> idx.

(** [a[idx] = vals] for an integer index array: entry [idx[k]] receives
    [vals[k]], later positions overwriting earlier ones. *)
Definition scatter {A} (idx : list nat) (vals : list A) (a : list A) : list A :=
  foldl (fun acc p => <[p.1 := p.2]> acc) a (zip idx vals).

(** [a[idx] = f(idx)], where [f] reads the arrays as they were before the
    assignment (numpy evaluates the right-hand side first). *)
Definition update_at {A} (idx : list nat) (f : nat -> A) (a : list A) : list A :=
  scatter idx (f <$> idx) a.

(** [np.where(mask)[0]]: the increasing list of indices whose entry is true. *)
Definition np_where (mask : list bool) : list nat :=
  filter (fun i => mask !! i = Some true) (seq 0 (length mask)).

(** [a[mask]] for a boolean mask: the selected entries, in order. *)
Fixpoint mask_select {A} (mask : list bool) (a : list A) : list A :=
  match mask, a with
  | b :: mask', x :: a' =>
      if b then x :: mask_select mask' a' else mask_select mask' a'
  | _, _ => []
  end.

(** [a[mask] = v] for a boolean mask.  A mask shorter than the array selects
    nothing beyond its end, as numpy did when this component was written;
    that is how the empty mask standing for [flooded_nodes=None] behaves. *)
Definition mask_fill (mask : list bool) (v : float) (a : ndarray) : ndarray :=
  imap (fun i x => if default false (mask !! i) then v else x) a.

(** [np.intersect1d(a, b, assume_unique=True)] for an increasing [a] and a
    duplicate-free [b]: the members of [a] that occur in [b], increasing. *)
Definition np_intersect1d (a b : list nat) : list nat :=
  filter (fun n => n ∈ b) a.

(** [np.nanmin]: a left fold of [np.fmin]; an all-NaN array gives NaN. *)
Definition np_nanmin (a : ndarray) : float := foldl np_fmin nan a.

(** [np.amin]: raises [ValueError] ([None]) on an empty array. *)
Definition np_amin (a : ndarray) : option float :=
  match a with
  | [] => None
  | x :: a' => Some (foldl np_minimum x a')
  end.

(** [a.clip(lo)]: elementwise [np.maximum(a, lo)]. *)
Definition np_clip_min (lo : float) (a : ndarray) : ndarray :=
  (fun x => np_maximum x lo) <$> a.

(** [np.allclose] on one pair of entries (default tolerances). *)
Definition np_allclose1 (a b : float) : bool :=
  abs (a - b) <=? 1e-8 + 1e-5 * abs b.

(** The sign class of a float: [+0], a positive number, [+infinity] or NaN. *)
Definition sf_nonneg (f : spec_float) : bool :=
  match f with
  | S754_zero s | S754_infinity s | S754_finite s _ _ => negb s
  | S754_nan => true
  end.

Definition nonneg_or_nan (x : float) : bool := sf_nonneg (Prim2SF x).

(** *** The grid and the component *)

(** The part of a landlab [ModelGrid] the component touches: its geometry and
    the node fields of [_input_var_names] and [_output_var_names]. *)
Record ModelGrid := {
  number_of_nodes : nat;
  core_nodes : list nat;
  node_at_cell : list nat;
  area_of_cell : ndarray;
  length_of_d8 : ndarray;
  bool_fields : list (string * list bool);
  topographic__elevation : ndarray;
  drainage_area : ndarray;
  flow__receiver_node : list nat;
  flow__upstream_node_order : list nat;
  topographic__steepest_slope : ndarray;
  flow__link_to_receiver_node : list Z;
  flow__sink_flag : list bool;
  channel_sediment__depth : ndarray;
  channel__bed_shear_stress : ndarray;
  channel_sediment__volumetric_transport_capacity : ndarray;
  channel_sediment__volumetric_discharge : ndarray;
  channel_sediment__relative_flux : ndarray;
  channel__discharge : ndarray
}.

(** In-place writes to node fields. *)
Definition set_topographic__elevation (z : ndarray) (g : ModelGrid) : ModelGrid :=
  {| number_of_nodes := number_of_nodes g; core_nodes := core_nodes g;
     node_at_cell := node_at_cell g; area_of_cell := area_of_cell g;
     length_of_d8 := length_of_d8 g; bool_fields := bool_fields g;
     topographic__elevation := z;
     drainage_area := drainage_area g;
     flow__receiver_node := flow__receiver_node g;
     flow__upstream_node_order := flow__upstream_node_order g;
     topographic__steepest_slope := topographic__steepest_slope g;
     flow__link_to_receiver_node := flow__link_to_receiver_node g;
     flow__sink_flag := flow__sink_flag g;
     channel_sediment__depth := channel_sediment__depth g;
     channel__bed_shear_stress := channel__bed_shear_stress g;
     channel_sediment__volumetric_transport_capacity :=
       channel_sediment__volumetric_transport_capacity g;
     channel_sediment__volumetric_discharge :=
       channel_sediment__volumetric_discharge g;
     channel_sediment__relative_flux := channel_sediment__relative_flux g;
     channel__discharge := channel__discharge g |}.

Definition set_channel_sediment__depth (h : ndarray) (g : ModelGrid) : ModelGrid :=
  {| number_of_nodes := number_of_nodes g; core_nodes := core_nodes g;
     node_at_cell := node_at_cell g; area_of_cell := area_of_cell g;
     length_of_d8 := length_of_d8 g; bool_fields := bool_fields g;
     topographic__elevation := topographic__elevation g;
     drainage_area := drainage_area g;
     flow__receiver_node := flow__receiver_node g;
     flow__upstream_node_order := flow__upstream_node_order g;
     topographic__steepest_slope := topographic__steepest_slope g;
     flow__link_to_receiver_node := flow__link_to_receiver_node g;
     flow__sink_flag := flow__sink_flag g;
     channel_sediment__depth := h;
     channel__bed_shear_stress := channel__bed_shear_stress g;
     channel_sediment__volumetric_transport_capacity :=
       channel_sediment__volumetric_transport_capacity g;
     channel_sediment__volumetric_discharge :=
       channel_sediment__volumetric_discharge g;
     channel_sediment__relative_flux := channel_sediment__relative_flux g;
     channel__discharge := channel__discharge g |}.

(** The three whole-array assignments that end [erode]. *)
Definition set_output_fields (qc qs rel : ndarray) (g : ModelGrid) : ModelGrid :=
  {| number_of_nodes := number_of_nodes g; core_nodes := core_nodes g;
     node_at_cell := node_at_cell g; area_of_cell := area_of_cell g;
     length_of_d8 := length_of_d8 g; bool_fields := bool_fields g;
     topographic__elevation := topographic__elevation g;
     drainage_area := drainage_area g;
     flow__receiver_node := flow__receiver_node g;
     flow__upstream_node_order := flow__upstream_node_order g;
     topographic__steepest_slope := topographic__steepest_slope g;
     flow__link_to_receiver_node := flow__link_to_receiver_node g;
     flow__sink_flag := flow__sink_flag g;
     channel_sediment__depth := channel_sediment__depth g;
     channel__bed_shear_stress := channel__bed_shear_stress g;
     channel_sediment__volumetric_transport_capacity := qc;
     channel_sediment__volumetric_discharge := qs;
     channel_sediment__relative_flux := rel;
     channel__discharge := channel__discharge g |}.

(** The four response functions of [cfuncs], which [set_sed_flux_fn_gen]
    stores in [self._sed_flux_fn_gen]. *)
Inductive sed_flux_fn :=
  | sed_flux_fn_gen_genhump
  | sed_flux_fn_gen_const
  | sed_flux_fn_gen_lindecl
  | sed_flux_fn_gen_almostparabolic.

(** The attributes of a [SedDepEroder] instance.  [_hillslope_sediment] is
    not a field of its own: it is the very array stored in the grid as
    [channel_sediment__depth]. *)
Record SedDepEroder := {
  _pseudoimplicit_repeats : nat;
  _K_unit_time : float;
  _porosity : float;
  type : string;
  kappa : float;
  nu : float;
  phi : float;
  c : float;
  norm : float;
  _sed_flux_fn_gen : sed_flux_fn;
  Qc : string;
  _m : float;
  _n : float;
  _Kt : float;
  _mt : float;
  _nt : float;
  cell_areas : ndarray;
  _hillslope_sediment_flux_wzeros : ndarray;
  _voldroprate : ndarray;
  _is_it_TL : list bool;
  wave_denom : ndarray;
  link_length : ndarray;
  max_tstep_wave : float;
  t_to_converge : float;
  _loopcounter : nat
}.

(** The five arrays that [erode] hands to [iterate_sde_downstream] to be
    written in place. *)
Record RouterArrays := {
  river_volume_flux_into_node : ndarray;
  rel_sed_flux : ndarray;
  is_it_TL_buffer : list bool;
  vol_drop_rate : ndarray;
  dzbydt : ndarray
}.

(** The type of [cfuncs.iterate_sde_downstream], read off its call in [erode]:
    [s_in], [cell_areas], hillslope flux, porosity, capacities, erosion
    prefactors, receivers, refinement budget, response function and its five
    parameters; the buffers go in and come out. *)
Definition router_type : Type :=
  list nat -> ndarray -> ndarray -> float -> ndarray -> ndarray ->
  list nat -> nat -> sed_flux_fn -> float -> float -> float -> float -> float ->
  RouterArrays -> RouterArrays.

(** The [flooded_nodes] argument of [erode]: [None], a field name, a boolean
    array or an array of node ids. *)
Inductive flooded_arg :=
  | FloodedNone
  | FloodedField (name : string)
  | FloodedBools (a : list bool)
  | FloodedIds (a : list nat).

(** The local [is_flooded], used as an index: a boolean mask or node ids. *)
Inductive flooded_index :=
  | BoolIndex (mask : list bool)
  | IntIndex (ids : list nat).

(** [a[is_flooded] = v]. *)
Definition index_fill (ix : flooded_index) (v : float) (a : ndarray) : ndarray :=
  match ix with
  | BoolIndex mask => mask_fill mask v a
  | IntIndex ids => update_at ids (fun _ => v) a
  end.

(** Whether node [n] is selected by the index. *)
Definition is_flooded_at (ix : flooded_index) (n : nat) : bool :=
  match ix with
  | BoolIndex mask => default false (mask !! n)
  | IntIndex ids => bool_decide (n ∈ ids)
  end.

Inductive exception :=
  | NotImplementedError
  | AssertionError
  | FieldError
  | TypeError
  | NameError
  | ZeroDivisionError.

(** How a call ends: it returns, raises, or is still inside [while 1] when the
    step budget of the model runs out. *)
Inductive outcome :=
  | Returned
  | Raised (e : exception)
  | StillLooping.

Definition WAVE_STABILITY_PREFACTOR : float := 0.2.

Definition SECONDS_PER_YEAR : float := 31557600.

(** [grid.at_node[name]] for the boolean node fields. *)
Fixpoint lookup_field (name : string) (fields : list (string * list bool))
  : option (list bool) :=
  match fields with
  | [] => None
  | (k, v) :: rest => if String.eqb k name then Some v else lookup_field name rest
  end.

(** Lines 591-601 of [erode]: resolving [flooded_nodes].  An integer array
    always passes the assertion (its dtype is an integer one); a boolean array
    passes only with one entry per node; a field is taken as it is. *)
Definition resolve_flooded (grid : ModelGrid) (flooded_nodes : flooded_arg)
  : exception + flooded_index :=
  match flooded_nodes with
  | FloodedField name =>
      match lookup_field name (bool_fields grid) with
      | Some a => inr (BoolIndex a)
      | None => inl FieldError
      end
  | FloodedBools a =>
      if decide (length a = number_of_nodes grid)
      then inr (BoolIndex a) else inl AssertionError
  | FloodedIds a => inr (IntIndex a)
  | FloodedNone => inr (BoolIndex [])
  end.

(** The values [erode] computes before [while 1] and never changes inside. *)
Record LoopEnv := {
  env_dt_secs : float;
  env_is_flooded : flooded_index;
  env_link_length : ndarray;
  env_core_draining_nodes : list nat;
  env_hillslope_flux : ndarray;
  env_transport_capacity_prefactor_withA : ndarray;
  env_erosion_prefactor_withA : ndarray;
  env_max_tstep_wave : float
}.

(** The variables [while 1] updates; [ls_this_tstep] is the length of the
    sub-step just completed. *)
Record LoopState := {
  ls_node_z : ndarray;
  ls_elev_less_sed : ndarray;
  ls_hillslope_sediment : ndarray;
  ls_downward_slopes : ndarray;
  ls_t_elapsed_internal : float;
  ls_arrays : RouterArrays;
  ls_transport_capacities : ndarray;
  ls_t_to_converge : float;
  ls_this_tstep : float;
  ls_loopcounter : nat
}.

(** *** [SedDepEroder.erode] *)

Section Erode.

(** numpy's [**] on float64; Rocq's floats have no power function. *)
Variable fpow : float -> float -> float.

(** [landlab.grid.base.BAD_INDEX_VALUE], the link id of a node that does
    not drain. *)
Variable BAD_INDEX_VALUE : Z.

(** [cfuncs.iterate_sde_downstream], the compiled kernel. *)
Variable iterate_sde_downstream : router_type.

Definition pow_array (a : ndarray) (e : float) : ndarray :=
  (fun x => fpow x e) <$> a.

(** Lines 602-613: the length of each core node's link to its receiver,
    NaN at every other node. *)
Definition draining_nodes (grid : ModelGrid) : list bool :=
  (fun l => negb (l =? BAD_INDEX_VALUE)%Z) <$> flow__link_to_receiver_node grid.

Definition core_draining_nodes (grid : ModelGrid) : list nat :=
  np_intersect1d (np_where (draining_nodes grid)) (core_nodes grid).

Definition steepest_link_at (grid : ModelGrid) (n : nat) : nat :=
  Z.to_nat (default 0%Z (flow__link_to_receiver_node grid !! n)).

Definition compute_link_length (grid : ModelGrid) : ndarray :=
  update_at (core_draining_nodes grid)
    (fun n => getf (length_of_d8 grid) (steepest_link_at grid n))
    (replicate (number_of_nodes grid) nan).

(** Lines 623-626: sediment depth turned into a supply flux. *)
Definition compute_hillslope_flux (self : SedDepEroder) (grid : ModelGrid)
    (dt_secs : float) : ndarray :=
  let sed_in_cells := gather (channel_sediment__depth grid) (node_at_cell grid) in
  let flux_in_cells :=
    zip_with (fun s a => s * a / dt_secs) sed_in_cells (area_of_cell grid) in
  scatter (node_at_cell grid) flux_in_cells (_hillslope_sediment_flux_wzeros self).

(** Lines 633-654: the prefactors and the wave stability bound. *)
Definition compute_transport_capacity_prefactor_withA
    (self : SedDepEroder) (grid : ModelGrid) : ndarray :=
  (fun a => _Kt self * a) <$> pow_array (drainage_area grid) (_mt self).

Definition compute_erosion_prefactor_withA
    (self : SedDepEroder) (grid : ModelGrid) : ndarray :=
  (fun a => _K_unit_time self * a) <$> pow_array (drainage_area grid) (_m self).

Definition initial_downward_slopes (grid : ModelGrid) : ndarray :=
  np_clip_min np_spacing_0 (topographic__steepest_slope grid).

Definition compute_wave_stab_cond_denominator
    (self : SedDepEroder) (grid : ModelGrid) : ndarray :=
  if np_isclose (_n self) 1
  then compute_erosion_prefactor_withA self grid
  else zip_with (fun a s => a * s)
         (compute_erosion_prefactor_withA self grid)
         (pow_array (initial_downward_slopes grid) (_n self - 1)).

Definition compute_max_tstep_wave (self : SedDepEroder) (grid : ModelGrid) : float :=
  WAVE_STABILITY_PREFACTOR *
  np_nanmin (zip_with (fun l d => l / d) (compute_link_length grid)
               (compute_wave_stab_cond_denominator self grid)).

(** Lines 708-721: the convergence test between each node and its
    receiver.  [np.amin] of an empty selection raises [ValueError], which
    the code catches; the safety factor is applied afterwards. *)
Definition compute_ratediff (dz : ndarray) (flow_receiver : list nat) : ndarray :=
  zip_with (fun a b => a - b) (gather dz flow_receiver) dz.

Definition compute_downstr_vert_diff (node_z : ndarray) (flow_receiver : list nat)
  : ndarray :=
  zip_with (fun a b => a - b) node_z (gather node_z flow_receiver).

Definition compute_botharepositive (ratediff downstr_vert_diff : ndarray)
  : list bool :=
  zip_with andb ((fun x => 0 <? x) <$> ratediff)
                ((fun x => 0 <? x) <$> downstr_vert_diff).

Definition conv_factor : float := 0.3.

Definition convergence_tstep (dz node_z : ndarray) (flow_receiver : list nat)
    (dt_secs : float) : float :=
  let ratediff := compute_ratediff dz flow_receiver in
  let downstr_vert_diff := compute_downstr_vert_diff node_z flow_receiver in
  let botharepositive := compute_botharepositive ratediff downstr_vert_diff in
  let t_to_converge :=
    match np_amin (zip_with (fun a b => a / b)
                     (mask_select botharepositive downstr_vert_diff)
                     (mask_select botharepositive ratediff)) with
    | Some t => t
    | None => dt_secs
    end in
  t_to_converge * conv_factor.

(** Lines 724-739: the sub-step actually taken.  [flood_node] is [None]
    throughout, so the one-hour floor of line 725 never applies.  Returns
    [this_tstep] (trimmed on the last sub-step), the new elapsed time, the
    break flag and the value stored in [self.t_to_converge] when the loop
    breaks. *)
Definition choose_tstep (t_conv max_tstep_wave dt_secs t_elapsed_internal : float)
  : float * float * bool * option float :=
  let flood_node : option nat := None in
  let t_to_converge := pymin t_conv max_tstep_wave in
  let t_to_converge :=
    if (t_to_converge <? 3600) && bool_decide (flood_node <> None)
    then 3600 else t_to_converge in
  let this_tstep := pymin t_to_converge dt_secs in
  let t_elapsed_internal := t_elapsed_internal + this_tstep in
  if dt_secs <=? t_elapsed_internal
  then (this_tstep - (t_elapsed_internal - dt_secs), t_elapsed_internal, true,
        Some (dt_secs - t_elapsed_internal + this_tstep))
  else (this_tstep, t_elapsed_internal, false, None).

(** Lines 676-706: what one sub-step feeds to the kernel. *)
Definition compute_transport_capacities (self : SedDepEroder) (env : LoopEnv)
    (downward_slopes : ndarray) : ndarray :=
  let slopes_tothent :=
    index_fill (env_is_flooded env) 0 (pow_array downward_slopes (_nt self)) in
  zip_with (fun a s => a * s)
    (env_transport_capacity_prefactor_withA env) slopes_tothent.

Definition compute_erosion_prefactor_withS (self : SedDepEroder) (env : LoopEnv)
    (downward_slopes : ndarray) : ndarray :=
  let slopes_tothen :=
    index_fill (env_is_flooded env) 0 (pow_array downward_slopes (_n self)) in
  zip_with (fun a s => a * s) (env_erosion_prefactor_withA env) slopes_tothen.

Definition call_router (self : SedDepEroder) (grid : ModelGrid) (env : LoopEnv)
    (s : LoopState) : RouterArrays :=
  let n := number_of_nodes grid in
  iterate_sde_downstream
    (flow__upstream_node_order grid) (cell_areas self) (env_hillslope_flux env)
    (_porosity self)
    (compute_transport_capacities self env (ls_downward_slopes s))
    (compute_erosion_prefactor_withS self env (ls_downward_slopes s))
    (flow__receiver_node grid) (_pseudoimplicit_repeats self)
    (_sed_flux_fn_gen self) (kappa self) (nu self) (c self) (phi self) (norm self)
    {| river_volume_flux_into_node := np_zeros n;
       rel_sed_flux := rel_sed_flux (ls_arrays s);
       is_it_TL_buffer := replicate n false;
       vol_drop_rate := vol_drop_rate (ls_arrays s);
       dzbydt := np_zeros n |}.

(** Lines 741-753: sediment depth rebuilt at the nodes that have a cell,
    bedrock lowered and the surface reassembled at core nodes. *)
Definition rebuild_hillslope_sediment (grid : ModelGrid) (voldroprate : ndarray)
    (this_tstep : float) (hillslope_sediment : ndarray) : ndarray :=
  scatter (node_at_cell grid)
    (zip_with (fun v a => v / a * this_tstep)
       (gather voldroprate (node_at_cell grid)) (area_of_cell grid))
    hillslope_sediment.

Definition lower_elev_less_sed (grid : ModelGrid) (dz : ndarray)
    (this_tstep : float) (elev_less_sed : ndarray) : ndarray :=
  update_at (core_nodes grid)
    (fun n => getf elev_less_sed n + getf dz n * this_tstep) elev_less_sed.

Definition reassemble_node_z (grid : ModelGrid)
    (elev_less_sed hillslope_sediment node_z : ndarray) : ndarray :=
  update_at (core_nodes grid)
    (fun n => getf elev_less_sed n + getf hillslope_sediment n) node_z.

(** Lines 763-768: slopes recomputed along the unchanged receiver links. *)
Definition recompute_downward_slopes (grid : ModelGrid) (env : LoopEnv)
    (node_z old_slopes : ndarray) : ndarray :=
  let diff := compute_downstr_vert_diff node_z (flow__receiver_node grid) in
  let node_S :=
    update_at (env_core_draining_nodes env)
      (fun n => getf diff n / getf (env_link_length env) n)
      (np_zeros (length old_slopes)) in
  np_clip_min 0 node_S.

(** One pass through the body of [while 1]; the boolean is [break_flag]. *)
Definition substep (self : SedDepEroder) (grid : ModelGrid) (env : LoopEnv)
    (s : LoopState) : LoopState * bool :=
  let out := call_router self grid env s in
  let t_conv :=
    convergence_tstep (dzbydt out) (ls_node_z s) (flow__receiver_node grid)
      (env_dt_secs env) in
  let '(this_tstep, t_elapsed, break_flag, t_attr) :=
    choose_tstep t_conv (env_max_tstep_wave env) (env_dt_secs env)
      (ls_t_elapsed_internal s) in
  let h := rebuild_hillslope_sediment grid (vol_drop_rate out) this_tstep
             (ls_hillslope_sediment s) in
  let els := lower_elev_less_sed grid (dzbydt out) this_tstep (ls_elev_less_sed s) in
  let z := reassemble_node_z grid els h (ls_node_z s) in
  ({| ls_node_z := z;
      ls_elev_less_sed := els;
      ls_hillslope_sediment := h;
      ls_downward_slopes :=
        if break_flag then ls_downward_slopes s
        else recompute_downward_slopes grid env z (ls_downward_slopes s);
      ls_t_elapsed_internal := t_elapsed;
      ls_arrays := out;
      ls_transport_capacities :=
        compute_transport_capacities self env (ls_downward_slopes s);
      ls_t_to_converge := default (ls_t_to_converge s) t_attr;
      ls_this_tstep := this_tstep;
      ls_loopcounter :=
        if break_flag then ls_loopcounter s else S (ls_loopcounter s) |},
   break_flag).

(** [while 1]: at most [fuel] sub-steps; the boolean tells whether the loop
    reached its [break]. *)
Fixpoint erode_loop (fuel : nat) (self : SedDepEroder) (grid : ModelGrid)
    (env : LoopEnv) (s : LoopState) : LoopState * bool :=
  match fuel with
  | O => (s, false)
  | S fuel' =>
      let '(s', break_flag) := substep self grid env s in
      if break_flag then (s', true) else erode_loop fuel' self grid env s'
  end.

(** The attributes [erode] assigns on [self]. *)
Definition set_attributes (flux voldroprate : ndarray) (tl : list bool)
    (denom lengths : ndarray) (wave t_conv : float) (counter : nat)
    (self : SedDepEroder) : SedDepEroder :=
  {| _pseudoimplicit_repeats := _pseudoimplicit_repeats self;
     _K_unit_time := _K_unit_time self; _porosity := _porosity self;
     type := type self; kappa := kappa self; nu := nu self; phi := phi self;
     c := c self; norm := norm self; _sed_flux_fn_gen := _sed_flux_fn_gen self;
     Qc := Qc self; _m := _m self; _n := _n self; _Kt := _Kt self;
     _mt := _mt self; _nt := _nt self; cell_areas := cell_areas self;
     _hillslope_sediment_flux_wzeros := flux;
     _voldroprate := voldroprate;
     _is_it_TL := tl;
     wave_denom := denom;
     link_length := lengths;
     max_tstep_wave := wave;
     t_to_converge := t_conv;
     _loopcounter := counter |}.

Definition make_env (self : SedDepEroder) (grid : ModelGrid) (dt_secs : float)
    (is_flooded : flooded_index) : LoopEnv :=
  {| env_dt_secs := dt_secs;
     env_is_flooded := is_flooded;
     env_link_length := compute_link_length grid;
     env_core_draining_nodes := core_draining_nodes grid;
     env_hillslope_flux := compute_hillslope_flux self grid dt_secs;
     env_transport_capacity_prefactor_withA :=
       compute_transport_capacity_prefactor_withA self grid;
     env_erosion_prefactor_withA := compute_erosion_prefactor_withA self grid;
     env_max_tstep_wave := compute_max_tstep_wave self grid |}.

(** The loop variables on entry to [while 1].  [rel_sed_flux] comes from
    [np.empty_like] and holds arbitrary values until the kernel writes it;
    the model starts it at zero.  [transport_capacities] is unbound until
    the first pass. *)
Definition initial_state (self : SedDepEroder) (grid : ModelGrid) : LoopState :=
  let node_z := topographic__elevation grid in
  let n := number_of_nodes grid in
  {| ls_node_z := node_z;
     ls_elev_less_sed :=
       zip_with (fun z h => z - h) node_z (channel_sediment__depth grid);
     ls_hillslope_sediment := np_fill 0 (channel_sediment__depth grid);
     ls_downward_slopes := initial_downward_slopes grid;
     ls_t_elapsed_internal := 0;
     ls_arrays :=
       {| river_volume_flux_into_node := [];
          rel_sed_flux := np_zeros (length (drainage_area grid));
          is_it_TL_buffer := _is_it_TL self;
          vol_drop_rate := np_zeros n;
          dzbydt := np_zeros n |};
     ls_transport_capacities := [];
     ls_t_to_converge := t_to_converge self;
     ls_this_tstep := 0;
     ls_loopcounter := 0 |}.

(** [erode(dt, flooded_nodes)], running [while 1] for at most [fuel]
    sub-steps.  The result is the component and the grid as the call
    leaves them, and how it ended. *)
Definition erode (fuel : nat) (self : SedDepEroder) (grid : ModelGrid)
    (dt : float) (flooded_nodes : flooded_arg)
  : SedDepEroder * ModelGrid * outcome :=
  if decide (length (flow__receiver_node grid) <> number_of_nodes grid)
  then (self, grid, Raised NotImplementedError)
  else
    let dt_secs := dt * SECONDS_PER_YEAR in
    match resolve_flooded grid flooded_nodes with
    | inl e => (self, grid, Raised e)
    | inr is_flooded =>
        let env := make_env self grid dt_secs is_flooded in
        let s0 := initial_state self grid in
        (* lines 625-628: the first writes *)
        let self1 :=
          set_attributes (env_hillslope_flux env)
            (np_zeros (number_of_nodes grid)) (_is_it_TL self)
            (wave_denom self) (link_length self) (max_tstep_wave self)
            (t_to_converge self) (_loopcounter self) self in
        let grid1 := set_channel_sediment__depth (ls_hillslope_sediment s0) grid in
        if String.eqb (Qc self) "power_law"
        then
          let '(s, finished) :=
            erode_loop fuel self grid env s0 in
          let self2 :=
            set_attributes (env_hillslope_flux env)
              (vol_drop_rate (ls_arrays s)) (is_it_TL_buffer (ls_arrays s))
              (compute_wave_stab_cond_denominator self grid)
              (env_link_length env) (env_max_tstep_wave env)
              (ls_t_to_converge s) (ls_loopcounter s) self in
          let grid2 :=
            set_topographic__elevation (ls_node_z s)
              (set_channel_sediment__depth (ls_hillslope_sediment s) grid) in
          if finished
          then (self2,
                set_output_fields (ls_transport_capacities s)
                  (river_volume_flux_into_node (ls_arrays s))
                  (rel_sed_flux (ls_arrays s)) grid2,
                Returned)
          else (self2, grid2, StillLooping)
        else (self1, grid1, Raised TypeError)
    end.

(** [run_one_step] is [erode] under another name. *)
Definition run_one_step := erode.

(** The [is_it_TL] property: the flags of the last sub-step, as booleans. *)
Definition is_it_TL (self : SedDepEroder) : list bool := _is_it_TL self.

End Erode.

(** *** The downstream routing kernel *)

Section Kernel.

(** The two response curves whose formula the specification leaves open,
    with the argument order of their call sites:
    [fn(rel_sed_flux, kappa, nu, c, phi, norm)]. *)
Variable genhump : float -> float -> float -> float -> float -> float -> float.
Variable almostparabolic : float -> float -> float -> float -> float -> float -> float.

(** The "local porosity correction" that turns a flux surplus into a
    deposition rate; the specification names it without a formula. *)
Variable porosity_correction : float -> float -> float.

(** Modelled from the spec: the response function family of [cfuncs]
    (section 4.1): [constant] is 1 everywhere, [linear_decline] falls
    linearly from 1 at 0 to 0 at 1; the other two curves are the variables
    above. *)
Definition eval_sed_flux_fn (fn : sed_flux_fn)
    (x kappa nu c phi norm : float) : float :=
  match fn with
  | sed_flux_fn_gen_const => 1
  | sed_flux_fn_gen_lindecl => 1 - x
  | sed_flux_fn_gen_genhump => genhump x kappa nu c phi norm
  | sed_flux_fn_gen_almostparabolic => almostparabolic x kappa nu c phi norm
  end.

(** Modelled from the spec: the bounded refinement of section 4.4 step 4.
    The relative flux is fixed within a pass, so every refinement pass
    evaluates the response at the same [x]; the passes stop once two
    successive estimates differ by less than 1 percent or the budget is
    used up, and the last estimate is kept. *)
Fixpoint refine_response (passes : nat) (f : float -> float) (x last : float)
  : float :=
  match passes with
  | O => last
  | S passes' =>
      let estimate := f x in
      if abs ((estimate - last) / estimate) <? 0.01
      then estimate
      else refine_response passes' f x estimate
  end.

(** Modelled from the spec: one node of the pass of
    [cfuncs.iterate_sde_downstream] (section 4.4, steps 1-5).  The kernel
    is handed neither the flooded mask nor the node status, so a flooded
    node is the one whose capacity [erode] forced to zero.
    - step 1: [Qs] is the hillslope supply plus what upstream nodes
      delivered;
    - step 2: zero capacity: no erosion, all of [Qs] deposited, nothing
      forwarded;
    - step 3: [Qs/Qc >= 1]: transport-limited, no erosion, the surplus
      deposited, [Qc] forwarded;
    - step 4: otherwise the erosion rate is the prefactor times the
      response function, nothing is deposited and [Qs] is forwarded;
    - step 5: [dz/dt = -E], the flag and the rates are recorded. *)
Definition visit_node (hillslope_sediment_flux : ndarray) (porosity : float)
    (transport_capacities erosion_prefactor_withS : ndarray)
    (flow_receiver : list nat) (pseudoimplicit_repeats : nat)
    (fn : sed_flux_fn) (kappa nu c phi norm : float)
    (b : RouterArrays) (n : nat) : RouterArrays :=
  let Qs := getf hillslope_sediment_flux n + getf (river_volume_flux_into_node b) n in
  let capacity := getf transport_capacities n in
  let x := Qs / capacity in
  let r := getn flow_receiver n in
  let forward (q : float) (river : ndarray) := <[r := getf river r + q]> river in
  if capacity =? 0 then
    {| river_volume_flux_into_node := river_volume_flux_into_node b;
       rel_sed_flux := <[n := x]> (rel_sed_flux b);
       is_it_TL_buffer := <[n := 1 <=? x]> (is_it_TL_buffer b);
       vol_drop_rate := <[n := porosity_correction porosity Qs]> (vol_drop_rate b);
       dzbydt := <[n := - 0]> (dzbydt b) |}
  else if 1 <=? x then
    {| river_volume_flux_into_node := forward capacity (river_volume_flux_into_node b);
       rel_sed_flux := <[n := x]> (rel_sed_flux b);
       is_it_TL_buffer := <[n := true]> (is_it_TL_buffer b);
       vol_drop_rate :=
         <[n := porosity_correction porosity (Qs - capacity)]> (vol_drop_rate b);
       dzbydt := <[n := - 0]> (dzbydt b) |}
  else
    let f := fun y => eval_sed_flux_fn fn y kappa nu c phi norm in
    let E := getf erosion_prefactor_withS n *
             refine_response pseudoimplicit_repeats f x (f x) in
    {| river_volume_flux_into_node := forward Qs (river_volume_flux_into_node b);
       rel_sed_flux := <[n := x]> (rel_sed_flux b);
       is_it_TL_buffer := <[n := false]> (is_it_TL_buffer b);
       vol_drop_rate := <[n := 0]> (vol_drop_rate b);
       dzbydt := <[n := - E]> (dzbydt b) |}.

(** Modelled from the spec: [cfuncs.iterate_sde_downstream], one pass over
    the nodes from headwaters to outlet.  [s_in] is
    [flow__upstream_node_order], ordered from the outlet upstream, so the
    pass runs through it backwards. *)
Definition spec_iterate_sde_downstream : router_type :=
  fun s_in cell_areas hillslope_sediment_flux porosity
      transport_capacities erosion_prefactor_withS
      flow_receiver pseudoimplicit_repeats fn kappa nu c phi norm b =>
    foldl (visit_node hillslope_sediment_flux porosity transport_capacities
             erosion_prefactor_withS flow_receiver pseudoimplicit_repeats
             fn kappa nu c phi norm)
          b (reverse s_in).

End Kernel.

(** *** The constructor *)

Section Constructor.

(** [cfuncs.sed_flux_fn_gen_genhump], called as
    [fn(rel_sed_flux, kappa, nu, c, phi, norm)]. *)
Variable genhump : float -> float -> float -> float -> float -> float -> float.

(** [np.mean], used once to fill [cell_areas] at the nodes without a cell. *)
Variable np_mean : ndarray -> float.

Definition float_of_nat (i : nat) : float :=
  of_uint63 (Uint63.of_Z (Z.of_nat i)).

(** [np.arange(0., 1.001, 0.001)]: [ceil(1.001 / 0.001)] = 1001 entries, the
    [i]-th being [0. + i * 0.001]. *)
Definition np_arange_0_1001 : ndarray :=
  (fun i => 0 + float_of_nat i * 0.001) <$> seq 0 1001.

(** Lines 537-542: the largest sampled value, starting from [0.]. *)
Definition sampled_max_val (kappa nu c phi : float) : float :=
  foldl (fun max_val i => pymax (genhump i kappa nu c phi 1) max_val)
    0 np_arange_0_1001.

(** [set_sed_flux_fn_gen]: the response function for [self.type] and the
    value of [self.norm] afterwards.  [1./max_val] is a division of Python
    floats and raises on a zero [max_val]. *)
Definition set_sed_flux_fn_gen (type : string) (kappa nu c phi norm : float)
  : exception + option sed_flux_fn * float :=
  if String.eqb type "generalized_humped" then
    let max_val := sampled_max_val kappa nu c phi in
    if max_val =? 0 then inl ZeroDivisionError
    else inr (Some sed_flux_fn_gen_genhump, 1 / max_val)
  else if String.eqb type "None" then inr (Some sed_flux_fn_gen_const, norm)
  else if String.eqb type "linear_decline" then inr (Some sed_flux_fn_gen_lindecl, norm)
  else if String.eqb type "almost_parabolic"
       then inr (Some sed_flux_fn_gen_almostparabolic, norm)
  else inr (None, norm).

(** The keyword arguments of [__init__] that reach [erode]. *)
Record InitArgs := {
  K_sp : float;
  rock_density : float;
  sediment_density : float;
  sed_dependency_type : string;
  kappa_hump : float;
  nu_hump : float;
  phi_hump : float;
  c_hump : float;
  Qc_arg : string;
  m_sp : float;
  n_sp : float;
  K_t : float;
  m_t : float;
  n_t : float;
  pseudoimplicit_repeats : nat
}.

Definition permitted_types : list string :=
  ["generalized_humped"; "None"; "linear_decline"; "almost_parabolic"]%string.

(** [__init__], on a grid that already carries the flow fields and
    [channel_sediment__depth].  The checks come in the order of the source:
    the receiver shape, the assertion on the response type, the
    normalization, the transport law. *)
Definition __init__ (grid : ModelGrid) (args : InitArgs)
  : exception + SedDepEroder :=
  if decide (length (flow__receiver_node grid) <> number_of_nodes grid)
  then inl NotImplementedError
  else if negb (existsb (String.eqb (sed_dependency_type args)) permitted_types)
  then inl AssertionError
  else
    let humped := String.eqb (sed_dependency_type args) "generalized_humped" in
    let kappa := if humped then kappa_hump args else 0 in
    let nu := if humped then nu_hump args else 0 in
    let phi := if humped then phi_hump args else 0 in
    let c := if humped then c_hump args else 0 in
    match set_sed_flux_fn_gen (sed_dependency_type args) kappa nu c phi 0 with
    | inl e => inl e
    | inr (None, _) => inl AssertionError
    | inr (Some fn, norm) =>
        if String.eqb (Qc_arg args) "MPM" then inl NameError
        else if String.eqb (Qc_arg args) "power_law" then
          inr {| _pseudoimplicit_repeats := pseudoimplicit_repeats args;
                 _K_unit_time := K_sp args / 31557600;
                 _porosity := sediment_density args / rock_density args;
                 type := sed_dependency_type args;
                 kappa := kappa; nu := nu; phi := phi; c := c; norm := norm;
                 _sed_flux_fn_gen := fn;
                 Qc := Qc_arg args;
                 _m := m_sp args; _n := n_sp args;
                 _Kt := K_t args / 31557600;
                 _mt := m_t args; _nt := n_t args;
                 cell_areas :=
                   scatter (node_at_cell grid) (area_of_cell grid)
                     (replicate (number_of_nodes grid)
                        (np_mean (area_of_cell grid)));
                 _hillslope_sediment_flux_wzeros :=
                   np_zeros (number_of_nodes grid);
                 _voldroprate := [];
                 _is_it_TL := [];
                 wave_denom := [];
                 link_length := [];
                 max_tstep_wave := 0;
                 t_to_converge := 0;
                 _loopcounter := 0 |}
        else inl NameError
    end.

End Constructor.

(** *** Concrete instances used by the examples *)

(** numpy's power at the exponents -1, 0 and 1, where it is an exact basic
    operation ([x ** 1] is [x], [x ** 0] is [1], [x ** -1] is [1/x]).  The
    examples use no other exponent; this instance answers NaN elsewhere. *)
Definition pow_small (x e : float) : float :=
  if e =? 1 then x
  else if e =? 0 then 1
  else if e =? -1 then 1 / x
  else nan.

(** landlab's [BAD_INDEX_VALUE]. *)
Definition bad_index : Z := (-1)%Z.

(** With equal rock and sediment densities the porosity ratio is 1 and the
    correction leaves the surplus as it is. *)
Definition unit_porosity_correction (porosity surplus : float) : float :=
  surplus / porosity.

(** The examples use the constant response function; the two open curves
    are never evaluated there. *)
Definition curve_not_evaluated (x kappa nu c phi norm : float) : float := nan.

Definition example_router : router_type :=
  spec_iterate_sde_downstream curve_not_evaluated curve_not_evaluated
    unit_porosity_correction.

(** A [RasterModelGrid((4, 3), 200.)] as in the docstring example, with the
    left, right and top edges closed: nodes 4 and 7 are core, node 7 drains
    to node 4 along link 8 and node 4 to the open boundary node 1 along
    link 3.  [z] is the elevation and [h] the sediment depth at all nodes;
    [s4] and [s7] are the steepest slopes recorded at nodes 4 and 7. *)
Definition raster_4x3 (z : ndarray) (h : float) (s4 s7 : float) : ModelGrid :=
  {| number_of_nodes := 12;
     core_nodes := [4; 7]%nat;
     node_at_cell := [4; 7]%nat;
     area_of_cell := [40000; 40000];
     length_of_d8 := replicate 17 200 ++ replicate 12 282.84271247461902;
     bool_fields := [];
     topographic__elevation := z;
     drainage_area := [0; 80000; 0; 0; 80000; 0; 0; 40000; 0; 0; 0; 0];
     flow__receiver_node := [0; 1; 2; 3; 1; 5; 6; 4; 8; 9; 10; 11]%nat;
     flow__upstream_node_order := [0; 1; 4; 7; 2; 3; 5; 6; 8; 9; 10; 11]%nat;
     topographic__steepest_slope := [0; 0; 0; 0; s4; 0; 0; s7; 0; 0; 0; 0];
     flow__link_to_receiver_node :=
       [-1; -1; -1; -1; 3; -1; -1; 8; -1; -1; -1; -1]%Z;
     flow__sink_flag :=
       [true; true; true; true; false; true; true; false; true; true; true; true];
     channel_sediment__depth := replicate 12 h;
     channel__bed_shear_stress := replicate 12 0;
     channel_sediment__volumetric_transport_capacity := replicate 12 0;
     channel_sediment__volumetric_discharge := replicate 12 0;
     channel_sediment__relative_flux := replicate 12 0;
     channel__discharge := replicate 12 0 |}.

(** [z = node_y / 10000] on that grid. *)
Definition tilted_z : ndarray :=
  [0; 0; 0; 0.02; 0.02; 0.02; 0.04; 0.04; 0.04; 0.06; 0.06; 0.06].

(** The same surface with node 7 level with node 4. *)
Definition flat_top_z : ndarray :=
  [0; 0; 0; 0.02; 0.02; 0.02; 0.02; 0.02; 0.02; 0.06; 0.06; 0.06].

(** A component as [__init__] leaves it for
    [sed_dependency_type='None'], [Qc='power_law'], equal densities and
    [m_sp = m_t = n_t = 1], on a 12-node grid with 200 m spacing. *)
Definition example_component (K_sp K_t n_sp : float) : SedDepEroder :=
  {| _pseudoimplicit_repeats := 50;
     _K_unit_time := K_sp / 31557600;
     _porosity := 2700 / 2700;
     type := "None";
     kappa := 0; nu := 0; phi := 0; c := 0; norm := 0;
     _sed_flux_fn_gen := sed_flux_fn_gen_const;
     Qc := "power_law";
     _m := 1; _n := n_sp; _Kt := K_t / 31557600; _mt := 1; _nt := 1;
     cell_areas := replicate 12 40000;
     _hillslope_sediment_flux_wzeros := replicate 12 0;
     _voldroprate := [];
     _is_it_TL := [];
     wave_denom := [];
     link_length := [];
     max_tstep_wave := 0;
     t_to_converge := 0;
     _loopcounter := 0 |}.

(** [erode] with these instances. *)
Definition example_erode := erode pow_small bad_index example_router.

(** The docstring's surface and uniform sediment cover of 0.0007 on that
    grid, as [FlowAccumulator] routes it. *)
Definition tilted_grid : ModelGrid := raster_4x3 tilted_z 0.0007 1e-4 1e-4.

(** A component with [K_sp = 1e-4], [K_t = 1] and [n_sp = 1]. *)
Definition unit_component : SedDepEroder := example_component 1e-4 1 1.

(** The docstring's own transport coefficient, [K_t = 1e-4]: capacities
    are so small that both core nodes stay transport-limited. *)
Definition low_capacity_component : SedDepEroder := example_component 1e-4 1e-4 1.

(** A grid on which node 7 is level with node 4 and is routed to it with a
    zero slope, as a depression router does for a pit; and a component with
    [n_sp = 0]. *)
Definition flat_top_grid : ModelGrid := raster_4x3 flat_top_z 0.0007 1e-4 0.

Definition n0_component : SedDepEroder := example_component 1e-4 1 0.


(** [np.mean] of an array of fewer than eight entries: numpy sums those
    from left to right. *)
Definition small_mean (a : ndarray) : float :=
  foldl (fun acc x => acc + x) 0 a / float_of_nat (length a).

(** The keyword arguments behind [example_component]. *)
Definition example_args (K_sp K_t n_sp : float) : InitArgs :=
  {| K_sp := K_sp; rock_density := 2700; sediment_density := 2700;
     sed_dependency_type := "None";
     kappa_hump := 13.683; nu_hump := 1.13; phi_hump := 4.24; c_hump := 0.00181;
     Qc_arg := "power_law";
     m_sp := 1; n_sp := n_sp; K_t := K_t; m_t := 1; n_t := 1;
     pseudoimplicit_repeats := 50 |}.

(** *** The claims in the words of the specification *)

(** "Finite": neither infinite nor NaN. *)
Definition finite_number (x : float) : bool := abs x <? infinity.

(** "The full remaining time of the outer timestep". *)
Definition remaining_time (dt_secs t_elapsed_internal : float) : float :=
  dt_secs - t_elapsed_internal.

(** "Core draining nodes": the core nodes that have a downslope link. *)
Definition drains (BAD_INDEX_VALUE : Z) (grid : ModelGrid) (n : nat) : bool :=
  match flow__link_to_receiver_node grid !! n with
  | Some l => negb (l =? BAD_INDEX_VALUE)%Z
  | None => false
  end.

Definition core_draining_set (BAD_INDEX_VALUE : Z) (grid : ModelGrid) : list nat :=
  filter (fun n => n ∈ core_nodes grid /\ drains BAD_INDEX_VALUE grid n = true)
    (seq 0 (number_of_nodes grid)).

(** "[K*A(n)^m_sp] when [n_sp] is close to 1, or [K*A(n)^m_sp*S(n)^(n_sp-1)]
    otherwise, with the slope floored" at [slope_floor]. *)
Definition wave_denominator_at (fpow : float -> float -> float) (slope_floor : float)
    (self : SedDepEroder) (grid : ModelGrid) (n : nat) : float :=
  let KA := _K_unit_time self * fpow (getf (drainage_area grid) n) (_m self) in
  if np_isclose (_n self) 1 then KA
  else KA * fpow (np_maximum (getf (topographic__steepest_slope grid) n) slope_floor)
              (_n self - 1).

(** "0.2 times the minimum over all core draining nodes of the link length
    divided by" that denominator. *)
Definition wave_bound_over_core_draining (fpow : float -> float -> float)
    (BAD_INDEX_VALUE : Z) (slope_floor : float)
    (self : SedDepEroder) (grid : ModelGrid) : float :=
  0.2 * np_nanmin
          ((fun n =>
              getf (length_of_d8 grid)
                (Z.to_nat (default 0%Z (flow__link_to_receiver_node grid !! n)))
              / wave_denominator_at fpow slope_floor self grid n)
           <$> core_draining_set BAD_INDEX_VALUE grid).

(** "[sediment_depth[n] + (z_initial[n] - z_final[n]) = h0] within
    floating-point tolerance", with [np.allclose] as in the docstring. *)
Definition tl_budget_closes (th initz z : ndarray) (h0 : float) (n : nat) : bool :=
  np_allclose1 (getf th n + (getf initz n - getf z n)) h0.

(** "Every sub-step": the loop variables as each sub-step of [while 1]
    leaves them, in order, for at most [fuel] sub-steps. *)
Fixpoint erode_trace (fpow : float -> float -> float) (router : router_type)
    (fuel : nat) (self : SedDepEroder) (grid : ModelGrid) (env : LoopEnv)
    (s : LoopState) : list LoopState :=
  match fuel with
  | O => []
  | S fuel' =>
      let r := substep fpow router self grid env s in
      r.1 :: (if r.2 then [] else erode_trace fpow router fuel' self grid env r.1)
  end.

(** "Classified transport-limited" in a sub-step of positive, finite length. *)
Definition tl_in_substep (n : nat) (s : LoopState) : Prop :=
  is_it_TL_buffer (ls_arrays s) !! n = Some true /\
  (0 <? ls_this_tstep s) = true /\
  (ls_this_tstep s <? infinity) = true.

(** The invariant of a pass: a raised flag comes with a zero rate. *)
Definition flag_means_no_erosion (n : nat) (b : RouterArrays) : Prop :=
  length (dzbydt b) = length (is_it_TL_buffer b) /\
  (is_it_TL_buffer b !! n = Some true -> dzbydt b !! n = Some (- 0)).

(** *** Further instances *)

(** The docstring grid with no sediment cover: bare bedrock. *)
Definition bare_grid : ModelGrid := raster_4x3 tilted_z 0 1e-4 1e-4.

(** A boolean array over the 12 nodes that flags node 7. *)
Definition node_7_mask : list bool :=
  [false; false; false; false; false; false; false; true;
   false; false; false; false].

(** [unit_component] after [Qc] was assigned another value from outside;
    [__init__] itself never leaves one behind. *)
Definition mpm_component : SedDepEroder :=
  {| _pseudoimplicit_repeats := _pseudoimplicit_repeats unit_component;
     _K_unit_time := _K_unit_time unit_component;
     _porosity := _porosity unit_component;
     type := type unit_component;
     kappa := 0; nu := 0; phi := 0; c := 0; norm := 0;
     _sed_flux_fn_gen := sed_flux_fn_gen_const;
     Qc := "MPM";
     _m := 1; _n := 1; _Kt := _Kt unit_component; _mt := 1; _nt := 1;
     cell_areas := cell_areas unit_component;
     _hillslope_sediment_flux_wzeros := replicate 12 0;
     _voldroprate := [];
     _is_it_TL := [];
     wave_denom := [];
     link_length := [];
     max_tstep_wave := 0;
     t_to_converge := 0;
     _loopcounter := 0 |}.

(** A response curve that is level in the relative flux, [norm * kappa], and
    keyword arguments that select it with a negative [kappa_hump]: the curve
    is negative at every sample. *)
Definition level_hump (x kappa nu c phi norm : float) : float := norm * kappa.

Definition sinking_hump_args : InitArgs :=
  {| K_sp := 1e-4; rock_density := 2700; sediment_density := 2700;
     sed_dependency_type := "generalized_humped";
     kappa_hump := -1; nu_hump := 1.13; phi_hump := 4.24; c_hump := 0.00181;
     Qc_arg := "power_law";
     m_sp := 1; n_sp := 1; K_t := 1; m_t := 1; n_t := 1;
     pseudoimplicit_repeats := 50 |}.

(** *** [landlab.grid.mappers] *)

(** The link side of a landlab grid, which [SedDepEroder] never reads, and
    the grid's two open-ended field stores.  [node_at_link_head] and
    [node_at_link_tail] have one entry per link; [links_at_node] and
    [link_dirs_at_node] are two-dimensional, with one row per node and one
    column per link slot; a slot without a link holds the id -1 and the
    direction 0, a link that arrives at the node has direction 1 and one
    that leaves it direction -1. *)
Record GridLinks := {
  number_of_links : nat;
  node_at_link_head : list nat;
  node_at_link_tail : list nat;
  links_at_node : list (list Z);
  link_dirs_at_node : list (list Z);
  at_node : list (string * ndarray);
  at_link : list (string * ndarray)
}.

(** What a mapper raises: landlab's [FieldError] for a missing field, numpy's
    [ValueError] for shapes that do not fit, [AssertionError]. *)
Inductive mapper_raise :=
  | RaiseFieldError
  | RaiseValueError
  | RaiseAssertionError.

(** [grid.at_node[name]] and [grid.at_link[name]]. *)
Fixpoint lookup_array (name : string) (fields : list (string * ndarray))
  : option ndarray :=
  match fields with
  | [] => None
  | (k, v) :: rest => if String.eqb k name then Some v else lookup_array name rest
  end.

(** [out[:] = vals], and a ufunc called with [out=out], where [out] is the
    caller's buffer or, for [None], the array of [size] entries that
    [grid.empty] allocates: [vals] must have the buffer's length, or a single
    entry, which is then broadcast. *)
Definition assign_out (out : option ndarray) (size : nat) (vals : ndarray)
  : mapper_raise + ndarray :=
  let n := match out with Some buffer => length buffer | None => size end in
  if decide (length vals = n) then inr vals
  else match vals with
       | [v] => inr (replicate n v)
       | _ => inl RaiseValueError
       end.

(** A reduction called with [out=out]: nothing is broadcast, the buffer must
    have exactly the length of the result. *)
Definition reduce_out (out : option ndarray) (size : nat) (vals : ndarray)
  : mapper_raise + ndarray :=
  let n := match out with Some buffer => length buffer | None => size end in
  if decide (length vals = n) then inr vals else inl RaiseValueError.

(** [np.where(cond, a, b)] on three arrays of one length. *)
Fixpoint np_where3 (cond : list bool) (a b : ndarray) : ndarray :=
  match cond, a, b with
  | q :: cond', x :: a', y :: b' => (if q then x else y) :: np_where3 cond' a' b'
  | _, _, _ => []
  end.

Definition map_link_head_node_to_link (links : GridLinks) (var_name : string)
    (out : option ndarray) : mapper_raise + ndarray :=
  match lookup_array var_name (at_node links) with
  | None => inl RaiseFieldError
  | Some values_at_nodes =>
      assign_out out (number_of_links links)
        (gather values_at_nodes (node_at_link_head links))
  end.

Definition map_link_tail_node_to_link (links : GridLinks) (var_name : string)
    (out : option ndarray) : mapper_raise + ndarray :=
  match lookup_array var_name (at_node links) with
  | None => inl RaiseFieldError
  | Some values_at_nodes =>
      assign_out out (number_of_links links)
        (gather values_at_nodes (node_at_link_tail links))
  end.

Definition map_min_of_link_nodes_to_link (links : GridLinks) (var_name : string)
    (out : option ndarray) : mapper_raise + ndarray :=
  match lookup_array var_name (at_node links) with
  | None => inl RaiseFieldError
  | Some values_at_nodes =>
      assign_out out (number_of_links links)
        (zip_with np_minimum
           (gather values_at_nodes (node_at_link_head links))
           (gather values_at_nodes (node_at_link_tail links)))
  end.

Definition map_max_of_link_nodes_to_link (links : GridLinks) (var_name : string)
    (out : option ndarray) : mapper_raise + ndarray :=
  match lookup_array var_name (at_node links) with
  | None => inl RaiseFieldError
  | Some values_at_nodes =>
      assign_out out (number_of_links links)
        (zip_with np_maximum
           (gather values_at_nodes (node_at_link_head links))
           (gather values_at_nodes (node_at_link_tail links)))
  end.

Definition map_mean_of_link_nodes_to_link (links : GridLinks) (var_name : string)
    (out : option ndarray) : mapper_raise + ndarray :=
  match lookup_array var_name (at_node links) with
  | None => inl RaiseFieldError
  | Some values_at_nodes =>
      assign_out out (number_of_links links)
        (zip_with (fun h t => 0.5 * (h + t))
           (gather values_at_nodes (node_at_link_head links))
           (gather values_at_nodes (node_at_link_tail links)))
  end.

Definition map_value_at_min_node_to_link (links : GridLinks)
    (control_name value_name : string) (out : option ndarray)
  : mapper_raise + ndarray :=
  match lookup_array control_name (at_node links) with
  | None => inl RaiseFieldError
  | Some controlling_values_at_nodes =>
      let head_control := gather controlling_values_at_nodes (node_at_link_head links) in
      let tail_control := gather controlling_values_at_nodes (node_at_link_tail links) in
      match lookup_array value_name (at_node links) with
      | None => inl RaiseFieldError
      | Some values =>
          let head_vals := gather values (node_at_link_head links) in
          let tail_vals := gather values (node_at_link_tail links) in
          assign_out out (number_of_links links)
            (np_where3 (zip_with (fun t h => t <? h) tail_control head_control)
               tail_vals head_vals)
      end
  end.

Definition map_value_at_max_node_to_link (links : GridLinks)
    (control_name value_name : string) (out : option ndarray)
  : mapper_raise + ndarray :=
  match lookup_array control_name (at_node links) with
  | None => inl RaiseFieldError
  | Some controlling_values_at_nodes =>
      let head_control := gather controlling_values_at_nodes (node_at_link_head links) in
      let tail_control := gather controlling_values_at_nodes (node_at_link_tail links) in
      match lookup_array value_name (at_node links) with
      | None => inl RaiseFieldError
      | Some values =>
          let head_vals := gather values (node_at_link_head links) in
          let tail_vals := gather values (node_at_link_tail links) in
          assign_out out (number_of_links links)
            (np_where3 (zip_with (fun t h => h <? t) tail_control head_control)
               tail_vals head_vals)
      end
  end.

Definition map_node_to_cell (grid : ModelGrid) (links : GridLinks)
    (var_name : string) (out : option ndarray) : mapper_raise + ndarray :=
  match lookup_array var_name (at_node links) with
  | None => inl RaiseFieldError
  | Some values_at_nodes =>
      assign_out out (length (node_at_cell grid))
        (gather values_at_nodes (node_at_cell grid))
  end.

(** An elementwise operation on a two-dimensional array, given by its rows. *)
Definition map_rows {A B} (f : A -> B) (rows : list (list A)) : list (list B) :=
  (fun row : list A => f <$> row) <$> rows.

(** [a[i]] for a possibly negative index, which Python counts from the end
    (outside the range it raises [IndexError]; the model reads NaN). *)
Definition np_take (a : ndarray) (i : Z) : float :=
  let j := if (i <? 0)%Z then (Z.of_nat (length a) + i)%Z else i in
  if (j <? 0)%Z then nan else getf a (Z.to_nat j).

(** An entry of the integer array [link_dirs_at_node] as a float64. *)
Definition float_of_Z (d : Z) : float :=
  if (d <? 0)%Z then - of_uint63 (Uint63.of_Z (- d))
  else of_uint63 (Uint63.of_Z d).

(** [grid.at_link[var_name][grid.links_at_node] * grid.link_dirs_at_node]:
    a slot without a link reads the last link's value, times zero. *)
Definition values_at_links (links : GridLinks) (values : ndarray)
  : list (list float) :=
  zip_with (zip_with (fun l d => np_take values l * float_of_Z d))
    (links_at_node links) (link_dirs_at_node links).

(** [np.amax]: NaN propagates; an empty array raises [ValueError]. *)
Definition np_amax (a : ndarray) : option float :=
  match a with
  | [] => None
  | x :: a' => Some (foldl np_maximum x a')
  end.

(** A reduction along [axis=1]. *)
Definition reduce_rows (f : ndarray -> option float) (rows : list (list float))
  : mapper_raise + ndarray :=
  match mapM f rows with
  | Some v => inr v
  | None => inl RaiseValueError
  end.

(** [np.finfo(dtype=float).max] and [.min]. *)
Definition np_finfo_max : float := 0x1.fffffffffffffp+1023.

Definition np_finfo_min : float := - 0x1.fffffffffffffp+1023.

(** [values_at_linksX]: the link values with one more entry at the end, which
    the id -1 of a missing link reads.  The slice assignment needs one value
    per link (or a single one, which is broadcast). *)
Definition values_at_linksX (links : GridLinks) (var_name : string)
    (last : float) : mapper_raise + ndarray :=
  match lookup_array var_name (at_link links) with
  | None => inl RaiseFieldError
  | Some values =>
      match assign_out None (number_of_links links) values with
      | inl e => inl e
      | inr v => inr (v ++ [last])
      end
  end.

Definition map_min_of_node_links_to_node (grid : ModelGrid) (links : GridLinks)
    (var_name : string) (out : option ndarray) : mapper_raise + ndarray :=
  match values_at_linksX links var_name np_finfo_max with
  | inl e => inl e
  | inr valuesX =>
      match reduce_rows np_amin (map_rows (np_take valuesX) (links_at_node links)) with
      | inl e => inl e
      | inr v => reduce_out out (number_of_nodes grid) v
      end
  end.

Definition map_max_of_node_links_to_node (grid : ModelGrid) (links : GridLinks)
    (var_name : string) (out : option ndarray) : mapper_raise + ndarray :=
  match values_at_linksX links var_name np_finfo_min with
  | inl e => inl e
  | inr valuesX =>
      match reduce_rows np_amax (map_rows (np_take valuesX) (links_at_node links)) with
      | inl e => inl e
      | inr v => reduce_out out (number_of_nodes grid) v
      end
  end.

Definition map_upwind_node_link_max_to_node (grid : ModelGrid) (links : GridLinks)
    (var_name : string) (out : option ndarray) : mapper_raise + ndarray :=
  match lookup_array var_name (at_link links) with
  | None => inl RaiseFieldError
  | Some values =>
      match reduce_rows np_amax (map_rows (fun v => - v) (values_at_links links values)) with
      | inl e => inl e
      | inr v => reduce_out out (number_of_nodes grid) v
      end
  end.

Definition map_downwind_node_link_max_to_node (grid : ModelGrid) (links : GridLinks)
    (var_name : string) (out : option ndarray) : mapper_raise + ndarray :=
  match lookup_array var_name (at_link links) with
  | None => inl RaiseFieldError
  | Some values =>
      match reduce_rows np_amax (values_at_links links values) with
      | inl e => inl e
      | inr steepest_links_at_node =>
          assign_out out (number_of_nodes grid) (abs <$> steepest_links_at_node)
      end
  end.

(** [link_at_node_is_upwind] and [link_at_node_is_downwind].  A buffer passed
    as [out] is checked with [out.shape is grid.links_at_node.shape]: the two
    shape tuples are distinct objects, so the assertion fails for every
    buffer. *)
Definition link_at_node_is_upwind (links : GridLinks) (var_name : string)
    (out : option (list (list bool))) : mapper_raise + list (list bool) :=
  match out with
  | Some _ => inl RaiseAssertionError
  | None =>
      match lookup_array var_name (at_link links) with
      | None => inl RaiseFieldError
      | Some values => inr (map_rows (fun v => v <? 0) (values_at_links links values))
      end
  end.

Definition link_at_node_is_downwind (links : GridLinks) (var_name : string)
    (out : option (list (list bool))) : mapper_raise + list (list bool) :=
  match out with
  | Some _ => inl RaiseAssertionError
  | None =>
      match lookup_array var_name (at_link links) with
      | None => inl RaiseFieldError
      | Some values => inr (map_rows (fun v => 0 <? v) (values_at_links links values))
      end
  end.

(** [np.argsort] of a row of booleans: the positions of the [False] entries,
    then those of the [True] entries, each in increasing order (rows of
    [links_at_node] are short, and numpy sorts short arrays by insertion). *)
Definition argsort_bool (row : list bool) : list nat :=
  np_where (negb <$> row) ++ np_where row.

(** [row.sum()] for a row of booleans, [a.min()] for an array of counts, which
    raises [ValueError] on an empty array, and the slice [row[:-c]]: for
    [c = 0] this is [row[:0]], the empty slice. *)
Definition count_true (row : list bool) : nat :=
  length (filter (fun q => q = true) row).

Definition np_min_nat (a : list nat) : option nat :=
  match a with
  | [] => None
  | x :: a' => Some (foldl Nat.min x a')
  end.

Definition slice_to_minus {A} (c : nat) (row : list A) : list A :=
  match c with
  | O => []
  | S _ => take (length row - c) row
  end.

(** [a.shape[1]] of a two-dimensional array given by its rows. *)
Definition shape_1 {A} (rows : list (list A)) : nat :=
  match rows with
  | [] => 0
  | row :: _ => length row
  end.

(** The common body of [upwind_links_at_node] and [downwind_links_at_node],
    which differ in the comparison [values_at_links < 0.] or [> 0.] only. *)
Definition ordered_link_ids (wanted : float -> bool) (grid : ModelGrid)
    (links : GridLinks) (var_name : string) (bad_index : Z)
  : mapper_raise + list (list Z) :=
  match lookup_array var_name (at_link links) with
  | None => inl RaiseFieldError
  | Some values =>
      let unordered_IDs :=
        zip_with (zip_with (fun v l => if wanted v then l else bad_index))
          (values_at_links links values) (links_at_node links) in
      let bad_IDs := map_rows (fun id => (id =? bad_index)%Z) unordered_IDs in
      let nnodes := number_of_nodes grid in
      let flat_sorter :=
        zip_with (fun row i => (fun j => j + shape_1 (links_at_node links) * i)%nat <$> row)
          (argsort_bool <$> bad_IDs) (seq 0 nnodes) in
      let big_ordered_array :=
        map_rows (fun k => default 0%Z (concat unordered_IDs !! k)) flat_sorter in
      match np_min_nat (count_true <$> bad_IDs) with
      | None => inl RaiseValueError
      | Some cols_to_cut => inr (slice_to_minus cols_to_cut <$> big_ordered_array)
      end
  end.

Definition upwind_links_at_node := ordered_link_ids (fun v => v <? 0).

Definition downwind_links_at_node := ordered_link_ids (fun v => 0 <? v).

(** [np.argmax] of a row: the first position of the largest entry, a NaN
    counting as the largest; an empty row raises [ValueError]. *)
Fixpoint argmax_scan (mp : float) (max_ind i : nat) (ip : ndarray) : nat :=
  match ip with
  | [] => max_ind
  | x :: ip' =>
      if negb (x <=? mp)
      then if is_nan x then i else argmax_scan x i (S i) ip'
      else argmax_scan mp max_ind (S i) ip'
  end.

Definition np_argmax (a : ndarray) : option nat :=
  match a with
  | [] => None
  | x :: a' => Some (if is_nan x then 0%nat else argmax_scan x 0 1 a')
  end.

(** [link_vals[np.arange(grid.number_of_nodes), which_link]]. *)
Definition pick_per_node (nnodes : nat) (rows : list (list float))
    (which_link : list nat) : ndarray :=
  zip_with (fun i j => getf (default [] (rows !! i)) j) (seq 0 nnodes) which_link.

Definition map_value_at_upwind_node_link_max_to_node (grid : ModelGrid)
    (links : GridLinks) (control_name value_name : string) (out : option ndarray)
  : mapper_raise + ndarray :=
  match lookup_array control_name (at_link links) with
  | None => inl RaiseFieldError
  | Some control =>
      let values_at_nodes := values_at_links links control in
      match mapM np_argmax (map_rows (fun v => - v) values_at_nodes) with
      | None => inl RaiseValueError
      | Some which_link =>
          let invalid_links := map_rows (fun v => 0 <=? v) values_at_nodes in
          match lookup_array value_name (at_link links) with
          | None => inl RaiseFieldError
          | Some values =>
              let link_vals_without_invalids :=
                zip_with (zip_with (fun v (q : bool) => if q then 0 else v))
                  (map_rows (np_take values) (links_at_node links)) invalid_links in
              assign_out out (number_of_nodes grid)
                (pick_per_node (number_of_nodes grid) link_vals_without_invalids
                   which_link)
          end
      end
  end.

Definition map_value_at_downwind_node_link_max_to_node (grid : ModelGrid)
    (links : GridLinks) (control_name value_name : string) (out : option ndarray)
  : mapper_raise + ndarray :=
  match lookup_array control_name (at_link links) with
  | None => inl RaiseFieldError
  | Some control =>
      let values_at_nodes := values_at_links links control in
      match mapM np_argmax values_at_nodes with
      | None => inl RaiseValueError
      | Some which_link =>
          let invalid_links := map_rows (fun v => v <=? 0) values_at_nodes in
          match lookup_array value_name (at_link links) with
          | None => inl RaiseFieldError
          | Some values =>
              let link_vals_without_invalids :=
                zip_with (zip_with (fun v (q : bool) => if q then 0 else v))
                  (map_rows (np_take values) (links_at_node links)) invalid_links in
              assign_out out (number_of_nodes grid)
                (pick_per_node (number_of_nodes grid) link_vals_without_invalids
                   which_link)
          end
      end
  end.

(** Neither a positive nor a negative number: a zero of either sign, or
    NaN. *)
Definition zero_or_nan (x : float) : bool :=
  match Prim2SF x with
  | S754_zero _ | S754_nan => true
  | _ => false
  end.

Section NodeLinkMeans.

(** [np.sum] along a row of float64; the order in which numpy adds the
    entries of a row is its own. *)
Variable np_sum : ndarray -> float.

(** Lines 789-792 and 858-861: the sum of the positive entries of each row
    over their number.  A boolean multiplies as 1.0 or 0.0 and the count is
    an integer, converted for the division. *)
Definition mean_of_positive (vals_in_positive : list (list float)) : ndarray :=
  let vals_above_zero := map_rows (fun v => 0 <? v) vals_in_positive in
  let total_vals :=
    zip_with (fun row mask =>
                np_sum (zip_with (fun v (q : bool) => v * (if q then 1 else 0))
                          row mask))
      vals_in_positive vals_above_zero in
  let link_count := count_true <$> vals_above_zero in
  zip_with (fun t n => t / float_of_nat n) total_vals link_count.

Definition map_upwind_node_link_mean_to_node (grid : ModelGrid) (links : GridLinks)
    (var_name : string) (out : option ndarray) : mapper_raise + ndarray :=
  match lookup_array var_name (at_link links) with
  | None => inl RaiseFieldError
  | Some values =>
      let vals_in_positive :=
        map_rows (fun v => - v) (values_at_links links values) in
      match assign_out out (number_of_nodes grid)
              (mean_of_positive vals_in_positive) with
      | inl e => inl e
      | inr v => inr ((fun x => if is_nan x then 0 else x) <$> v)
      end
  end.

Definition map_downwind_node_link_mean_to_node (grid : ModelGrid) (links : GridLinks)
    (var_name : string) (out : option ndarray) : mapper_raise + ndarray :=
  match lookup_array var_name (at_link links) with
  | None => inl RaiseFieldError
  | Some values =>
      let vals_in_positive := values_at_links links values in
      match assign_out out (number_of_nodes grid)
              (mean_of_positive vals_in_positive) with
      | inl e => inl e
      | inr v => inr ((fun x => if is_nan x then 0 else x) <$> v)
      end
  end.

End NodeLinkMeans.

(** The same grid with every link turned round: heads and tails swapped and
    the directions at the nodes negated. *)
Definition reverse_links (links : GridLinks) : GridLinks :=
  {| number_of_links := number_of_links links;
     node_at_link_head := node_at_link_tail links;
     node_at_link_tail := node_at_link_head links;
     links_at_node := links_at_node links;
     link_dirs_at_node := map_rows Z.opp (link_dirs_at_node links);
     at_node := at_node links;
     at_link := at_link links |}.

(** An entry of a two-dimensional array given by its rows. *)
Definition at_row_col {A} (rows : list (list A)) (i j : nat) : option A :=
  match rows !! i with
  | Some row => row !! j
  | None => None
  end.

(** A well-formed link table: one row per node in both arrays, every row
    with the same number of slots. *)
Definition link_table_ok (grid : ModelGrid) (links : GridLinks) : Prop :=
  length (links_at_node links) = number_of_nodes grid /\
  length (link_dirs_at_node links) = number_of_nodes grid /\
  Forall (fun row => length row = shape_1 (links_at_node links))
    (links_at_node links) /\
  Forall (fun row => length row = shape_1 (links_at_node links))
    (link_dirs_at_node links).

(** The docstring of [upwind_links_at_node]: the width of the result is the
    largest number of flagged links at any node, and each row lists the
    flagged links of its node in slot order, then [bad_index] up to that
    width. *)
Definition lists_flagged_links (flags : list (list bool)) (ids : list (list Z))
    (bad_index : Z) (rows : list (list Z)) : Prop :=
  exists width,
    (forall i row ls,
       flags !! i = Some row -> ids !! i = Some ls ->
       exists pad,
         rows !! i = Some (mask_select row ls ++ replicate pad bad_index) /\
         (length (mask_select row ls) + pad = width)%nat) /\
    (exists i row ls,
       flags !! i = Some row /\ ids !! i = Some ls /\
       length (mask_select row ls) = width).

(** [RasterModelGrid((3, 4))] of the docstrings: 12 nodes and 17 links, the
    slots of a node running east, north, west, south. *)
Definition raster_3x4_links (node_fields link_fields : list (string * ndarray))
  : GridLinks :=
  {| number_of_links := 17;
     node_at_link_head := [1; 2; 3; 4; 5; 6; 7; 5; 6; 7; 8; 9; 10; 11; 9; 10; 11]%nat;
     node_at_link_tail := [0; 1; 2; 0; 1; 2; 3; 4; 5; 6; 4; 5; 6; 7; 8; 9; 10]%nat;
     links_at_node :=
       [[0; 3; -1; -1]; [1; 4; 0; -1]; [2; 5; 1; -1]; [-1; 6; 2; -1];
        [7; 10; -1; 3]; [8; 11; 7; 4]; [9; 12; 8; 5]; [-1; 13; 9; 6];
        [14; -1; -1; 10]; [15; -1; 14; 11]; [16; -1; 15; 12]; [-1; -1; 16; 13]]%Z;
     link_dirs_at_node :=
       [[-1; -1; 0; 0]; [-1; -1; 1; 0]; [-1; -1; 1; 0]; [0; -1; 1; 0];
        [-1; -1; 0; 1]; [-1; -1; 1; 1]; [-1; -1; 1; 1]; [0; -1; 1; 1];
        [-1; 0; 0; 1]; [-1; 0; 1; 1]; [-1; 0; 1; 1]; [0; 0; 1; 1]]%Z;
     at_node := node_fields;
     at_link := link_fields |}.

(** The node side of that grid; no flow has been routed on it and its node
    fields are all zero. *)
Definition raster_3x4_grid : ModelGrid :=
  {| number_of_nodes := 12;
     core_nodes := [5; 6]%nat;
     node_at_cell := [5; 6]%nat;
     area_of_cell := [1; 1];
     length_of_d8 := replicate 17 1 ++ replicate 12 1.4142135623730951;
     bool_fields := [];
     topographic__elevation := replicate 12 0;
     drainage_area := replicate 12 0;
     flow__receiver_node := seq 0 12;
     flow__upstream_node_order := seq 0 12;
     topographic__steepest_slope := replicate 12 0;
     flow__link_to_receiver_node := replicate 12 (-1)%Z;
     flow__sink_flag := replicate 12 true;
     channel_sediment__depth := replicate 12 0;
     channel__bed_shear_stress := replicate 12 0;
     channel_sediment__volumetric_transport_capacity := replicate 12 0;
     channel_sediment__volumetric_discharge := replicate 12 0;
     channel_sediment__relative_flux := replicate 12 0;
     channel__discharge := replicate 12 0 |}.

(** The fields of the docstring examples. *)
Definition docstring_z : ndarray := [0; 1; 2; 3; 7; 6; 5; 4; 8; 9; 10; 11].

Definition docstring_vals_to_map : ndarray :=
  [0; 10; 20; 30; 70; 60; 50; 40; 80; 90; 100; 110].

Definition docstring_grad : ndarray :=
  [-1; -2; -1; -2; -3; -4; -5; -1; -2; -1; -1; -2; -3; -4; -1; -2; -1].

Definition docstring_grad_rows : ndarray :=
  [-1; -2; -1; 0; 0; 0; 0; -1; -2; -1; 0; 0; 0; 0; -1; -2; -1].

Definition docstring_links : GridLinks :=
  raster_3x4_links
    [("z", docstring_z); ("vals_to_map", docstring_vals_to_map);
     ("arange", float_of_nat <$> seq 0 12)]%string
    [("grad", docstring_grad); ("grad_rows", docstring_grad_rows);
     ("vals", float_of_nat <$> seq 0 17)]%string.

(** What the docstrings of [link_at_node_is_upwind] and
    [link_at_node_is_downwind] show for the field [grad]. *)
Definition docstring_upwind_flags : list (list bool) :=
  [[false; false; false; false]; [false; false; true; false];
   [false; false; true; false]; [false; false; true; false];
   [false; false; false; true]; [false; false; true; true];
   [false; false; true; true]; [false; false; true; true];
   [false; false; false; true]; [false; false; true; true];
   [false; false; true; true]; [false; false; true; true]].

Definition docstring_downwind_flags : list (list bool) :=
  [[true; true; false; false]; [true; true; false; false];
   [true; true; false; false]; [false; true; false; false];
   [true; true; false; false]; [true; true; false; false];
   [true; true; false; false]; [false; true; false; false];
   [true; false; false; false]; [true; false; false; false];
   [true; false; false; false]; [false; false; false; false]].

(** The docstring's field with links 8 and 11, which leave node 5 eastwards
    and northwards, carrying flux back into it: node 5 then receives flux
    through all four of its links. *)
Definition converging_grad : ndarray :=
  [-1; -2; -1; -2; -3; -4; -5; -1; 2; -1; -1; 3; -3; -4; -1; -2; -1].

Definition converging_links : GridLinks :=
  raster_3x4_links [] [("grad", converging_grad)]%string.

(** [np.sum] of a row of fewer than eight entries, added from left to
    right. *)
Definition small_sum (a : ndarray) : float := foldl (fun acc x => acc + x) 0 a.

(** The docstring's field with links 4 and 7, which arrive at node 5 from the
    south and the west, carrying flux away from it: node 5 then sends flux
    out through all four of its links. *)
Definition diverging_grad : ndarray :=
  [-1; -2; -1; -2; 3; -4; -5; 1; -2; -1; -1; -2; -3; -4; -1; -2; -1].

Definition diverging_links : GridLinks :=
  raster_3x4_links [] [("grad", diverging_grad)]%string.

(** A link field that is infinite on every link. *)
Definition infinite_links : GridLinks :=
  raster_3x4_links [] [("grad", replicate 17 infinity)]%string.

(** ** Part II.  Properties *)

(** *** Arrays *)

Lemma scatter_length {A} (idx : list nat) (vals a : list A) :
  length (scatter idx vals a) = length a.
Proof.
  unfold scatter. generalize (zip idx vals) as ps. intros ps; revert a.
  induction ps as [|p ps IH]; intros a; simpl; [done|].
  by rewrite IH, length_insert.
Qed.

Lemma scatter_lookup_notin {A} (idx : list nat) (vals a : list A) (n : nat) :
  n ∉ idx -> scatter idx vals a !! n = a !! n.
Proof.
  unfold scatter. revert vals a.
  induction idx as [|i idx IH]; intros vals a Hn; [done|].
  destruct vals as [|v vals]; [done|]. simpl.
  apply not_elem_of_cons in Hn as [Hne Hn].
  rewrite IH by done. by apply list_lookup_insert_ne.
Qed.

Lemma update_at_length {A} (idx : list nat) (f : nat -> A) (a : list A) :
  length (update_at idx f a) = length a.
Proof. apply scatter_length. Qed.

Lemma update_at_lookup_notin {A} (idx : list nat) (f : nat -> A) (a : list A) n :
  n ∉ idx -> update_at idx f a !! n = a !! n.
Proof. apply scatter_lookup_notin. Qed.

Lemma update_at_foldl {A} (idx : list nat) (f : nat -> A) (a : list A) :
  update_at idx f a = foldl (fun acc i => <[i := f i]> acc) a idx.
Proof.
  unfold update_at, scatter. revert a.
  induction idx as [|i idx IH]; intros a; simpl; [done|]. apply IH.
Qed.

Lemma update_at_lookup_in {A} (idx : list nat) (f : nat -> A) (a : list A) n :
  n ∈ idx -> (n < length a)%nat -> update_at idx f a !! n = Some (f n).
Proof.
  rewrite update_at_foldl. revert a.
  induction idx as [|i idx IH]; intros a Hin Hlt; [by apply elem_of_nil in Hin|].
  simpl. destruct (decide (n ∈ idx)) as [Hin'|Hnot].
  - apply IH; [done|]. by rewrite length_insert.
  - apply elem_of_cons in Hin as [->|Hin]; [|done].
    rewrite <- update_at_foldl, update_at_lookup_notin by done.
    by apply list_lookup_insert_eq.
Qed.

Lemma getf_lookup (a : ndarray) n x : a !! n = Some x -> getf a n = x.
Proof. unfold getf. by intros ->. Qed.

Lemma mask_select_all_false {A} (mask : list bool) (a : list A) :
  Forall (fun b => b = false) mask -> mask_select mask a = [].
Proof.
  intros H. revert a. induction H as [|b mask Hb _ IH]; intros a.
  - by destruct a.
  - destruct a as [|x a]; [done|]. simpl. rewrite Hb. apply IH.
Qed.

Lemma list_as_map_seq (a : ndarray) :
  a = (fun i => getf a i) <$> seq 0 (length a).
Proof.
  apply list_eq. intros i. rewrite list_lookup_fmap.
  destruct (a !! i) as [x|] eqn:E.
  - rewrite (lookup_seq_lt _ _ i) by (by eapply lookup_lt_Some).
    simpl. by rewrite (getf_lookup _ _ _ E).
  - rewrite lookup_seq_ge; [done|]. by apply lookup_ge_None.
Qed.

Lemma zip_with_as_map_seq (f : float -> float -> float) (a b : ndarray) n :
  length a = n -> length b = n ->
  zip_with f a b = (fun i => f (getf a i) (getf b i)) <$> seq 0 n.
Proof.
  intros Ha Hb. apply list_eq. intros i.
  rewrite lookup_zip_with, list_lookup_fmap.
  destruct (decide (i < n)%nat) as [Hlt|Hge].
  - rewrite lookup_seq_lt by done. simpl.
    destruct (lookup_lt_is_Some_2 a i) as [x Hx]; [lia|].
    destruct (lookup_lt_is_Some_2 b i) as [y Hy]; [lia|].
    rewrite Hx, Hy. simpl. by rewrite (getf_lookup _ _ _ Hx), (getf_lookup _ _ _ Hy).
  - rewrite lookup_seq_ge by lia.
    rewrite (lookup_ge_None_2 a) by lia. done.
Qed.

(** *** Floating point facts, from the IEEE specification of the operations *)

Lemma is_nan_eq (x : float) : is_nan x = true -> x = nan.
Proof.
  unfold is_nan. rewrite FloatAxioms.eqb_spec. intros H.
  apply Prim2SF_inj. change (Prim2SF nan) with S754_nan.
  destruct (Prim2SF x) as [s|s| |s m e]; try reflexivity; simpl in H.
  - discriminate.
  - destruct s; discriminate.
  - unfold SFeqb, SFcompare in H. rewrite Z.compare_refl in H.
    rewrite Pos.compare_cont_refl in H. destruct s; discriminate.
Qed.

Lemma nan_div (y : float) : nan / y = nan.
Proof. apply Prim2SF_inj. rewrite FloatAxioms.div_spec. reflexivity. Qed.

Lemma np_fmin_nan_r (x : float) : np_fmin x nan = x.
Proof. reflexivity. Qed.

Lemma add_negzero (x : float) : x + (- 0) = x.
Proof.
  apply Prim2SF_inj. rewrite FloatAxioms.add_spec.
  change (Prim2SF (- 0)) with (S754_zero true). unfold SF64add, SFadd.
  destruct (Prim2SF x) as [s|s| |s m e]; try reflexivity.
  destruct s; reflexivity.
Qed.

Lemma negzero_mul (t : float) :
  (0 <? t) = true -> (t <? infinity) = true -> (- 0) * t = - 0.
Proof.
  rewrite !FloatAxioms.ltb_spec. intros H1 H2.
  apply Prim2SF_inj. rewrite FloatAxioms.mul_spec.
  change (Prim2SF (- 0)) with (S754_zero true).
  change (Prim2SF 0) with (S754_zero false) in H1.
  change (Prim2SF infinity) with (S754_infinity false) in H2.
  unfold SF64mul, SFmul.
  destruct (Prim2SF t) as [s|s| |s m e]; simpl in *; try discriminate.
  - destruct s; discriminate.
  - destruct s; [discriminate|reflexivity].
Qed.

Lemma finite_mul_zero (x : float) :
  (abs x <? infinity) = true -> (x * 0 =? 0) = true.
Proof.
  rewrite FloatAxioms.ltb_spec, FloatAxioms.abs_spec, FloatAxioms.eqb_spec,
    FloatAxioms.mul_spec.
  change (Prim2SF infinity) with (S754_infinity false).
  change (Prim2SF 0) with (S754_zero false).
  unfold SF64mul, SFmul.
  destruct (Prim2SF x) as [s|s| |s m e]; simpl; try discriminate; reflexivity.
Qed.

(** *** What [erode] writes, whatever the kernel computes *)

Section ErodeProperties.

Variable fpow : float -> float -> float.
Variable BAD_INDEX_VALUE : Z.
Variable router : router_type.


Lemma substep_node_z_noncore self grid env s n :
  n ∉ core_nodes grid ->
  ls_node_z (substep fpow router self grid env s).1 !! n = ls_node_z s !! n.
Proof.
  intros Hn. unfold substep.
  destruct (choose_tstep _ _ _ _) as [[[this_tstep t_el] brk] t_attr]. simpl.
  unfold reassemble_node_z. by apply update_at_lookup_notin.
Qed.

Lemma erode_loop_node_z_noncore fuel self grid env s n :
  n ∉ core_nodes grid ->
  ls_node_z (erode_loop fpow router fuel self grid env s).1 !! n = ls_node_z s !! n.
Proof.
  intros Hn. revert s. induction fuel as [|fuel IH]; intros s; [done|].
  simpl. pose proof (substep_node_z_noncore self grid env s n Hn) as Hs.
  destruct (substep fpow router self grid env s) as [s' brk]. simpl in Hs.
  destruct brk; simpl; [done|]. by rewrite IH.
Qed.

Lemma substep_sediment_cellless self grid env s n :
  n ∉ node_at_cell grid ->
  ls_hillslope_sediment (substep fpow router self grid env s).1 !! n
  = ls_hillslope_sediment s !! n.
Proof.
  intros Hn. unfold substep.
  destruct (choose_tstep _ _ _ _) as [[[this_tstep t_el] brk] t_attr]. simpl.
  unfold rebuild_hillslope_sediment. by apply scatter_lookup_notin.
Qed.

Lemma erode_loop_sediment_cellless fuel self grid env s n :
  n ∉ node_at_cell grid ->
  ls_hillslope_sediment (erode_loop fpow router fuel self grid env s).1 !! n
  = ls_hillslope_sediment s !! n.
Proof.
  intros Hn. revert s. induction fuel as [|fuel IH]; intros s; [done|].
  simpl. pose proof (substep_sediment_cellless self grid env s n Hn) as Hs.
  destruct (substep fpow router self grid env s) as [s' brk]. simpl in Hs.
  destruct brk; simpl; [done|]. by rewrite IH.
Qed.

(** C9.  [erode] never assigns [channel__bed_shear_stress]: after any call,
    however it ends, the field is the array it was before.  The node fields
    [erode] writes are the transport capacity, the volumetric discharge,
    the relative flux, the elevation and the sediment depth; every other
    node field, and the geometry, is left as it was. *)
Theorem erode_never_writes_bed_shear_stress fuel self grid dt flooded_nodes :
  let grid' := (erode fpow BAD_INDEX_VALUE router fuel self grid dt flooded_nodes).1.2 in
  channel__bed_shear_stress grid' = channel__bed_shear_stress grid /\
  channel__discharge grid' = channel__discharge grid /\
  drainage_area grid' = drainage_area grid /\
  flow__receiver_node grid' = flow__receiver_node grid /\
  flow__upstream_node_order grid' = flow__upstream_node_order grid /\
  topographic__steepest_slope grid' = topographic__steepest_slope grid /\
  flow__link_to_receiver_node grid' = flow__link_to_receiver_node grid /\
  flow__sink_flag grid' = flow__sink_flag grid /\
  bool_fields grid' = bool_fields grid.
Proof.
  unfold erode. case_decide; [by repeat split|].
  destruct (resolve_flooded grid flooded_nodes) as [e|ix]; [by repeat split|].
  destruct (String.eqb (Qc self) "power_law"); [|by repeat split].
  destruct (erode_loop fpow router _ _ _ _ _) as [s finished].
  by destruct finished; repeat split.
Qed.

(** C10.  Every call zero-fills [channel_sediment__depth] before the first
    sub-step and rebuilds it only at the nodes of [node_at_cell]: at a node
    without a cell the depth is 0 when the call returns, whatever it was
    before. *)
Theorem erode_zeroes_sediment_at_cellless_nodes
    fuel self grid dt flooded_nodes self' grid' n :
  erode fpow BAD_INDEX_VALUE router fuel self grid dt flooded_nodes = (self', grid', Returned) ->
  n ∉ node_at_cell grid ->
  (n < length (channel_sediment__depth grid))%nat ->
  Forall (fun x => x = 0) (ls_hillslope_sediment (initial_state self grid)) /\
  channel_sediment__depth grid' !! n = Some 0.
Proof.
  intros Herode Hn Hlt. split.
  { simpl. unfold np_fill. apply Forall_replicate. reflexivity. }
  unfold erode in Herode. case_decide; [discriminate|].
  destruct (resolve_flooded grid flooded_nodes) as [e|ix]; [discriminate|].
  destruct (String.eqb (Qc self) "power_law"); [|discriminate].
  pose proof (erode_loop_sediment_cellless fuel self grid
                (make_env fpow BAD_INDEX_VALUE self grid (dt * SECONDS_PER_YEAR) ix)
                (initial_state self grid) n Hn) as Hloop.
  destruct (erode_loop fpow router _ _ _ _ _) as [s finished]. simpl in Hloop.
  destruct finished; [|discriminate].
  injection Herode as _ <-. simpl. rewrite Hloop.
  unfold np_fill. by apply lookup_replicate_2.
Qed.

(** C5, as amended.  A call with [dt = 0], like a call with any other
    [dt], leaves [topographic__elevation] bit-identical at every node that
    is not a core node, however the call ends.  (The sediment depth array
    and the core elevations are rewritten, see the counterexample.) *)
Theorem erode_keeps_elevation_off_core fuel self grid dt flooded_nodes n :
  n ∉ core_nodes grid ->
  topographic__elevation (erode fpow BAD_INDEX_VALUE router fuel self grid dt flooded_nodes).1.2 !! n
  = topographic__elevation grid !! n.
Proof.
  intros Hn. unfold erode. case_decide; [done|].
  destruct (resolve_flooded grid flooded_nodes) as [e|ix]; [done|].
  destruct (String.eqb (Qc self) "power_law"); [|done].
  pose proof (erode_loop_node_z_noncore fuel self grid
                (make_env fpow BAD_INDEX_VALUE self grid (dt * SECONDS_PER_YEAR) ix)
                (initial_state self grid) n Hn) as Hloop.
  destruct (erode_loop fpow router _ _ _ _ _) as [s finished]. simpl in Hloop.
  by destruct finished.
Qed.


(** C4, as amended.  When no node and receiver pair has both a positive
    rate difference and a positive elevation difference, the convergence
    criterion yields [conv_factor] (0.3) times the whole outer timestep
    [dt_secs], whatever time has already elapsed; this is the value that
    is then compared with the wave bound. *)
Theorem convergence_default_is_scaled_timestep dz node_z flow_receiver dt_secs :
  Forall (fun b => b = false)
    (compute_botharepositive (compute_ratediff dz flow_receiver)
       (compute_downstr_vert_diff node_z flow_receiver)) ->
  convergence_tstep dz node_z flow_receiver dt_secs = dt_secs * conv_factor.
Proof.
  intros Hnone. unfold convergence_tstep.
  by rewrite !mask_select_all_false.
Qed.

Lemma foldl_fmin_skip_nan (P : nat -> Prop) `{!forall i, Decision (P i)}
    (q q' : nat -> float) (l : list nat) (acc : float) :
  (forall i, i ∈ l -> P i -> q i = q' i) ->
  (forall i, i ∈ l -> ~ P i -> q i = nan) ->
  foldl np_fmin acc (q <$> l) = foldl np_fmin acc (q' <$> filter P l).
Proof.
  revert acc. induction l as [|i l IH]; intros acc Hin Hout; [done|].
  rewrite filter_cons. simpl. case_decide as HP.
  - simpl. rewrite (Hin i) by (done || apply list_elem_of_here).
    apply IH; intros j Hj; [apply Hin|apply Hout]; by apply list_elem_of_further.
  - rewrite (Hout i) by (done || apply list_elem_of_here).
    rewrite np_fmin_nan_r.
    apply IH; intros j Hj; [apply Hin|apply Hout]; by apply list_elem_of_further.
Qed.

Lemma core_draining_nodes_spec grid :
  length (flow__link_to_receiver_node grid) = number_of_nodes grid ->
  core_draining_nodes BAD_INDEX_VALUE grid = core_draining_set BAD_INDEX_VALUE grid.
Proof.
  intros Hlen. unfold core_draining_nodes, np_intersect1d, np_where, core_draining_set.
  rewrite list_filter_filter. unfold draining_nodes.
  rewrite length_fmap, Hlen. apply list_filter_iff. intros n.
  rewrite list_lookup_fmap. unfold drains.
  destruct (flow__link_to_receiver_node grid !! n) as [l|]; simpl;
    [|split; intros [_ ?]; done].
  split; intros [Hc Hd]; (split; [done|]); [congruence|by rewrite Hd].
Qed.

Lemma getf_fmap (f : float -> float) (a : ndarray) i :
  (i < length a)%nat -> getf (f <$> a) i = f (getf a i).
Proof.
  intros Hlt. unfold getf. rewrite list_lookup_fmap.
  destruct (lookup_lt_is_Some_2 a i Hlt) as [x ->]. done.
Qed.

Lemma getf_zip_with (f : float -> float -> float) (a b : ndarray) i :
  (i < length a)%nat -> (i < length b)%nat ->
  getf (zip_with f a b) i = f (getf a i) (getf b i).
Proof.
  intros Ha Hb. unfold getf. rewrite lookup_zip_with.
  destruct (lookup_lt_is_Some_2 a i Ha) as [x ->].
  destruct (lookup_lt_is_Some_2 b i Hb) as [y ->]. done.
Qed.

Lemma wave_denominator_lookup self grid i :
  length (drainage_area grid) = number_of_nodes grid ->
  length (topographic__steepest_slope grid) = number_of_nodes grid ->
  (i < number_of_nodes grid)%nat ->
  getf (compute_wave_stab_cond_denominator fpow self grid) i
  = wave_denominator_at fpow np_spacing_0 self grid i.
Proof.
  intros HA HS Hi.
  unfold compute_wave_stab_cond_denominator, wave_denominator_at,
    compute_erosion_prefactor_withA, initial_downward_slopes, pow_array, np_clip_min.
  destruct (np_isclose (_n self) 1).
  - rewrite !getf_fmap; rewrite ?length_fmap; (done || lia).
  - rewrite getf_zip_with; rewrite ?length_fmap; try lia.
    rewrite !getf_fmap; rewrite ?length_fmap; (done || lia).
Qed.

Lemma wave_denominator_length self grid :
  length (drainage_area grid) = number_of_nodes grid ->
  length (topographic__steepest_slope grid) = number_of_nodes grid ->
  length (compute_wave_stab_cond_denominator fpow self grid) = number_of_nodes grid.
Proof.
  intros HA HS.
  unfold compute_wave_stab_cond_denominator, compute_erosion_prefactor_withA,
    initial_downward_slopes, pow_array, np_clip_min.
  destruct (np_isclose (_n self) 1).
  - by rewrite !length_fmap.
  - rewrite length_zip_with, !length_fmap. lia.
Qed.

(** C3, as amended.  With the power-law transport law the wave stability
    bound is 0.2 times the minimum, over the core nodes that have a
    downslope link, of the link length divided by [K*A^m_sp] when [n_sp]
    is close to 1 and by [K*A^m_sp*S^(n_sp-1)] otherwise, where the slope
    is floored to [np.spacing(0.)], the smallest positive double (not to
    the machine epsilon).  All other nodes carry a NaN link length and
    drop out of the minimum, as does any NaN quotient. *)
Theorem max_tstep_wave_is_min_over_core_draining self grid :
  length (drainage_area grid) = number_of_nodes grid ->
  length (topographic__steepest_slope grid) = number_of_nodes grid ->
  length (flow__link_to_receiver_node grid) = number_of_nodes grid ->
  compute_max_tstep_wave fpow BAD_INDEX_VALUE self grid
  = wave_bound_over_core_draining fpow BAD_INDEX_VALUE np_spacing_0 self grid.
Proof.
  intros HA HS HL.
  unfold compute_max_tstep_wave, wave_bound_over_core_draining,
    WAVE_STABILITY_PREFACTOR, np_nanmin.
  f_equal.
  rewrite (zip_with_as_map_seq _ _ _ (number_of_nodes grid));
    [| unfold compute_link_length; by rewrite update_at_length, length_replicate
     | by apply wave_denominator_length ].
  unfold core_draining_set.
  apply (foldl_fmin_skip_nan
           (fun n => n ∈ core_nodes grid /\ drains BAD_INDEX_VALUE grid n = true)).
  - intros i Hi HP. apply elem_of_seq in Hi as [_ Hi]. simpl in Hi.
    rewrite wave_denominator_lookup by done. f_equal.
    unfold compute_link_length. apply getf_lookup.
    rewrite update_at_lookup_in; [done| |by rewrite length_replicate].
    rewrite core_draining_nodes_spec by done. unfold core_draining_set.
    apply list_elem_of_filter. split; [done|]. apply elem_of_seq. lia.
  - intros i Hi HP. apply elem_of_seq in Hi as [_ Hi]. simpl in Hi.
    replace (getf (compute_link_length BAD_INDEX_VALUE grid) i) with nan;
      [apply nan_div|].
    symmetry. unfold compute_link_length. apply getf_lookup.
    rewrite update_at_lookup_notin; [by apply lookup_replicate_2|].
    rewrite core_draining_nodes_spec by done. unfold core_draining_set.
    rewrite list_elem_of_filter. tauto.
Qed.

End ErodeProperties.

(** *** The properties on the example grid *)

(** Two floats that differ on a numerical test are different. *)
Lemma float_neq_by_test (test : float -> bool) (x y : float) :
  test x <> test y -> x <> y.
Proof. intros Hne ->. by apply Hne. Qed.

Lemma list_neq_by_test {A} (test : list A -> bool) (x y : list A) :
  test x <> test y -> x <> y.
Proof. intros Hne ->. by apply Hne. Qed.

(** C3: on the flat-topped grid with [n_sp = 0] the code's bound is 0 (the
    slope floor is 2^-1074, whose reciprocal overflows), while flooring the
    slope to the machine epsilon would give a positive bound. *)
Lemma max_tstep_wave_not_floored_to_epsilon :
  compute_max_tstep_wave pow_small bad_index n0_component flat_top_grid = 0 /\
  compute_max_tstep_wave pow_small bad_index n0_component flat_top_grid
  <> wave_bound_over_core_draining pow_small bad_index machine_epsilon
       n0_component flat_top_grid.
Proof.
  split; [by vm_compute|].
  apply (float_neq_by_test (fun x => 0 <? x)). by vm_compute.
Qed.

Lemma max_tstep_wave_is_min_over_core_draining_witness :
  compute_max_tstep_wave pow_small bad_index n0_component flat_top_grid
  = wave_bound_over_core_draining pow_small bad_index np_spacing_0
      n0_component flat_top_grid.
Proof.
  apply (max_tstep_wave_is_min_over_core_draining pow_small bad_index
           n0_component flat_top_grid); reflexivity.
Defined.

(** C4: with every rate zero no pair converges, and the criterion yields
    0.3 times the outer timestep (here 100 years), not the remaining time. *)
Lemma convergence_default_is_not_remaining_time :
  convergence_tstep (np_zeros 12) tilted_z (flow__receiver_node tilted_grid)
    3155760000 = 946728000 /\
  convergence_tstep (np_zeros 12) tilted_z (flow__receiver_node tilted_grid)
    3155760000 <> remaining_time 3155760000 0.
Proof.
  split; [by vm_compute|].
  apply (float_neq_by_test (fun x => x <? 1000000000)). by vm_compute.
Qed.

Lemma convergence_default_is_scaled_timestep_witness :
  convergence_tstep (np_zeros 12) tilted_z (flow__receiver_node tilted_grid)
    3155760000 = 3155760000 * conv_factor.
Proof.
  apply (convergence_default_is_scaled_timestep (np_zeros 12) tilted_z
           (flow__receiver_node tilted_grid) 3155760000).
  vm_compute. repeat constructor.
Defined.

(** C5: [erode(0)] on the docstring grid returns after one sub-step with NaN
    elevation and NaN sediment depth at the core nodes, and with the
    sediment depth of the boundary nodes reset from 0.0007 to 0. *)
Lemma erode_dt_zero_rewrites_arrays :
  let result := example_erode 5 unit_component tilted_grid 0 FloodedNone in
  result.2 = Returned /\
  topographic__elevation result.1.2 <> topographic__elevation tilted_grid /\
  channel_sediment__depth result.1.2 <> channel_sediment__depth tilted_grid /\
  is_nan (getf (topographic__elevation result.1.2) 4) = true /\
  getf (channel_sediment__depth result.1.2) 10 = 0.
Proof.
  split; [by vm_compute|]. split.
  { apply (list_neq_by_test (fun z => is_nan (getf z 4))). by vm_compute. }
  split.
  { apply (list_neq_by_test (fun h => getf h 10 =? 0)). by vm_compute. }
  split; by vm_compute.
Qed.

Lemma erode_keeps_elevation_off_core_witness :
  topographic__elevation
    (example_erode 5 unit_component tilted_grid 0 FloodedNone).1.2 !! 10%nat
  = topographic__elevation tilted_grid !! 10%nat.
Proof.
  apply (erode_keeps_elevation_off_core pow_small bad_index example_router
           5 unit_component tilted_grid 0 FloodedNone 10).
  vm_compute. intros H. repeat (apply elem_of_cons in H as [H|H]; [lia|]).
  by apply elem_of_nil in H.
Defined.

(** *** A call that never leaves [while 1] *)

Lemma erode_outcome fpow BAD_INDEX_VALUE router fuel self grid dt flooded_nodes ix :
  length (flow__receiver_node grid) = number_of_nodes grid ->
  resolve_flooded grid flooded_nodes = inr ix ->
  Qc self = "power_law"%string ->
  (erode fpow BAD_INDEX_VALUE router fuel self grid dt flooded_nodes).2
  = if (erode_loop fpow router fuel self grid
          (make_env fpow BAD_INDEX_VALUE self grid (dt * SECONDS_PER_YEAR) ix)
          (initial_state self grid)).2
    then Returned else StillLooping.
Proof.
  intros Hlen Hix HQc. unfold erode.
  rewrite decide_False by (intros Hne; by apply Hne).
  rewrite Hix, HQc. simpl.
  destruct (erode_loop _ _ _ _ _ _ _) as [s finished]. by destruct finished.
Qed.

Lemma binary_round_aux_nonneg prec emax mx ex lx :
  sf_nonneg (binary_round_aux prec emax false mx ex lx) = true.
Proof.
  unfold binary_round_aux.
  destruct (shr_fexp prec emax mx ex lx) as [mrs' e'].
  destruct (shr_fexp prec emax _ e' loc_Exact) as [mrs'' e''].
  destruct (shr_m mrs''); [done| |done].
  by destruct (Z.leb _ _).
Qed.

Lemma nonneg_mul x y :
  nonneg_or_nan x = true -> nonneg_or_nan y = true -> nonneg_or_nan (x * y) = true.
Proof.
  unfold nonneg_or_nan. rewrite FloatAxioms.mul_spec. unfold SF64mul, SFmul.
  destruct (Prim2SF x) as [[]|[]| |[] mx ex], (Prim2SF y) as [[]|[]| |[] my ey];
    simpl; try done; intros _ _; apply binary_round_aux_nonneg.
Qed.

Lemma nonneg_div x y :
  nonneg_or_nan x = true -> nonneg_or_nan y = true -> nonneg_or_nan (x / y) = true.
Proof.
  unfold nonneg_or_nan. rewrite FloatAxioms.div_spec. unfold SF64div, SFdiv.
  destruct (Prim2SF x) as [[]|[]| |[] mx ex], (Prim2SF y) as [[]|[]| |[] my ey];
    simpl; try done; intros _ _.
  destruct (SFdiv_core_binary _ _ _ _ _ _) as [[mz ez] lz].
  apply binary_round_aux_nonneg.
Qed.

Lemma pos_nonneg x : (0 <? x) = true -> nonneg_or_nan x = true.
Proof.
  unfold nonneg_or_nan. rewrite FloatAxioms.ltb_spec.
  change (Prim2SF 0) with (S754_zero false).
  by destruct (Prim2SF x) as [[]|[]| |[] mx ex].
Qed.

Lemma nonneg_not_pos x :
  nonneg_or_nan x = true -> (0 <? x) = false -> x = 0 \/ x = nan.
Proof.
  unfold nonneg_or_nan. rewrite FloatAxioms.ltb_spec.
  change (Prim2SF 0) with (S754_zero false).
  destruct (Prim2SF x) as [[]|[]| |[] mx ex] eqn:E; try done; intros _ _.
  - left. by apply Prim2SF_inj.
  - right. by apply Prim2SF_inj.
Qed.

Lemma pos_comparisons dt :
  (0 <? dt) = true ->
  (dt <? 0) = false /\ (dt <=? 0) = false /\
  (dt <? nan) = false /\ (dt <=? nan) = false.
Proof.
  rewrite !FloatAxioms.ltb_spec, !FloatAxioms.leb_spec.
  change (Prim2SF 0) with (S754_zero false). change (Prim2SF nan) with S754_nan.
  by destruct (Prim2SF dt) as [[]|[]| |[] mx ex].
Qed.

Lemma mask_select_elem {A} (mask : list bool) (a : list A) (x : A) :
  x ∈ mask_select mask a ->
  exists i, mask !! i = Some true /\ a !! i = Some x.
Proof.
  revert a. induction mask as [|b mask IH]; intros a Hx.
  { by apply elem_of_nil in Hx. }
  destruct a as [|y a]; [by apply elem_of_nil in Hx|]. simpl in Hx.
  destruct b.
  - apply elem_of_cons in Hx as [->|Hx]; [by exists 0%nat|].
    destruct (IH a Hx) as (i & Hm & Ha). by exists (S i).
  - destruct (IH a Hx) as (i & Hm & Ha). by exists (S i).
Qed.

Lemma zip_with_div_nonneg (a b : ndarray) :
  Forall (fun x => nonneg_or_nan x = true) a ->
  Forall (fun x => nonneg_or_nan x = true) b ->
  Forall (fun x => nonneg_or_nan x = true) (zip_with (fun x y => x / y) a b).
Proof.
  intros Ha. revert b. induction Ha as [|x a Hx Ha IH]; intros b Hb; [done|].
  destruct Hb as [|y b Hy Hb]; [done|]. simpl.
  constructor; [by apply nonneg_div|by apply IH].
Qed.

Lemma np_minimum_nonneg x y :
  nonneg_or_nan x = true -> nonneg_or_nan y = true ->
  nonneg_or_nan (np_minimum x y) = true.
Proof.
  intros Hx Hy. unfold np_minimum.
  destruct (is_nan x); [done|]. destruct (is_nan y); [done|]. by destruct (y <? x).
Qed.

Lemma np_amin_nonneg (a : ndarray) q :
  Forall (fun x => nonneg_or_nan x = true) a ->
  np_amin a = Some q -> nonneg_or_nan q = true.
Proof.
  destruct a as [|x a]; [done|]. intros Ha [= <-].
  apply Forall_cons in Ha as [Hx Ha]. revert x Hx.
  induction Ha as [|y a Hy Ha IH]; intros x Hx; [done|].
  simpl. apply IH. by apply np_minimum_nonneg.
Qed.

Lemma positive_selection_nonneg (ratediff downstr_vert_diff : ndarray) :
  let mask := compute_botharepositive ratediff downstr_vert_diff in
  Forall (fun x => nonneg_or_nan x = true) (mask_select mask downstr_vert_diff) /\
  Forall (fun x => nonneg_or_nan x = true) (mask_select mask ratediff).
Proof.
  intros mask. split; apply Forall_forall; intros x Hx;
    apply mask_select_elem in Hx as (i & Hm & Hx); apply pos_nonneg;
    unfold mask, compute_botharepositive in Hm;
    apply lookup_zip_with_Some in Hm as (p & q & Hpq & Hp & Hq);
    rewrite list_lookup_fmap in Hp, Hq; rewrite Hx in *; simpl in *;
    symmetry in Hpq; apply andb_true_iff in Hpq as [? ?]; congruence.
Qed.

(** The convergence criterion never yields a negative time. *)
Lemma convergence_tstep_nonneg dz node_z flow_receiver dt_secs :
  (0 <? dt_secs) = true ->
  nonneg_or_nan (convergence_tstep dz node_z flow_receiver dt_secs) = true.
Proof.
  intros Hdt. unfold convergence_tstep.
  apply nonneg_mul; [|reflexivity].
  destruct (positive_selection_nonneg (compute_ratediff dz flow_receiver)
              (compute_downstr_vert_diff node_z flow_receiver)) as [Hd Hr].
  destruct (np_amin _) as [q|] eqn:E; [|by apply pos_nonneg].
  eapply np_amin_nonneg; [|exact E]. by apply zip_with_div_nonneg.
Qed.

(** With a zero wave bound the sub-step has length zero (or is NaN), the
    elapsed time does not advance and [break_flag] stays false. *)
Lemma choose_tstep_stalls t_conv dt_secs t_elapsed :
  nonneg_or_nan t_conv = true ->
  (0 <? dt_secs) = true ->
  t_elapsed = 0 \/ t_elapsed = nan ->
  exists this_tstep t_elapsed',
    choose_tstep t_conv 0 dt_secs t_elapsed = (this_tstep, t_elapsed', false, None) /\
    (t_elapsed' = 0 \/ t_elapsed' = nan).
Proof.
  intros Hconv Hdt Hel.
  destruct (pos_comparisons dt_secs Hdt) as (Hlt0 & Hle0 & Hltn & Hlen).
  unfold choose_tstep, pymin. rewrite andb_false_r.
  destruct (0 <? t_conv) eqn:Hpos.
  - rewrite Hlt0. destruct Hel as [-> | ->].
    + change (0 + 0) with 0. rewrite Hle0. eauto.
    + change (nan + 0) with nan. rewrite Hlen. eauto.
  - destruct (nonneg_not_pos t_conv Hconv Hpos) as [-> | ->].
    + rewrite Hlt0. destruct Hel as [-> | ->].
      * change (0 + 0) with 0. rewrite Hle0. eauto.
      * change (nan + 0) with nan. rewrite Hlen. eauto.
    + rewrite Hltn. destruct Hel as [-> | ->].
      * change (0 + nan) with nan. rewrite Hlen. eauto.
      * change (nan + nan) with nan. rewrite Hlen. eauto.
Qed.

Lemma substep_stalls fpow router self grid env s :
  env_max_tstep_wave env = 0 ->
  (0 <? env_dt_secs env) = true ->
  ls_t_elapsed_internal s = 0 \/ ls_t_elapsed_internal s = nan ->
  (substep fpow router self grid env s).2 = false /\
  (ls_t_elapsed_internal (substep fpow router self grid env s).1 = 0 \/
   ls_t_elapsed_internal (substep fpow router self grid env s).1 = nan).
Proof.
  intros Hwave Hdt Hel. unfold substep. rewrite Hwave.
  destruct (choose_tstep_stalls
              (convergence_tstep (dzbydt (call_router fpow router self grid env s))
                 (ls_node_z s) (flow__receiver_node grid) (env_dt_secs env))
              (env_dt_secs env) (ls_t_elapsed_internal s))
    as (this_tstep & t_el & -> & Hel'); try done.
  by apply convergence_tstep_nonneg.
Qed.

Lemma erode_loop_stalls fpow router self grid env fuel :
  env_max_tstep_wave env = 0 ->
  (0 <? env_dt_secs env) = true ->
  forall s,
    ls_t_elapsed_internal s = 0 \/ ls_t_elapsed_internal s = nan ->
    (erode_loop fpow router fuel self grid env s).2 = false.
Proof.
  intros Hwave Hdt. induction fuel as [|fuel IH]; intros s Hel; [done|].
  simpl. destruct (substep_stalls fpow router self grid env s Hwave Hdt Hel)
    as [Hbrk Hel'].
  destruct (substep fpow router self grid env s) as [s' brk]. simpl in *.
  subst brk. by apply IH.
Qed.

(** C6.  Whenever the wave stability bound is 0 and [dt] is positive, every
    sub-step has length 0 (or is NaN), the elapsed time never advances and
    [while 1] never reaches its [break], whatever the kernel computes and
    however many sub-steps are run: the call does not return. *)
Theorem erode_never_returns_on_zero_wave_bound
    fpow BAD_INDEX_VALUE router fuel self grid dt flooded_nodes ix :
  length (flow__receiver_node grid) = number_of_nodes grid ->
  resolve_flooded grid flooded_nodes = inr ix ->
  Qc self = "power_law"%string ->
  compute_max_tstep_wave fpow BAD_INDEX_VALUE self grid = 0 ->
  (0 <? dt * SECONDS_PER_YEAR) = true ->
  (erode fpow BAD_INDEX_VALUE router fuel self grid dt flooded_nodes).2
  = StillLooping.
Proof.
  intros Hlen Hix HQc Hwave Hdt.
  rewrite (erode_outcome _ _ _ _ _ _ _ _ ix) by done.
  rewrite erode_loop_stalls; try done. by left.
Qed.

(** One hundred years on the flat-topped grid with [n_sp = 0]: the slope
    floor 2^-1074 has an infinite reciprocal, the wave bound is 0, and 1000
    sub-steps (or any other number) leave the call inside its loop. *)
Lemma erode_never_returns_on_zero_wave_bound_witness :
  compute_max_tstep_wave pow_small bad_index n0_component flat_top_grid = 0 /\
  (example_erode 1000 n0_component flat_top_grid 100 FloodedNone).2 = StillLooping.
Proof.
  split; [vm_compute; reflexivity|].
  apply (erode_never_returns_on_zero_wave_bound pow_small bad_index example_router
           1000 n0_component flat_top_grid 100 FloodedNone (BoolIndex []));
    [reflexivity|reflexivity|reflexivity|vm_compute; reflexivity
    |vm_compute; reflexivity].
Defined.

(** *** Witnesses on the docstring grid *)

Lemma node_10_has_no_cell : 10%nat ∉ node_at_cell tilted_grid.
Proof.
  vm_compute. intros H. repeat (apply elem_of_cons in H as [H|H]; [lia|]).
  by apply elem_of_nil in H.
Qed.

Lemma erode_zeroes_sediment_at_cellless_nodes_witness :
  let result := example_erode 5 unit_component tilted_grid 8 FloodedNone in
  channel_sediment__depth tilted_grid !! 10%nat = Some 0.0007 /\
  channel_sediment__depth result.1.2 !! 10%nat = Some 0.
Proof.
  split; [reflexivity|].
  refine (proj2 (erode_zeroes_sediment_at_cellless_nodes pow_small bad_index
                   example_router 5 unit_component tilted_grid 8 FloodedNone
                   (example_erode 5 unit_component tilted_grid 8 FloodedNone).1.1
                   (example_erode 5 unit_component tilted_grid 8 FloodedNone).1.2
                   10 _ node_10_has_no_cell _)).
  - vm_compute. reflexivity.
  - vm_compute. lia.
Defined.


(** *** Flooded nodes *)

Lemma finite_number_in_range (a : ndarray) n :
  finite_number (getf a n) = true -> (n < length a)%nat.
Proof.
  intros Hfin. destruct (decide (n < length a)%nat) as [|Hge]; [done|].
  unfold getf in Hfin. rewrite lookup_ge_None_2 in Hfin by lia. discriminate.
Qed.

Lemma index_fill_length ix v (a : ndarray) :
  length (index_fill ix v a) = length a.
Proof.
  destruct ix as [mask|ids]; simpl.
  - unfold mask_fill. apply length_imap.
  - apply update_at_length.
Qed.

Lemma index_fill_flooded ix v (a : ndarray) n :
  is_flooded_at ix n = true -> (n < length a)%nat ->
  getf (index_fill ix v a) n = v.
Proof.
  intros Hfl Hlt. apply getf_lookup. destruct ix as [mask|ids]; simpl in *.
  - unfold mask_fill. rewrite list_lookup_imap, Hfl.
    destruct (lookup_lt_is_Some_2 a n Hlt) as [x ->]. done.
  - apply bool_decide_eq_true in Hfl. by apply update_at_lookup_in.
Qed.

Lemma zip_with_lookup_mul (a b : ndarray) n :
  (n < length a)%nat -> (n < length b)%nat ->
  getf (zip_with (fun x y => x * y) a b) n = getf a n * getf b n.
Proof.
  intros Ha Hb. unfold getf. rewrite lookup_zip_with.
  destruct (lookup_lt_is_Some_2 a n Ha) as [x ->].
  destruct (lookup_lt_is_Some_2 b n Hb) as [y ->]. done.
Qed.

Lemma transport_capacity_flooded fpow self env downward_slopes n :
  is_flooded_at (env_is_flooded env) n = true ->
  (n < length downward_slopes)%nat ->
  finite_number (getf (env_transport_capacity_prefactor_withA env) n) = true ->
  (getf (compute_transport_capacities fpow self env downward_slopes) n =? 0) = true.
Proof.
  intros Hfl Hlt Hfin. unfold compute_transport_capacities.
  rewrite zip_with_lookup_mul.
  - rewrite index_fill_flooded; [by apply finite_mul_zero|done|].
    unfold pow_array. by rewrite length_fmap.
  - by apply finite_number_in_range.
  - rewrite index_fill_length. unfold pow_array. by rewrite length_fmap.
Qed.


(** The slope array keeps its length from one sub-step to the next, so a
    node that is in range on entry to the loop is in range in every
    sub-step. *)
Lemma substep_keeps_slopes_length fpow router self grid env s :
  length (ls_downward_slopes (substep fpow router self grid env s).1)
  = length (ls_downward_slopes s).
Proof.
  unfold substep.
  destruct (choose_tstep _ _ _ _) as [[[this_tstep t_el] brk] t_attr]. simpl.
  destruct brk; [done|].
  unfold recompute_downward_slopes, np_clip_min, np_zeros.
  by rewrite length_fmap, update_at_length, length_replicate.
Qed.

Lemma erode_trace_keeps_slopes_length fpow router fuel self grid env s :
  Forall (fun s' => length (ls_downward_slopes s') = length (ls_downward_slopes s))
    (erode_trace fpow router fuel self grid env s).
Proof.
  revert s. induction fuel as [|fuel IH]; intros s; [constructor|].
  simpl. pose proof (substep_keeps_slopes_length fpow router self grid env s) as Hs.
  constructor; [done|].
  destruct (substep fpow router self grid env s).2; [constructor|].
  eapply Forall_impl; [apply IH|]. simpl. intros s' Hs'. by rewrite Hs', Hs.
Qed.

Section KernelProperties.

Variable genhump : float -> float -> float -> float -> float -> float -> float.
Variable almostparabolic : float -> float -> float -> float -> float -> float -> float.
Variable porosity_correction : float -> float -> float.


Lemma visit_node_dzbydt_other flux porosity capacities prefactors receivers
    repeats fn kappa nu c phi norm b m n :
  m <> n ->
  dzbydt (visit_node genhump almostparabolic porosity_correction flux porosity
            capacities prefactors receivers repeats fn kappa nu c phi norm b m) !! n
  = dzbydt b !! n.
Proof.
  intros Hne. unfold visit_node.
  destruct (getf capacities m =? 0); [|destruct (1 <=? _)]; simpl;
    by apply list_lookup_insert_ne.
Qed.

Lemma visit_node_flag_other flux porosity capacities prefactors receivers
    repeats fn kappa nu c phi norm b m n :
  m <> n ->
  is_it_TL_buffer
    (visit_node genhump almostparabolic porosity_correction flux porosity
       capacities prefactors receivers repeats fn kappa nu c phi norm b m) !! n
  = is_it_TL_buffer b !! n.
Proof.
  intros Hne. unfold visit_node.
  destruct (getf capacities m =? 0); [|destruct (1 <=? _)]; simpl;
    by apply list_lookup_insert_ne.
Qed.

Lemma visit_node_lengths flux porosity capacities prefactors receivers
    repeats fn kappa nu c phi norm b m :
  length (dzbydt (visit_node genhump almostparabolic porosity_correction flux
                    porosity capacities prefactors receivers repeats fn kappa nu
                    c phi norm b m)) = length (dzbydt b) /\
  length (is_it_TL_buffer
            (visit_node genhump almostparabolic porosity_correction flux
               porosity capacities prefactors receivers repeats fn kappa nu
               c phi norm b m)) = length (is_it_TL_buffer b).
Proof.
  unfold visit_node.
  destruct (getf capacities m =? 0); [|destruct (1 <=? _)]; simpl;
    by rewrite !length_insert.
Qed.




End KernelProperties.


(** *** Transport-limited nodes *)

Section TransportLimited.

Variable genhump : float -> float -> float -> float -> float -> float -> float.
Variable almostparabolic : float -> float -> float -> float -> float -> float -> float.
Variable porosity_correction : float -> float -> float.
Variable fpow : float -> float -> float.

Lemma visit_node_flag_means_no_erosion flux porosity capacities prefactors
    receivers repeats fn kappa nu c phi norm n b m :
  flag_means_no_erosion n b ->
  flag_means_no_erosion n
    (visit_node genhump almostparabolic porosity_correction flux porosity
       capacities prefactors receivers repeats fn kappa nu c phi norm b m).
Proof.
  intros [Hlen Hflag]. split.
  { destruct (visit_node_lengths genhump almostparabolic porosity_correction
                flux porosity capacities prefactors receivers repeats fn kappa
                nu c phi norm b m) as [-> ->]. done. }
  destruct (decide (m = n)) as [->|Hne].
  - unfold visit_node.
    destruct (getf capacities n =? 0); [|destruct (1 <=? _)]; simpl; intros Hn.
    + apply list_lookup_insert_eq. rewrite Hlen.
      apply lookup_lt_Some in Hn. by rewrite length_insert in Hn.
    + apply list_lookup_insert_eq. rewrite Hlen.
      apply lookup_lt_Some in Hn. by rewrite length_insert in Hn.
    + pose proof (lookup_lt_Some _ _ _ Hn) as Hlt. rewrite length_insert in Hlt.
      rewrite list_lookup_insert_eq in Hn by done. discriminate.
  - rewrite visit_node_flag_other, visit_node_dzbydt_other by done. done.
Qed.

Lemma pass_flag_means_no_erosion flux porosity capacities prefactors
    receivers repeats fn kappa nu c phi norm n (order : list nat) b :
  flag_means_no_erosion n b ->
  flag_means_no_erosion n
    (foldl (visit_node genhump almostparabolic porosity_correction flux porosity
              capacities prefactors receivers repeats fn kappa nu c phi norm)
       b order).
Proof.
  revert b. induction order as [|m order IH]; intros b Hb; [done|].
  simpl. apply IH. by apply visit_node_flag_means_no_erosion.
Qed.

Lemma call_router_flag_means_no_erosion self grid env s n :
  is_it_TL_buffer
    (call_router fpow
       (spec_iterate_sde_downstream genhump almostparabolic porosity_correction)
       self grid env s) !! n = Some true ->
  dzbydt
    (call_router fpow
       (spec_iterate_sde_downstream genhump almostparabolic porosity_correction)
       self grid env s) !! n = Some (- 0).
Proof.
  unfold call_router, spec_iterate_sde_downstream.
  apply pass_flag_means_no_erosion. split; simpl.
  - unfold np_zeros. by rewrite !length_replicate.
  - intros Hn. apply lookup_replicate in Hn as [? _]. discriminate.
Qed.

Lemma substep_tl_keeps_bedrock self grid env s n e0 :
  let router :=
    spec_iterate_sde_downstream genhump almostparabolic porosity_correction in
  n ∈ core_nodes grid ->
  ls_elev_less_sed s !! n = Some e0 ->
  (n < length (ls_node_z s))%nat ->
  tl_in_substep n (substep fpow router self grid env s).1 ->
  ls_elev_less_sed (substep fpow router self grid env s).1 !! n = Some e0 /\
  ls_node_z (substep fpow router self grid env s).1 !! n
  = Some (e0 + getf (ls_hillslope_sediment (substep fpow router self grid env s).1) n) /\
  length (ls_node_z (substep fpow router self grid env s).1) = length (ls_node_z s).
Proof.
  intros router Hcore Hels Hlt. subst router. unfold tl_in_substep, substep.
  destruct (choose_tstep _ _ _ _) as [[[this_tstep t_el] brk] t_attr]. simpl.
  intros (Hflag & Hpos & Hfin).
  apply call_router_flag_means_no_erosion in Hflag.
  match goal with
  | |- lower_elev_less_sed grid ?dz this_tstep (ls_elev_less_sed s) !! n = _ /\ _ =>
      assert (lower_elev_less_sed grid dz this_tstep (ls_elev_less_sed s) !! n
              = Some e0) as Hels'
  end.
  { unfold lower_elev_less_sed.
    rewrite update_at_lookup_in; [|done|by eapply lookup_lt_Some].
    rewrite (getf_lookup _ _ _ Hels), (getf_lookup _ _ _ Hflag).
    by rewrite negzero_mul, add_negzero. }
  split; [done|]. unfold reassemble_node_z. split.
  - rewrite update_at_lookup_in by done.
    by rewrite (getf_lookup _ _ _ Hels').
  - apply update_at_length.
Qed.

Lemma erode_loop_tl_keeps_bedrock self grid env n e0 fuel :
  let router :=
    spec_iterate_sde_downstream genhump almostparabolic porosity_correction in
  n ∈ core_nodes grid ->
  forall s,
    ls_elev_less_sed s !! n = Some e0 ->
    (n < length (ls_node_z s))%nat ->
    Forall (tl_in_substep n) (erode_trace fpow router fuel self grid env s) ->
    (erode_loop fpow router fuel self grid env s).2 = true ->
    ls_node_z (erode_loop fpow router fuel self grid env s).1 !! n
    = Some (e0 + getf (ls_hillslope_sediment
                         (erode_loop fpow router fuel self grid env s).1) n).
Proof.
  intros router Hcore. induction fuel as [|fuel IH]; intros s Hels Hlt Htrace Hfin;
    [discriminate|].
  simpl in Htrace. apply Forall_cons in Htrace as [Hfirst Hrest].
  destruct (substep_tl_keeps_bedrock self grid env s n e0 Hcore Hels Hlt Hfirst)
    as (Hels' & Hz' & Hlen').
  simpl in *. fold router in Hels', Hz', Hlen', Hrest, Hfin |- *.
  destruct (substep fpow router self grid env s) as [s' brk]. simpl in *.
  destruct brk; simpl; [done|].
  apply IH; try done. by rewrite Hlen'.
Qed.

(** C1, as amended.  After a call to [erode] that returns, on a grid with
    sediment depths [h], every core node [n] that is classified
    transport-limited in every sub-step of the call (each of positive,
    finite length) has an untouched bedrock surface: its final elevation is
    exactly [(z_initial[n] - h_initial[n]) + sediment_depth[n]], so that
    [sediment_depth[n] + (z_initial[n] - z_final[n])] is [h_initial[n]] up
    to the rounding of these two operations.  A node that is flagged in the
    last sub-step only may have incised before. *)
Theorem tl_throughout_leaves_bedrock
    BAD_INDEX_VALUE fuel self grid dt flooded_nodes ix self' grid' n :
  let router :=
    spec_iterate_sde_downstream genhump almostparabolic porosity_correction in
  erode fpow BAD_INDEX_VALUE router fuel self grid dt flooded_nodes
  = (self', grid', Returned) ->
  resolve_flooded grid flooded_nodes = inr ix ->
  n ∈ core_nodes grid ->
  (n < length (topographic__elevation grid))%nat ->
  (n < length (channel_sediment__depth grid))%nat ->
  Forall (tl_in_substep n)
    (erode_trace fpow router fuel self grid
       (make_env fpow BAD_INDEX_VALUE self grid (dt * SECONDS_PER_YEAR) ix)
       (initial_state self grid)) ->
  topographic__elevation grid' !! n
  = Some ((getf (topographic__elevation grid) n
           - getf (channel_sediment__depth grid) n)
          + getf (channel_sediment__depth grid') n).
Proof.
  intros router Herode Hix Hcore Hz Hh Htrace.
  unfold erode in Herode. case_decide; [discriminate|].
  rewrite Hix in Herode.
  destruct (String.eqb (Qc self) "power_law"); [|discriminate].
  pose proof (erode_loop_tl_keeps_bedrock self grid
                (make_env fpow BAD_INDEX_VALUE self grid (dt * SECONDS_PER_YEAR) ix)
                n (getf (topographic__elevation grid) n
                   - getf (channel_sediment__depth grid) n)
                fuel Hcore (initial_state self grid)) as Hloop.
  simpl in Hloop. fold router in Hloop.
  destruct (erode_loop fpow router fuel self grid _ _) as [s finished].
  destruct finished; [|discriminate].
  injection Herode as _ <-. simpl. apply Hloop; try done.
  rewrite lookup_zip_with.
  destruct (lookup_lt_is_Some_2 _ n Hz) as [z Ez].
  destruct (lookup_lt_is_Some_2 _ n Hh) as [h Eh].
  rewrite Ez, Eh. simpl.
  by rewrite (getf_lookup _ _ _ Ez), (getf_lookup _ _ _ Eh).
Qed.

End TransportLimited.

(** C1: eight years on the docstring grid with [K_t = 1] take two sub-steps.
    Node 4 is detachment-limited in the first and incises; in the second its
    slope has dropped, it is transport-limited, and [is_it_TL] reports it so.
    Its budget is 0.0047, not 0.0007. *)
Lemma tl_flag_after_incision_breaks_budget :
  let result := example_erode 5 unit_component tilted_grid 8 FloodedNone in
  result.2 = Returned /\
  4%nat ∈ core_nodes tilted_grid /\
  Forall (fun h => h = 0.0007) (channel_sediment__depth tilted_grid) /\
  is_it_TL result.1.1 !! 4%nat = Some true /\
  tl_budget_closes (channel_sediment__depth result.1.2)
    (topographic__elevation tilted_grid) (topographic__elevation result.1.2)
    0.0007 4 = false.
Proof.
  split; [by vm_compute|]. split; [apply list_elem_of_here|].
  split; [vm_compute; repeat constructor|].
  split; by vm_compute.
Qed.

Lemma tl_throughout_leaves_bedrock_witness :
  let result := example_erode 8 low_capacity_component tilted_grid 8 FloodedNone in
  topographic__elevation result.1.2 !! 7%nat
  = Some ((getf (topographic__elevation tilted_grid) 7
           - getf (channel_sediment__depth tilted_grid) 7)
          + getf (channel_sediment__depth result.1.2) 7) /\
  tl_budget_closes (channel_sediment__depth result.1.2)
    (topographic__elevation tilted_grid) (topographic__elevation result.1.2)
    0.0007 7 = true.
Proof.
  split; [|by vm_compute].
  apply (tl_throughout_leaves_bedrock curve_not_evaluated curve_not_evaluated
           unit_porosity_correction pow_small bad_index 8 low_capacity_component
           tilted_grid 8 FloodedNone (BoolIndex [])
           (example_erode 8 low_capacity_component tilted_grid 8 FloodedNone).1.1
           (example_erode 8 low_capacity_component tilted_grid 8 FloodedNone).1.2
           7).
  - vm_compute. reflexivity.
  - reflexivity.
  - apply list_elem_of_further, list_elem_of_here.
  - vm_compute. lia.
  - vm_compute. lia.
  - vm_compute. repeat constructor.
Defined.

(** *** The constructor *)

(** Every component that [__init__] returns has the power-law transport
    law, the premise under which [erode] raises only before it writes. *)
Lemma init_accepts_only_power_law genhump np_mean grid args self :
  __init__ genhump np_mean grid args = inr self -> Qc self = "power_law"%string.
Proof.
  unfold __init__. case_decide; [discriminate|].
  destruct (negb _); [discriminate|].
  destruct (set_sed_flux_fn_gen _ _ _ _ _ _ _) as [e|[[fn|] norm]];
    try discriminate.
  destruct (String.eqb (Qc_arg args) "MPM"); [discriminate|].
  destruct (String.eqb (Qc_arg args) "power_law") eqn:E; [|discriminate].
  intros [= <-]. simpl. by apply String.eqb_eq.
Qed.

(** The example components are what the constructor builds on the example
    grid (the attributes [erode] assigns later start out empty). *)
Lemma example_component_is_constructed :
  __init__ curve_not_evaluated small_mean tilted_grid (example_args 1e-4 1 1)
  = inr unit_component /\
  __init__ curve_not_evaluated small_mean tilted_grid (example_args 1e-4 1e-4 1)
  = inr low_capacity_component /\
  __init__ curve_not_evaluated small_mean flat_top_grid (example_args 1e-4 1 0)
  = inr n0_component.
Proof. vm_compute. repeat split. Qed.

(** The sample on which the hump is normalized runs from 0 to 1 in 1001
    points. *)
Lemma np_arange_0_1001_ends :
  length np_arange_0_1001 = 1001%nat /\
  np_arange_0_1001 !! 0%nat = Some 0 /\
  np_arange_0_1001 !! 1000%nat = Some 1.
Proof. vm_compute. repeat split. Qed.

(** For the humped response the stored constant is the reciprocal of the
    largest sampled value, and [erode] passes it on unchanged. *)
Lemma set_sed_flux_fn_gen_humped genhump kappa nu c phi norm fn norm' :
  set_sed_flux_fn_gen genhump "generalized_humped" kappa nu c phi norm
  = inr (fn, norm') ->
  fn = Some sed_flux_fn_gen_genhump /\
  norm' = 1 / sampled_max_val genhump kappa nu c phi.
Proof.
  unfold set_sed_flux_fn_gen. rewrite String.eqb_refl.
  generalize (sampled_max_val genhump kappa nu c phi). intros max_val.
  destruct (max_val =? 0); [discriminate|].
  intros [= <- <-]. split; reflexivity.
Qed.

(** *** What a call leaves alone *)

(** X1.  [erode] never reassigns the component's configuration: after any
    call, however it ends, the erodibilities, the exponents, the porosity
    ratio, the response function with its parameters and its normalization,
    the transport law and the cell areas are what [__init__] made them; nor
    does it touch the grid's geometry. *)
Theorem erode_keeps_configuration
    fpow BAD_INDEX_VALUE router fuel self grid dt flooded_nodes :
  let self' := (erode fpow BAD_INDEX_VALUE router fuel self grid dt flooded_nodes).1.1 in
  let grid' := (erode fpow BAD_INDEX_VALUE router fuel self grid dt flooded_nodes).1.2 in
  (_K_unit_time self' = _K_unit_time self /\ _Kt self' = _Kt self /\
   _m self' = _m self /\ _n self' = _n self /\
   _mt self' = _mt self /\ _nt self' = _nt self /\
   _porosity self' = _porosity self /\
   _pseudoimplicit_repeats self' = _pseudoimplicit_repeats self /\
   type self' = type self /\ Qc self' = Qc self /\
   _sed_flux_fn_gen self' = _sed_flux_fn_gen self /\
   kappa self' = kappa self /\ nu self' = nu self /\ phi self' = phi self /\
   c self' = c self /\ norm self' = norm self /\
   cell_areas self' = cell_areas self) /\
  (number_of_nodes grid' = number_of_nodes grid /\
   core_nodes grid' = core_nodes grid /\
   node_at_cell grid' = node_at_cell grid /\
   area_of_cell grid' = area_of_cell grid /\
   length_of_d8 grid' = length_of_d8 grid).
Proof.
  unfold erode. case_decide; [by repeat split|].
  destruct (resolve_flooded grid flooded_nodes) as [e|ix]; [by repeat split|].
  destruct (String.eqb (Qc self) "power_law"); [|by repeat split].
  destruct (erode_loop fpow router _ _ _ _ _) as [s finished].
  by destruct finished; repeat split.
Qed.

(** *** Two ways of naming the flooded nodes *)

(** [a[is_flooded] = v] entry by entry, for a mask and for an id array. *)
Lemma index_fill_lookup ix v (a : ndarray) n :
  index_fill ix v a !! n = (fun x => if is_flooded_at ix n then v else x) <$> a !! n.
Proof.
  destruct ix as [mask|ids]; simpl.
  - unfold mask_fill. by rewrite list_lookup_imap.
  - case_bool_decide as Hin.
    + destruct (decide (n < length a)%nat) as [Hlt|Hge].
      * rewrite update_at_lookup_in by done.
        destruct (lookup_lt_is_Some_2 a n Hlt) as [x ->]. done.
      * rewrite (lookup_ge_None_2 a) by lia.
        apply lookup_ge_None_2. rewrite update_at_length. lia.
    + rewrite update_at_lookup_notin by done. by destruct (a !! n).
Qed.

Lemma index_fill_ext ix1 ix2 v (a : ndarray) :
  (forall n, is_flooded_at ix1 n = is_flooded_at ix2 n) ->
  index_fill ix1 v a = index_fill ix2 v a.
Proof.
  intros Hsame. apply list_eq. intros n.
  by rewrite !index_fill_lookup, Hsame.
Qed.

Lemma substep_flooded_ext fpow BAD_INDEX_VALUE router self grid dt_secs ix1 ix2 s :
  (forall n, is_flooded_at ix1 n = is_flooded_at ix2 n) ->
  substep fpow router self grid (make_env fpow BAD_INDEX_VALUE self grid dt_secs ix1) s
  = substep fpow router self grid (make_env fpow BAD_INDEX_VALUE self grid dt_secs ix2) s.
Proof.
  intros Hsame.
  unfold substep, call_router, compute_transport_capacities,
    compute_erosion_prefactor_withS.
  cbn [make_env env_is_flooded env_dt_secs env_link_length env_core_draining_nodes
       env_hillslope_flux env_transport_capacity_prefactor_withA
       env_erosion_prefactor_withA env_max_tstep_wave].
  by rewrite !(index_fill_ext ix1 ix2).
Qed.

Lemma erode_loop_flooded_ext fpow BAD_INDEX_VALUE router fuel self grid dt_secs ix1 ix2 s :
  (forall n, is_flooded_at ix1 n = is_flooded_at ix2 n) ->
  erode_loop fpow router fuel self grid
    (make_env fpow BAD_INDEX_VALUE self grid dt_secs ix1) s
  = erode_loop fpow router fuel self grid
      (make_env fpow BAD_INDEX_VALUE self grid dt_secs ix2) s.
Proof.
  intros Hsame. revert s. induction fuel as [|fuel IH]; intros s; [done|].
  simpl. rewrite (substep_flooded_ext _ _ _ _ _ _ ix1 ix2) by done.
  destruct (substep _ _ _ _ _ _) as [s' brk]. destruct brk; [done|]. apply IH.
Qed.

(** Two [flooded_nodes] arguments that select the same nodes give the same
    call, down to the last bit. *)
Lemma erode_same_flooded_nodes
    fpow BAD_INDEX_VALUE router fuel self grid dt fl1 fl2 ix1 ix2 :
  resolve_flooded grid fl1 = inr ix1 ->
  resolve_flooded grid fl2 = inr ix2 ->
  (forall n, is_flooded_at ix1 n = is_flooded_at ix2 n) ->
  erode fpow BAD_INDEX_VALUE router fuel self grid dt fl1
  = erode fpow BAD_INDEX_VALUE router fuel self grid dt fl2.
Proof.
  intros H1 H2 Hsame. unfold erode. rewrite H1, H2.
  case_decide; [done|].
  cbn [make_env env_hillslope_flux env_link_length env_max_tstep_wave].
  by rewrite (erode_loop_flooded_ext _ _ _ _ _ _ _ ix1 ix2).
Qed.

Lemma np_where_flags (mask : list bool) n :
  bool_decide (n ∈ np_where mask) = default false (mask !! n).
Proof.
  unfold np_where. destruct (mask !! n) as [b|] eqn:E; simpl.
  - destruct b.
    + apply bool_decide_eq_true. apply list_elem_of_filter. split; [done|].
      apply elem_of_seq. apply lookup_lt_Some in E. lia.
    + apply bool_decide_eq_false. rewrite list_elem_of_filter. intros [H _].
      congruence.
  - apply bool_decide_eq_false. rewrite list_elem_of_filter. intros [H _].
    congruence.
Qed.

(** X2.  The two array forms of [flooded_nodes] are interchangeable: a
    boolean array with one entry per node, and the integer array
    [np.where(mask)[0]] of the ids it flags, lead to the same component, the
    same grid and the same outcome. *)
Theorem erode_mask_or_ids fpow BAD_INDEX_VALUE router fuel self grid dt mask :
  length mask = number_of_nodes grid ->
  erode fpow BAD_INDEX_VALUE router fuel self grid dt (FloodedBools mask)
  = erode fpow BAD_INDEX_VALUE router fuel self grid dt (FloodedIds (np_where mask)).
Proof.
  intros Hlen.
  apply (erode_same_flooded_nodes _ _ _ _ _ _ _ _ _
           (BoolIndex mask) (IntIndex (np_where mask))).
  - simpl. by rewrite decide_True.
  - done.
  - intros n. simpl. by rewrite np_where_flags.
Qed.

Lemma erode_mask_or_ids_witness :
  example_erode 5 unit_component tilted_grid 8 (FloodedBools node_7_mask)
  = example_erode 5 unit_component tilted_grid 8 (FloodedIds (np_where node_7_mask)).
Proof.
  apply (erode_mask_or_ids pow_small bad_index example_router 5 unit_component
           tilted_grid 8 node_7_mask).
  reflexivity.
Defined.

(** X3.  [flooded_nodes=None] is the same call as an all-[False] boolean
    array and as an empty id array. *)
Theorem erode_without_flooded_nodes fpow BAD_INDEX_VALUE router fuel self grid dt :
  erode fpow BAD_INDEX_VALUE router fuel self grid dt FloodedNone
  = erode fpow BAD_INDEX_VALUE router fuel self grid dt
      (FloodedBools (replicate (number_of_nodes grid) false)) /\
  erode fpow BAD_INDEX_VALUE router fuel self grid dt FloodedNone
  = erode fpow BAD_INDEX_VALUE router fuel self grid dt (FloodedIds []).
Proof.
  split.
  - apply (erode_same_flooded_nodes _ _ _ _ _ _ _ _ _
             (BoolIndex []) (BoolIndex (replicate (number_of_nodes grid) false))).
    + done.
    + simpl. by rewrite decide_True by apply length_replicate.
    + intros n. simpl.
      destruct (decide (n < number_of_nodes grid)%nat).
      * by rewrite lookup_replicate_2.
      * rewrite (lookup_ge_None_2 (replicate _ _)); [done|rewrite length_replicate; lia].
  - apply (erode_same_flooded_nodes _ _ _ _ _ _ _ _ _ (BoolIndex []) (IntIndex [])).
    + done.
    + done.
    + intros n. reflexivity.
Qed.

(** *** A call that fits in one sub-step *)

Lemma zero_add_pos x : (0 <? x) = true -> 0 + x = x.
Proof.
  rewrite FloatAxioms.ltb_spec. intros H.
  apply Prim2SF_inj. rewrite FloatAxioms.add_spec.
  change (Prim2SF 0) with (S754_zero false) in *. unfold SF64add, SFadd.
  by destruct (Prim2SF x) as [[]|[]| |[] m e].
Qed.

Lemma sub_zero_pos x : (0 <? x) = true -> x - 0 = x.
Proof.
  rewrite FloatAxioms.ltb_spec. intros H.
  apply Prim2SF_inj. rewrite FloatAxioms.sub_spec.
  change (Prim2SF 0) with (S754_zero false) in *. unfold SF64sub, SFsub.
  by destruct (Prim2SF x) as [[]|[]| |[] m e].
Qed.

Lemma sub_self_pos x :
  (0 <? x) = true -> (x <? infinity) = true -> x - x = 0.
Proof.
  rewrite !FloatAxioms.ltb_spec. intros H0 Hinf.
  apply Prim2SF_inj. rewrite FloatAxioms.sub_spec.
  change (Prim2SF 0) with (S754_zero false) in *.
  change (Prim2SF infinity) with (S754_infinity false) in *.
  unfold SF64sub, SFsub.
  destruct (Prim2SF x) as [[]|[]| |[] m e]; try done.
  by rewrite Z.sub_diag.
Qed.

Lemma leb_refl_pos x : (0 <? x) = true -> (x <=? x) = true.
Proof.
  rewrite FloatAxioms.ltb_spec, FloatAxioms.leb_spec.
  change (Prim2SF 0) with (S754_zero false).
  destruct (Prim2SF x) as [[]|[]| |[] m e]; try done.
  intros _. unfold SFleb, SFcompare.
  by rewrite Z.compare_refl, Pos.compare_cont_refl.
Qed.

(** When both stability bounds exceed the outer timestep, the first
    sub-step is the whole of it, exactly, and the loop breaks. *)
Lemma choose_tstep_whole_step t_conv wave dt_secs :
  (0 <? dt_secs) = true -> (dt_secs <? infinity) = true ->
  (dt_secs <? pymin t_conv wave) = true ->
  choose_tstep t_conv wave dt_secs 0 = (dt_secs, dt_secs, true, Some dt_secs).
Proof.
  intros H0 Hinf Hfit. unfold choose_tstep. rewrite andb_false_r.
  cbv zeta. generalize dependent (pymin t_conv wave). intros t Hfit.
  unfold pymin. rewrite Hfit.
  rewrite (zero_add_pos _ H0), (leb_refl_pos _ H0), (sub_self_pos _ H0 Hinf),
    (sub_zero_pos _ H0), (zero_add_pos _ H0).
  reflexivity.
Qed.

(** X4.  A call whose convergence time and wave bound, computed from the
    first pass of the kernel, both exceed a positive finite [dt_secs] takes a
    single sub-step of length exactly [dt_secs]: it returns with a loop
    counter of 0 and [t_to_converge = dt_secs], the sediment depth is the
    deposition rate of that pass over the cell area times [dt_secs], and the
    core elevations are the bedrock lowered by [dzbydt * dt_secs] plus that
    sediment. *)
Theorem erode_takes_one_substep
    fpow BAD_INDEX_VALUE router fuel self grid dt flooded_nodes ix :
  length (flow__receiver_node grid) = number_of_nodes grid ->
  resolve_flooded grid flooded_nodes = inr ix ->
  Qc self = "power_law"%string ->
  (0 <? dt * SECONDS_PER_YEAR) = true ->
  (dt * SECONDS_PER_YEAR <? infinity) = true ->
  let dt_secs := dt * SECONDS_PER_YEAR in
  let out :=
    call_router fpow router self grid
      (make_env fpow BAD_INDEX_VALUE self grid dt_secs ix)
      (initial_state self grid) in
  (dt_secs <? pymin (convergence_tstep (dzbydt out) (topographic__elevation grid)
                       (flow__receiver_node grid) dt_secs)
                (compute_max_tstep_wave fpow BAD_INDEX_VALUE self grid)) = true ->
  let r := erode fpow BAD_INDEX_VALUE router (S fuel) self grid dt flooded_nodes in
  let h := rebuild_hillslope_sediment grid (vol_drop_rate out) dt_secs
             (np_fill 0 (channel_sediment__depth grid)) in
  r.2 = Returned /\
  _loopcounter r.1.1 = 0%nat /\
  t_to_converge r.1.1 = dt_secs /\
  channel_sediment__depth r.1.2 = h /\
  topographic__elevation r.1.2
  = reassemble_node_z grid
      (lower_elev_less_sed grid (dzbydt out) dt_secs
         (zip_with (fun z h => z - h) (topographic__elevation grid)
            (channel_sediment__depth grid)))
      h (topographic__elevation grid).
Proof.
  intros Hlen Hix HQc H0 Hinf dt_secs out Hfit r h.
  subst r. unfold erode.
  rewrite decide_False by (intros Hne; by apply Hne).
  rewrite Hix, HQc. cbn [String.eqb Ascii.eqb Bool.eqb].
  cbn [erode_loop]. unfold substep.
  change (call_router fpow router self grid
            (make_env fpow BAD_INDEX_VALUE self grid (dt * SECONDS_PER_YEAR) ix)
            (initial_state self grid)) with out.
  cbn [make_env env_dt_secs env_max_tstep_wave initial_state ls_node_z
       ls_t_elapsed_internal].
  fold dt_secs.
  rewrite (choose_tstep_whole_step _ _ dt_secs H0 Hinf Hfit).
  done.
Qed.

(** One year on bare bedrock: the convergence time of node 4 towards its
    outlet and the wave bound are both about five years. *)
Lemma erode_takes_one_substep_witness :
  (example_erode 3 unit_component bare_grid 1 FloodedNone).2 = Returned /\
  _loopcounter (example_erode 3 unit_component bare_grid 1 FloodedNone).1.1 = 0%nat.
Proof.
  refine (let H := erode_takes_one_substep pow_small bad_index example_router 2
                     unit_component bare_grid 1 FloodedNone (BoolIndex [])
                     _ _ _ _ _ _ in
          conj (proj1 H) (proj1 (proj2 H)));
    vm_compute; reflexivity.
Defined.

(** *** What the last sub-step leaves behind *)

Lemma scatter_lookup_nodup {A} (idx : list nat) (vals a : list A) k n v :
  NoDup idx -> idx !! k = Some n -> vals !! k = Some v -> (n < length a)%nat ->
  scatter idx vals a !! n = Some v.
Proof.
  unfold scatter. revert vals a k.
  induction idx as [|i idx IH]; intros vals a k Hnd Hk Hv Hlt; [done|].
  destruct vals as [|v0 vals]; [done|].
  apply NoDup_cons in Hnd as [Hi Hnd]. simpl.
  destruct k as [|k]; simpl in Hk, Hv.
  - injection Hk as ->. injection Hv as ->.
    change (foldl _ _ (zip idx vals)) with (scatter idx vals (<[n:=v]> a)).
    rewrite scatter_lookup_notin by done. by apply list_lookup_insert_eq.
  - apply (IH vals _ k); try done. by rewrite length_insert.
Qed.

Lemma substep_sediment_length fpow router self grid env s :
  length (ls_hillslope_sediment (substep fpow router self grid env s).1)
  = length (ls_hillslope_sediment s).
Proof.
  unfold substep.
  destruct (choose_tstep _ _ _ _) as [[[this_tstep t_el] brk] t_attr]. simpl.
  unfold rebuild_hillslope_sediment. apply scatter_length.
Qed.

(** A loop that reached its [break] did so in a last sub-step, entered with
    arrays of the sizes the loop started with. *)
Lemma erode_loop_last_substep fpow router fuel self grid env s0 s :
  erode_loop fpow router fuel self grid env s0 = (s, true) ->
  exists s_prev,
    substep fpow router self grid env s_prev = (s, true) /\
    length (ls_hillslope_sediment s_prev) = length (ls_hillslope_sediment s0) /\
    length (ls_downward_slopes s_prev) = length (ls_downward_slopes s0).
Proof.
  revert s0. induction fuel as [|fuel IH]; intros s0; [done|].
  simpl.
  pose proof (substep_sediment_length fpow router self grid env s0) as Hh.
  pose proof (substep_keeps_slopes_length fpow router self grid env s0) as Hs.
  destruct (substep fpow router self grid env s0) as [s' brk] eqn:E.
  simpl in Hh, Hs. destruct brk.
  - intros [= <-]. by exists s0.
  - intros Hloop. destruct (IH s' Hloop) as (s_prev & Hstep & Hh' & Hs').
    exists s_prev. split; [done|]. split; congruence.
Qed.

Lemma substep_sediment_at_cell fpow router self grid env s k n a :
  NoDup (node_at_cell grid) ->
  node_at_cell grid !! k = Some n ->
  area_of_cell grid !! k = Some a ->
  (n < length (ls_hillslope_sediment s))%nat ->
  let s' := (substep fpow router self grid env s).1 in
  ls_hillslope_sediment s' !! n
  = Some (getf (vol_drop_rate (ls_arrays s')) n / a * ls_this_tstep s').
Proof.
  intros Hnd Hk Ha Hlt. unfold substep.
  destruct (choose_tstep _ _ _ _) as [[[this_tstep t_el] brk] t_attr]. simpl.
  unfold rebuild_hillslope_sediment.
  apply (scatter_lookup_nodup _ _ _ k); try done.
  rewrite lookup_zip_with. unfold gather. rewrite list_lookup_fmap, Hk, Ha. done.
Qed.

(** X5.  The sediment cover a call leaves is the deposit of its last
    sub-step alone: when [erode] returns, there is one duration (the length
    of the last sub-step) such that at every node with a cell
    [channel_sediment__depth] is the final [_voldroprate] of the node,
    divided by the cell area, times that duration.  What earlier sub-steps
    deposited is overwritten, not accumulated. *)
Theorem erode_sediment_is_last_deposit
    fpow BAD_INDEX_VALUE router fuel self grid dt flooded_nodes self' grid' :
  erode fpow BAD_INDEX_VALUE router fuel self grid dt flooded_nodes
  = (self', grid', Returned) ->
  NoDup (node_at_cell grid) ->
  exists this_tstep,
    forall k n a,
      node_at_cell grid !! k = Some n ->
      area_of_cell grid !! k = Some a ->
      (n < length (channel_sediment__depth grid))%nat ->
      channel_sediment__depth grid' !! n
      = Some (getf (_voldroprate self') n / a * this_tstep).
Proof.
  intros Herode Hnd. unfold erode in Herode.
  case_decide; [discriminate|].
  destruct (resolve_flooded grid flooded_nodes) as [e|ix]; [discriminate|].
  destruct (String.eqb (Qc self) "power_law"); [|discriminate].
  destruct (erode_loop fpow router _ _ _ _ _) as [s finished] eqn:Eloop.
  destruct finished; [|discriminate].
  apply erode_loop_last_substep in Eloop as (s_prev & Hstep & Hh & _).
  injection Herode as <- <-. exists (ls_this_tstep s).
  intros k n a Hk Ha Hlt. simpl.
  pose proof (substep_sediment_at_cell fpow router self grid
                (make_env fpow BAD_INDEX_VALUE self grid (dt * SECONDS_PER_YEAR) ix)
                s_prev k n a Hnd Hk Ha) as Hcell.
  rewrite Hstep in Hcell. apply Hcell.
  rewrite Hh. simpl. unfold np_fill. by rewrite length_replicate.
Qed.

Lemma erode_sediment_is_last_deposit_witness :
  exists this_tstep,
    forall k n a,
      node_at_cell tilted_grid !! k = Some n ->
      area_of_cell tilted_grid !! k = Some a ->
      (n < length (channel_sediment__depth tilted_grid))%nat ->
      channel_sediment__depth
        (example_erode 5 unit_component tilted_grid 8 FloodedNone).1.2 !! n
      = Some (getf (_voldroprate
                      (example_erode 5 unit_component tilted_grid 8 FloodedNone).1.1) n
              / a * this_tstep).
Proof.
  apply (erode_sediment_is_last_deposit pow_small bad_index example_router 5
           unit_component tilted_grid 8 FloodedNone
           (example_erode 5 unit_component tilted_grid 8 FloodedNone).1.1
           (example_erode 5 unit_component tilted_grid 8 FloodedNone).1.2).
  - vm_compute. reflexivity.
  - apply NoDup_cons. split; [|apply NoDup_singleton].
    intros H. apply list_elem_of_singleton in H. lia.
Defined.

(** *** Published capacities at flooded nodes *)

(** X6.  After a call that returns, the published
    [channel_sediment__volumetric_transport_capacity] is zero at every
    flooded node whose prefactor [Kt * A^mt] is finite: the capacity of the
    last sub-step is that prefactor times a slope term that [erode] forced
    to zero. *)
Theorem erode_publishes_zero_capacity_at_flooded_nodes
    fpow BAD_INDEX_VALUE router fuel self grid dt flooded_nodes ix self' grid' n :
  erode fpow BAD_INDEX_VALUE router fuel self grid dt flooded_nodes
  = (self', grid', Returned) ->
  resolve_flooded grid flooded_nodes = inr ix ->
  is_flooded_at ix n = true ->
  (n < length (topographic__steepest_slope grid))%nat ->
  finite_number
    (getf (compute_transport_capacity_prefactor_withA fpow self grid) n) = true ->
  (getf (channel_sediment__volumetric_transport_capacity grid') n =? 0) = true.
Proof.
  intros Herode Hix Hfl Hlt Hfin. unfold erode in Herode.
  case_decide; [discriminate|]. rewrite Hix in Herode.
  destruct (String.eqb (Qc self) "power_law"); [|discriminate].
  destruct (erode_loop fpow router _ _ _ _ _) as [s finished] eqn:Eloop.
  destruct finished; [|discriminate].
  apply erode_loop_last_substep in Eloop as (s_prev & Hstep & _ & Hs).
  injection Herode as _ <-. simpl.
  assert (ls_transport_capacities s
          = compute_transport_capacities fpow self
              (make_env fpow BAD_INDEX_VALUE self grid (dt * SECONDS_PER_YEAR) ix)
              (ls_downward_slopes s_prev)) as ->.
  { revert Hstep. unfold substep.
    destruct (choose_tstep _ _ _ _) as [[[this_tstep t_el] brk] t_attr].
    by intros [= <- _]. }
  apply transport_capacity_flooded; try done.
  rewrite Hs. simpl. unfold initial_downward_slopes, np_clip_min.
  by rewrite length_fmap.
Qed.

Lemma erode_publishes_zero_capacity_at_flooded_nodes_witness :
  (getf (channel_sediment__volumetric_transport_capacity
           (example_erode 5 unit_component tilted_grid 8 (FloodedIds [7%nat])).1.2)
     7 =? 0) = true.
Proof.
  apply (erode_publishes_zero_capacity_at_flooded_nodes pow_small bad_index
           example_router 5 unit_component tilted_grid 8 (FloodedIds [7%nat])
           (IntIndex [7%nat])
           (example_erode 5 unit_component tilted_grid 8 (FloodedIds [7%nat])).1.1
           (example_erode 5 unit_component tilted_grid 8 (FloodedIds [7%nat])).1.2
           7).
  - vm_compute. reflexivity.
  - reflexivity.
  - reflexivity.
  - vm_compute. lia.
  - vm_compute. reflexivity.
Defined.

(** *** The transport law is checked after the first writes *)

(** X7.  The test [self.Qc == 'power_law'] comes after the first writes of
    [erode]: on a component whose [Qc] is anything else, a call that passed
    the shape check and the [flooded_nodes] checks raises [TypeError] with
    the sediment depth already zero-filled, the deposition rates reset and
    the hillslope flux overwritten; the elevation is as it was. *)
Theorem erode_rejects_transport_law_after_writing
    fpow BAD_INDEX_VALUE router fuel self grid dt flooded_nodes ix :
  length (flow__receiver_node grid) = number_of_nodes grid ->
  resolve_flooded grid flooded_nodes = inr ix ->
  Qc self <> "power_law"%string ->
  let r := erode fpow BAD_INDEX_VALUE router fuel self grid dt flooded_nodes in
  r.2 = Raised TypeError /\
  channel_sediment__depth r.1.2 = np_fill 0 (channel_sediment__depth grid) /\
  topographic__elevation r.1.2 = topographic__elevation grid /\
  _voldroprate r.1.1 = np_zeros (number_of_nodes grid) /\
  _hillslope_sediment_flux_wzeros r.1.1
  = compute_hillslope_flux self grid (dt * SECONDS_PER_YEAR).
Proof.
  intros Hlen Hix HQc r. subst r. unfold erode.
  rewrite decide_False by (intros Hne; by apply Hne).
  rewrite Hix.
  destruct (String.eqb (Qc self) "power_law") eqn:E.
  - by apply String.eqb_eq in E.
  - done.
Qed.

Lemma erode_rejects_transport_law_after_writing_witness :
  (example_erode 5 mpm_component tilted_grid 8 FloodedNone).2 = Raised TypeError /\
  channel_sediment__depth
    (example_erode 5 mpm_component tilted_grid 8 FloodedNone).1.2
  = np_fill 0 (channel_sediment__depth tilted_grid).
Proof.
  refine (let H := erode_rejects_transport_law_after_writing pow_small bad_index
                     example_router 5 mpm_component tilted_grid 8 FloodedNone
                     (BoolIndex []) _ _ _ in
          conj (proj1 H) (proj1 (proj2 H))).
  - reflexivity.
  - reflexivity.
  - vm_compute. discriminate.
Defined.

(** *** Nodes without a cell supply no sediment *)

(** X8.  [__init__] starts the hillslope supply flux at zero and [erode]
    assigns it at the nodes of [node_at_cell] only: on a component fresh from
    the constructor, after a call to [erode], however it ends, the flux at a
    node without a cell is 0. *)
Theorem cellless_nodes_supply_no_sediment
    genhump np_mean fpow BAD_INDEX_VALUE router fuel grid args self dt
    flooded_nodes n :
  __init__ genhump np_mean grid args = inr self ->
  n ∉ node_at_cell grid ->
  (n < number_of_nodes grid)%nat ->
  _hillslope_sediment_flux_wzeros
    (erode fpow BAD_INDEX_VALUE router fuel self grid dt flooded_nodes).1.1 !! n
  = Some 0.
Proof.
  intros Hinit Hn Hlt.
  assert (_hillslope_sediment_flux_wzeros self = np_zeros (number_of_nodes grid))
    as Hzeros.
  { revert Hinit. unfold __init__. case_decide; [discriminate|].
    destruct (negb _); [discriminate|].
    destruct (set_sed_flux_fn_gen _ _ _ _ _ _ _) as [e|[[fn|] norm]];
      try discriminate.
    destruct (String.eqb (Qc_arg args) "MPM"); [discriminate|].
    destruct (String.eqb (Qc_arg args) "power_law"); [|discriminate].
    by intros [= <-]. }
  assert (compute_hillslope_flux self grid (dt * SECONDS_PER_YEAR) !! n = Some 0)
    as Hflux.
  { unfold compute_hillslope_flux. rewrite scatter_lookup_notin by done.
    rewrite Hzeros. by apply lookup_replicate_2. }
  unfold erode. case_decide.
  { simpl. rewrite Hzeros. by apply lookup_replicate_2. }
  destruct (resolve_flooded grid flooded_nodes) as [e|ix].
  { simpl. rewrite Hzeros. by apply lookup_replicate_2. }
  destruct (String.eqb (Qc self) "power_law"); [|done].
  destruct (erode_loop fpow router _ _ _ _ _) as [s finished].
  by destruct finished.
Qed.

Lemma cellless_nodes_supply_no_sediment_witness :
  _hillslope_sediment_flux_wzeros
    (example_erode 5 unit_component tilted_grid 8 FloodedNone).1.1 !! 10%nat
  = Some 0.
Proof.
  apply (cellless_nodes_supply_no_sediment curve_not_evaluated small_mean
           pow_small bad_index example_router 5 tilted_grid
           (example_args 1e-4 1 1) unit_component 8 FloodedNone 10).
  - vm_compute. reflexivity.
  - exact node_10_has_no_cell.
  - vm_compute. lia.
Defined.

(** *** What the constructor guarantees *)

(** X9.  A component that [__init__] returns was built on a
    single-receiver grid, from a permitted response type and the transport
    law ['power_law']; its rate constants are the yearly ones divided by
    31557600, its porosity ratio is the sediment density over the rock
    density and its supply flux starts at zero.  With the humped response
    the four shape parameters are the keyword arguments and [norm] is the
    reciprocal of the sampled maximum, which is not zero; with any other
    response the shape parameters the caller passed are discarded and all
    four, and [norm], are 0. *)
Theorem init_postconditions genhump np_mean grid args self :
  __init__ genhump np_mean grid args = inr self ->
  (length (flow__receiver_node grid) = number_of_nodes grid /\
   sed_dependency_type args ∈ permitted_types /\
   Qc_arg args = "power_law"%string) /\
  (type self = sed_dependency_type args /\ Qc self = "power_law"%string /\
   _K_unit_time self = K_sp args / 31557600 /\
   _Kt self = K_t args / 31557600 /\
   _porosity self = sediment_density args / rock_density args /\
   _hillslope_sediment_flux_wzeros self = np_zeros (number_of_nodes grid)) /\
  (if String.eqb (type self) "generalized_humped"
   then _sed_flux_fn_gen self = sed_flux_fn_gen_genhump /\
        kappa self = kappa_hump args /\ nu self = nu_hump args /\
        phi self = phi_hump args /\ c self = c_hump args /\
        (sampled_max_val genhump (kappa self) (nu self) (c self) (phi self) =? 0)
        = false /\
        norm self
        = 1 / sampled_max_val genhump (kappa self) (nu self) (c self) (phi self)
   else _sed_flux_fn_gen self <> sed_flux_fn_gen_genhump /\
        kappa self = 0 /\ nu self = 0 /\ phi self = 0 /\ c self = 0 /\
        norm self = 0).
Proof.
  unfold __init__. case_decide as Hlen; [discriminate|].
  destruct (existsb _ permitted_types) eqn:Hperm; [|discriminate].
  cbv zeta. cbn [negb].
  assert (sed_dependency_type args ∈ permitted_types) as Hin.
  { apply existsb_exists in Hperm as (t & Ht & Heq).
    apply String.eqb_eq in Heq as ->. by apply list_elem_of_In. }
  assert (length (flow__receiver_node grid) = number_of_nodes grid) as Hlen'
    by lia.
  unfold set_sed_flux_fn_gen.
  destruct (String.eqb (sed_dependency_type args) "generalized_humped") eqn:Eh.
  - cbv iota.
    remember (sampled_max_val genhump (kappa_hump args) (nu_hump args)
                (c_hump args) (phi_hump args)) as max_val eqn:Emax.
    destruct (max_val =? 0) eqn:Ez; [discriminate|].
    destruct (String.eqb (Qc_arg args) "MPM"); [discriminate|].
    destruct (String.eqb (Qc_arg args) "power_law") eqn:EQ; [|discriminate].
    apply String.eqb_eq in EQ.
    intros [= <-]. cbn [type Qc _K_unit_time _Kt _porosity
                        _hillslope_sediment_flux_wzeros _sed_flux_fn_gen
                        kappa nu phi c norm].
    rewrite Eh, <- Emax. clear Emax.
    repeat split; try reflexivity; try assumption.
  - cbv iota.
    assert (exists fn, fn <> sed_flux_fn_gen_genhump /\
            (if String.eqb (sed_dependency_type args) "None"
             then inr (Some sed_flux_fn_gen_const, 0)
             else if String.eqb (sed_dependency_type args) "linear_decline"
             then inr (Some sed_flux_fn_gen_lindecl, 0)
             else if String.eqb (sed_dependency_type args) "almost_parabolic"
             then inr (Some sed_flux_fn_gen_almostparabolic, 0)
             else inr (None, 0))
            = (inr (Some fn, 0) : exception + option sed_flux_fn * float))
      as (fn & Hfn & ->).
    { repeat apply elem_of_cons in Hin as [Hin|Hin].
      - rewrite Hin in Eh. discriminate.
      - rewrite Hin. by exists sed_flux_fn_gen_const.
      - rewrite Hin. by exists sed_flux_fn_gen_lindecl.
      - rewrite Hin. by exists sed_flux_fn_gen_almostparabolic.
      - by apply elem_of_nil in Hin. }
    destruct (String.eqb (Qc_arg args) "MPM"); [discriminate|].
    destruct (String.eqb (Qc_arg args) "power_law") eqn:EQ; [|discriminate].
    apply String.eqb_eq in EQ.
    intros [= <-]. cbn [type Qc _K_unit_time _Kt _porosity
                        _hillslope_sediment_flux_wzeros _sed_flux_fn_gen
                        kappa nu phi c norm].
    rewrite Eh.
    repeat split; try reflexivity; try assumption.
Qed.

Lemma init_postconditions_witness :
  Qc unit_component = "power_law"%string /\
  _K_unit_time unit_component = K_sp (example_args 1e-4 1 1) / 31557600.
Proof.
  refine (let H := init_postconditions curve_not_evaluated small_mean tilted_grid
                     (example_args 1e-4 1 1) unit_component _ in
          conj (proj1 (proj2 (proj1 (proj2 H))))
               (proj1 (proj2 (proj2 (proj1 (proj2 H)))))).
  vm_compute. reflexivity.
Defined.

Lemma foldl_pymax_negative (f : float -> float) (l : ndarray) :
  (forall x, x ∈ l -> (f x <? 0) = true) ->
  foldl (fun max_val i => pymax (f i) max_val) 0 l = 0.
Proof.
  induction l as [|x l IH]; intros Hneg; [done|].
  simpl. unfold pymax at 2. rewrite (Hneg x) by apply list_elem_of_here.
  apply IH. intros y Hy. apply Hneg. by apply list_elem_of_further.
Qed.

(** X10.  The normalization of the humped response starts its running
    maximum at [0.]: when the curve is negative at each of the 1001 samples
    the maximum stays [0.] and [__init__] raises [ZeroDivisionError] from
    [1./max_val]. *)
Theorem init_raises_on_negative_hump genhump np_mean grid args :
  length (flow__receiver_node grid) = number_of_nodes grid ->
  sed_dependency_type args = "generalized_humped"%string ->
  (forall x, x ∈ np_arange_0_1001 ->
     (genhump x (kappa_hump args) (nu_hump args) (c_hump args) (phi_hump args) 1
      <? 0) = true) ->
  __init__ genhump np_mean grid args = inl ZeroDivisionError.
Proof.
  intros Hlen Htype Hneg. unfold __init__.
  rewrite decide_False by (intros Hne; by apply Hne).
  rewrite Htype.
  change (negb (existsb (String.eqb "generalized_humped") permitted_types))
    with false.
  change (String.eqb "generalized_humped" "generalized_humped") with true.
  cbv iota. cbv zeta.
  unfold set_sed_flux_fn_gen.
  change (String.eqb "generalized_humped" "generalized_humped") with true.
  cbv iota. unfold sampled_max_val.
  rewrite (foldl_pymax_negative
             (fun i => genhump i (kappa_hump args) (nu_hump args) (c_hump args)
                         (phi_hump args) 1)) by done.
  reflexivity.
Qed.

Lemma init_raises_on_negative_hump_witness :
  __init__ level_hump small_mean tilted_grid sinking_hump_args
  = inl ZeroDivisionError.
Proof.
  apply (init_raises_on_negative_hump level_hump small_mean tilted_grid
           sinking_hump_args); [reflexivity|reflexivity|].
  intros x _. reflexivity.
Defined.

(** *** The order of float64 *)

Lemma SFcompare_antisym x y :
  SFcompare y x = option_map CompOpp (SFcompare x y).
Proof.
  destruct x as [[]|[]| |[] mx ex], y as [[]|[]| |[] my ey]; try reflexivity;
    simpl; rewrite (Z.compare_antisym ex ey);
    destruct (ex ?= ey)%Z; simpl; try reflexivity;
    rewrite <- (Pos.compare_cont_antisym _ _ Eq); simpl;
    by destruct (Pos.compare_cont Eq mx my).
Qed.

Lemma SFcompare_refl x : x <> S754_nan -> SFcompare x x = Some Eq.
Proof.
  destruct x as [[]|[]| |[] mx ex]; try done; intros _; simpl;
    by rewrite Z.compare_refl, Pos.compare_cont_refl.
Qed.

Lemma not_nan_spec x : is_nan x = false -> Prim2SF x <> S754_nan.
Proof.
  unfold is_nan. rewrite FloatAxioms.eqb_spec. intros H E. rewrite E in H.
  discriminate.
Qed.

Lemma ltb_leb x y : (x <? y) = true -> (x <=? y) = true.
Proof.
  rewrite FloatAxioms.ltb_spec, FloatAxioms.leb_spec. unfold SFltb, SFleb.
  by destruct (SFcompare _ _) as [[]|].
Qed.

Lemma leb_refl x : is_nan x = false -> (x <=? x) = true.
Proof.
  intros H. rewrite FloatAxioms.leb_spec. unfold SFleb.
  by rewrite SFcompare_refl by by apply not_nan_spec.
Qed.

Lemma SFcompare_defined x y :
  x <> S754_nan -> y <> S754_nan -> is_Some (SFcompare x y).
Proof.
  destruct x as [[]|[]| |[] mx ex], y as [[]|[]| |[] my ey]; try done;
    intros _ _; simpl; eauto.
Qed.

Lemma not_ltb_leb x y :
  is_nan x = false -> is_nan y = false -> (y <? x) = false -> (x <=? y) = true.
Proof.
  intros Hx Hy. rewrite FloatAxioms.ltb_spec, FloatAxioms.leb_spec.
  unfold SFltb, SFleb. rewrite (SFcompare_antisym (Prim2SF x) (Prim2SF y)).
  destruct (SFcompare_defined (Prim2SF x) (Prim2SF y)) as [c ->];
    [by apply not_nan_spec|by apply not_nan_spec|].
  by destruct c.
Qed.

Lemma ltb_asym x y : (x <? y) = true -> (y <? x) = false.
Proof.
  rewrite !FloatAxioms.ltb_spec. unfold SFltb.
  rewrite (SFcompare_antisym (Prim2SF x) (Prim2SF y)).
  by destruct (SFcompare _ _) as [[]|].
Qed.

Lemma add_comm x y : x + y = y + x.
Proof.
  apply Prim2SF_inj. rewrite !FloatAxioms.add_spec. unfold SF64add, SFadd.
  destruct (Prim2SF x) as [[]|[]| |[] mx ex], (Prim2SF y) as [[]|[]| |[] my ey];
    try reflexivity; by rewrite Z.min_comm, Z.add_comm.
Qed.

(** A product with zero is a zero or NaN, and so is its negation. *)
Lemma mul_zero_zero_or_nan x : zero_or_nan (x * 0) = true.
Proof.
  unfold zero_or_nan. rewrite FloatAxioms.mul_spec.
  change (Prim2SF 0) with (S754_zero false). unfold SF64mul, SFmul.
  by destruct (Prim2SF x) as [[]|[]| |[] mx ex].
Qed.

Lemma opp_zero_or_nan x : zero_or_nan x = true -> zero_or_nan (- x) = true.
Proof.
  unfold zero_or_nan. rewrite FloatAxioms.opp_spec.
  by destruct (Prim2SF x) as [[]|[]| |[] mx ex].
Qed.

Lemma zero_or_nan_unsigned x :
  zero_or_nan x = true -> (x <? 0) = false /\ (0 <? x) = false.
Proof.
  unfold zero_or_nan. rewrite !FloatAxioms.ltb_spec.
  change (Prim2SF 0) with (S754_zero false).
  by destruct (Prim2SF x) as [[]|[]| |[] mx ex].
Qed.

Lemma zero_or_nan_over_zero x : zero_or_nan x = true -> is_nan (x / 0) = true.
Proof.
  unfold zero_or_nan, is_nan. rewrite FloatAxioms.eqb_spec, FloatAxioms.div_spec.
  change (Prim2SF 0) with (S754_zero false). unfold SF64div, SFdiv.
  by destruct (Prim2SF x) as [[]|[]| |[] mx ex].
Qed.

(** *** Mapping node values to links *)

(** A buffer of the right size, or none, receives the values as they are. *)
Lemma assign_out_fits out size (vals : ndarray) :
  length vals = size ->
  from_option (fun buffer : ndarray => length buffer = size) True out ->
  assign_out out size vals = inr vals.
Proof.
  intros Hvals Hout. unfold assign_out.
  destruct out as [buffer|]; simpl in Hout; rewrite decide_True; done || congruence.
Qed.

Lemma np_minimum_cases h t :
  is_nan h = false -> is_nan t = false ->
  (np_minimum h t = h \/ np_minimum h t = t) /\
  (np_minimum h t <=? h) = true /\ (np_minimum h t <=? t) = true.
Proof.
  intros Hh Ht. unfold np_minimum. rewrite Hh, Ht.
  destruct (t <? h) eqn:E.
  - split; [by right|]. split; [by apply ltb_leb|by apply leb_refl].
  - split; [by left|]. split; [by apply leb_refl|by apply not_ltb_leb].
Qed.

Lemma np_maximum_cases h t :
  is_nan h = false -> is_nan t = false ->
  (np_maximum h t = h \/ np_maximum h t = t) /\
  (h <=? np_maximum h t) = true /\ (t <=? np_maximum h t) = true.
Proof.
  intros Hh Ht. unfold np_maximum. rewrite Hh, Ht.
  destruct (h <? t) eqn:E.
  - split; [by right|]. split; [by apply ltb_leb|by apply leb_refl].
  - split; [by left|]. split; [by apply leb_refl|by apply not_ltb_leb].
Qed.

Lemma np_minimum_below_maximum h t :
  is_nan h = false -> is_nan t = false ->
  (np_minimum h t <=? np_maximum h t) = true.
Proof.
  intros Hh Ht. unfold np_minimum, np_maximum. rewrite Hh, Ht.
  destruct (t <? h) eqn:E1.
  - rewrite (ltb_asym _ _ E1). by apply ltb_leb.
  - destruct (h <? t) eqn:E2; [by apply ltb_leb|by apply leb_refl].
Qed.

Lemma gather_zip_lookup (f : float -> float -> float) (values : ndarray)
    (heads tails : list nat) l nh nt :
  heads !! l = Some nh -> tails !! l = Some nt ->
  zip_with f (gather values heads) (gather values tails) !! l
  = Some (f (getf values nh) (getf values nt)).
Proof.
  intros Hh Ht. unfold gather.
  by rewrite lookup_zip_with, !list_lookup_fmap, Hh, Ht.
Qed.

(** X11.  On a grid whose head and tail arrays have one entry per link, and
    with no buffer or one of that size, [map_min_of_link_nodes_to_link] and
    [map_max_of_link_nodes_to_link] return at every link whose two end values
    are not NaN one of those two values each, the minimum below both ends,
    the maximum above both, and the minimum below the maximum. *)
Theorem link_min_and_max_bracket_the_ends links var_name out values l nh nt :
  lookup_array var_name (at_node links) = Some values ->
  length (node_at_link_head links) = number_of_links links ->
  length (node_at_link_tail links) = number_of_links links ->
  from_option (fun buffer : ndarray => length buffer = number_of_links links)
    True out ->
  node_at_link_head links !! l = Some nh ->
  node_at_link_tail links !! l = Some nt ->
  is_nan (getf values nh) = false ->
  is_nan (getf values nt) = false ->
  exists mins maxs lo hi,
    map_min_of_link_nodes_to_link links var_name out = inr mins /\
    map_max_of_link_nodes_to_link links var_name out = inr maxs /\
    mins !! l = Some lo /\ maxs !! l = Some hi /\
    (lo = getf values nh \/ lo = getf values nt) /\
    (hi = getf values nh \/ hi = getf values nt) /\
    (lo <=? getf values nh) = true /\ (lo <=? getf values nt) = true /\
    (getf values nh <=? hi) = true /\ (getf values nt <=? hi) = true /\
    (lo <=? hi) = true.
Proof.
  intros Hvalues Hheads Htails Hout Hnh Hnt Hh Ht.
  unfold map_min_of_link_nodes_to_link, map_max_of_link_nodes_to_link.
  rewrite Hvalues.
  rewrite !assign_out_fits; try done;
    try (unfold gather; rewrite length_zip_with, !length_fmap; lia).
  eexists _, _, _, _. split; [reflexivity|]. split; [reflexivity|].
  split; [by apply gather_zip_lookup|]. split; [by apply gather_zip_lookup|].
  destruct (np_minimum_cases _ _ Hh Ht) as (? & ? & ?).
  destruct (np_maximum_cases _ _ Hh Ht) as (? & ? & ?).
  repeat split; try done. by apply np_minimum_below_maximum.
Qed.

Lemma np_where3_gather (test : float -> float -> bool) (values : ndarray)
    (heads tails : list nat) :
  np_where3 (zip_with test (gather values tails) (gather values heads))
    (gather values tails) (gather values heads)
  = zip_with (fun h t => if test t h then t else h)
      (gather values heads) (gather values tails).
Proof.
  unfold gather. revert tails.
  induction heads as [|nh heads IH]; intros [|nt tails]; try done.
  simpl. by rewrite IH.
Qed.

(** X12.  With the same field as control and as value,
    [map_value_at_min_node_to_link] is [map_min_of_link_nodes_to_link] and
    [map_value_at_max_node_to_link] is [map_max_of_link_nodes_to_link],
    whatever the buffer, as long as no link end carries a NaN (the first
    pair picks with [np.where] on a comparison, which is false on NaN; the
    second propagates NaN). *)
Theorem value_at_extreme_node_is_the_extreme links var_name out values :
  lookup_array var_name (at_node links) = Some values ->
  (forall n, n ∈ node_at_link_head links \/ n ∈ node_at_link_tail links ->
             is_nan (getf values n) = false) ->
  map_value_at_min_node_to_link links var_name var_name out
  = map_min_of_link_nodes_to_link links var_name out /\
  map_value_at_max_node_to_link links var_name var_name out
  = map_max_of_link_nodes_to_link links var_name out.
Proof.
  intros Hvalues Hnan.
  unfold map_value_at_min_node_to_link, map_value_at_max_node_to_link,
    map_min_of_link_nodes_to_link, map_max_of_link_nodes_to_link.
  rewrite Hvalues. cbv zeta.
  rewrite (np_where3_gather (fun t h => t <? h)),
    (np_where3_gather (fun t h => h <? t)).
  assert (forall f g : float -> float -> float,
            (forall nh nt, nh ∈ node_at_link_head links ->
                           nt ∈ node_at_link_tail links ->
                           f (getf values nh) (getf values nt)
                           = g (getf values nh) (getf values nt)) ->
            zip_with f (gather values (node_at_link_head links))
              (gather values (node_at_link_tail links))
            = zip_with g (gather values (node_at_link_head links))
                (gather values (node_at_link_tail links))) as Hext.
  { intros f g Hfg. apply list_eq. intros l. unfold gather.
    rewrite !lookup_zip_with, !list_lookup_fmap.
    destruct (node_at_link_head links !! l) as [nh|] eqn:Eh; [|done].
    destruct (node_at_link_tail links !! l) as [nt|] eqn:Et; [|done].
    simpl. f_equal. apply Hfg; by eapply list_elem_of_lookup_2. }
  split; f_equal; apply Hext; intros nh nt Hnh Hnt;
    unfold np_minimum, np_maximum;
    by rewrite (Hnan nh), (Hnan nt) by auto.
Qed.

(** X13.  Turning every link round swaps what [map_link_head_node_to_link]
    and [map_link_tail_node_to_link] return and leaves
    [map_mean_of_link_nodes_to_link] as it is, bit for bit, errors
    included. *)
Theorem link_mean_ignores_direction links var_name out :
  map_mean_of_link_nodes_to_link (reverse_links links) var_name out
  = map_mean_of_link_nodes_to_link links var_name out /\
  map_link_head_node_to_link (reverse_links links) var_name out
  = map_link_tail_node_to_link links var_name out /\
  map_link_tail_node_to_link (reverse_links links) var_name out
  = map_link_head_node_to_link links var_name out.
Proof.
  split; [|done].
  unfold map_mean_of_link_nodes_to_link. simpl.
  destruct (lookup_array var_name (at_node links)) as [values|]; [|done].
  f_equal. apply list_eq. intros l. rewrite !lookup_zip_with.
  destruct (gather values (node_at_link_tail links) !! l) as [t|];
    destruct (gather values (node_at_link_head links) !! l) as [h|]; try done.
  simpl. by rewrite (add_comm t h).
Qed.

(** *** Flags of the links at a node *)

Lemma at_row_col_map_rows {A B} (f : A -> B) (rows : list (list A)) i j :
  at_row_col (map_rows f rows) i j = f <$> at_row_col rows i j.
Proof.
  unfold at_row_col, map_rows. rewrite list_lookup_fmap.
  destruct (rows !! i) as [row|]; [|done]. simpl. by rewrite list_lookup_fmap.
Qed.

Lemma at_row_col_zip_with {A B C} (f : A -> B -> C)
    (rows1 : list (list A)) (rows2 : list (list B)) i j :
  at_row_col (zip_with (zip_with f) rows1 rows2) i j
  = match at_row_col rows1 i j, at_row_col rows2 i j with
    | Some x, Some y => Some (f x y)
    | _, _ => None
    end.
Proof.
  unfold at_row_col. rewrite lookup_zip_with.
  destruct (rows1 !! i) as [row1|]; [|done]. simpl.
  destruct (rows2 !! i) as [row2|]; simpl.
  - rewrite lookup_zip_with. destruct (row1 !! j); [|done]. simpl.
    by destruct (row2 !! j).
  - by destruct (row1 !! j).
Qed.

(** X14.  No slot is flagged by both [link_at_node_is_upwind] and
    [link_at_node_is_downwind]; and a slot whose direction is 0, which holds
    no link and reads the value of the last link through its id -1, is
    flagged by neither, whatever that value is. *)
Theorem link_flags_are_exclusive links var_name up down i j :
  link_at_node_is_upwind links var_name None = inr up ->
  link_at_node_is_downwind links var_name None = inr down ->
  (at_row_col up i j = Some true -> at_row_col down i j = Some false) /\
  (at_row_col down i j = Some true -> at_row_col up i j = Some false) /\
  (at_row_col (link_dirs_at_node links) i j = Some 0%Z ->
   at_row_col up i j <> Some true /\ at_row_col down i j <> Some true).
Proof.
  unfold link_at_node_is_upwind, link_at_node_is_downwind.
  destruct (lookup_array var_name (at_link links)) as [values|]; [|done].
  intros [= <-] [= <-]. rewrite !at_row_col_map_rows.
  unfold values_at_links. rewrite at_row_col_zip_with.
  destruct (at_row_col (links_at_node links) i j) as [l|]; [|done].
  destruct (at_row_col (link_dirs_at_node links) i j) as [d|]; [|done].
  simpl. split; [|split].
  - intros [= H]. by rewrite (ltb_asym _ _ H).
  - intros [= H]. by rewrite (ltb_asym _ _ H).
  - intros [= ->]. change (float_of_Z 0) with 0.
    destruct (zero_or_nan_unsigned _ (mul_zero_zero_or_nan (np_take values l)))
      as [-> ->].
    done.
Qed.

(** *** Link ids in upwind order *)

Lemma np_min_nat_spec (a : list nat) c :
  np_min_nat a = Some c -> c ∈ a /\ Forall (fun x => (c <= x)%nat) a.
Proof.
  destruct a as [|x a]; [done|]. intros [= <-]. revert x.
  induction a as [|y a IH]; intros x; simpl.
  - split; [apply list_elem_of_here|]. by repeat constructor.
  - destruct (IH (x `min` y)%nat) as [Hin Hall]. split.
    + apply elem_of_cons in Hin as [->|Hin].
      * destruct (Nat.min_spec x y) as [[_ ->]|[_ ->]];
          [apply list_elem_of_here|apply list_elem_of_further, list_elem_of_here].
      * by do 2 apply list_elem_of_further.
    + apply Forall_cons in Hall as [Hxy Hall]. repeat constructor; lia || idtac.
      eapply Forall_impl; [exact Hall|]. simpl. lia.
Qed.

Lemma np_min_nat_zero (a : list nat) : 0%nat ∈ a -> np_min_nat a = Some 0%nat.
Proof.
  intros Hin. destruct a as [|x a]; [by apply elem_of_nil in Hin|].
  destruct (np_min_nat (x :: a)) as [c|] eqn:E; [|done].
  apply np_min_nat_spec in E as [_ Hall].
  rewrite Forall_forall in Hall. specialize (Hall _ Hin). f_equal. lia.
Qed.

Lemma count_true_all_false (row : list bool) :
  Forall (fun q => q = false) row -> count_true row = 0%nat.
Proof.
  unfold count_true. induction 1 as [|q row -> _ IH]; [done|].
  by rewrite filter_cons_False.
Qed.

(** The entries of a row of [unordered_IDs]. *)
Lemma unordered_ids_all_wanted (wanted : float -> bool) (vs : ndarray)
    (ls : list Z) (bad_index : Z) :
  Forall (fun v => wanted v = true) vs -> bad_index ∉ ls ->
  Forall (fun q => q = false)
    ((fun id => (id =? bad_index)%Z)
       <$> zip_with (fun v l => if wanted v then l else bad_index) vs ls).
Proof.
  intros Hvs. revert ls. induction Hvs as [|v vs Hv _ IH]; intros [|l ls] Hbad;
    try constructor.
  - simpl. rewrite Hv. apply Z.eqb_neq. intros ->. apply Hbad, list_elem_of_here.
  - apply IH. intros Hin. by apply Hbad, list_elem_of_further.
Qed.

Lemma ordered_link_ids_zero_width (wanted : float -> bool) grid links var_name
    bad_index values i vs ls :
  lookup_array var_name (at_link links) = Some values ->
  values_at_links links values !! i = Some vs ->
  links_at_node links !! i = Some ls ->
  Forall (fun v => wanted v = true) vs ->
  bad_index ∉ ls ->
  exists rows,
    ordered_link_ids wanted grid links var_name bad_index = inr rows /\
    Forall (fun row => row = []) rows.
Proof.
  intros Hvalues Hvs Hls Hall Hbad. unfold ordered_link_ids. rewrite Hvalues.
  cbv zeta. rewrite np_min_nat_zero.
  - eexists. split; [reflexivity|]. apply Forall_fmap, Forall_true. done.
  - apply list_elem_of_fmap. eexists. split; [|apply list_elem_of_fmap; eexists; split;
      [reflexivity|]].
    2:{ eapply list_elem_of_lookup_2. rewrite lookup_zip_with, Hvs, Hls. reflexivity. }
    symmetry. apply count_true_all_false. by apply unordered_ids_all_wanted.
Qed.

(** X15.  [big_ordered_array[:, :-cols_to_cut]] with [cols_to_cut = 0] is
    the empty slice: as soon as one node has all its slots flagged (and none
    of its link ids is [bad_index]), [upwind_links_at_node], respectively
    [downwind_links_at_node], returns an array without columns, for every
    node. *)
Theorem links_at_node_vanish_at_a_full_node grid links var_name bad_index flags i
    row ls :
  links_at_node links !! i = Some ls ->
  bad_index ∉ ls ->
  (link_at_node_is_upwind links var_name None = inr flags ->
   flags !! i = Some row -> Forall (fun q => q = true) row ->
   exists rows,
     upwind_links_at_node grid links var_name bad_index = inr rows /\
     Forall (fun r => r = []) rows) /\
  (link_at_node_is_downwind links var_name None = inr flags ->
   flags !! i = Some row -> Forall (fun q => q = true) row ->
   exists rows,
     downwind_links_at_node grid links var_name bad_index = inr rows /\
     Forall (fun r => r = []) rows).
Proof.
  intros Hls Hbad.
  unfold link_at_node_is_upwind, link_at_node_is_downwind.
  destruct (lookup_array var_name (at_link links)) as [values|] eqn:Hvalues;
    [|by split].
  split; intros [= <-] Hrow Hall; unfold map_rows in Hrow;
    rewrite list_lookup_fmap in Hrow;
    destruct (values_at_links links values !! i) as [vs|] eqn:Hvs; try done;
    injection Hrow as <-; apply Forall_fmap in Hall;
    by eapply ordered_link_ids_zero_width.
Qed.

(** [a.ravel()[j + n*i]] is [a[i, j]] when every row has [n] entries. *)
Lemma concat_lookup_uniform {A} (rows : list (list A)) (n i j : nat) row :
  Forall (fun r => length r = n) rows ->
  rows !! i = Some row -> (j < n)%nat ->
  concat rows !! (j + n * i)%nat = row !! j.
Proof.
  intros Hall. revert i. induction Hall as [|r rows Hr _ IH]; intros i Hi Hj;
    [done|].
  destruct i as [|i]; simpl in Hi.
  - injection Hi as ->. simpl. rewrite Nat.mul_0_r, Nat.add_0_r.
    apply lookup_app_l. lia.
  - simpl. rewrite lookup_app_r by lia.
    replace (j + n * S i - length r)%nat with (j + n * i)%nat by lia.
    by apply IH.
Qed.

(** Reading a row at the positions [np.where] selects gives the selected
    entries, in order. *)
Lemma gather_np_where_offset {A} (P : A -> bool) (d : A) (pre u : list A) :
  (fun j => default d ((pre ++ u) !! j))
    <$> filter (fun i => (P <$> (pre ++ u)) !! i = Some true)
          (seq (length pre) (length u))
  = filter (fun x => P x = true) u.
Proof.
  revert pre. induction u as [|x u IH]; intros pre; [done|].
  simpl. rewrite !filter_cons.
  assert ((pre ++ x :: u) !! length pre = Some x) as Hx.
  { rewrite lookup_app_r by lia. by rewrite Nat.sub_diag. }
  rewrite list_lookup_fmap, Hx. simpl.
  specialize (IH (pre ++ [x])). rewrite length_app in IH. simpl in IH.
  rewrite Nat.add_1_r, <- app_assoc in IH. simpl in IH.
  destruct (P x) eqn:E.
  - rewrite decide_True by done. rewrite decide_True by done.
    simpl. rewrite Hx. simpl. f_equal. apply IH.
  - rewrite decide_False by (intros [=]). rewrite decide_False by done.
    apply IH.
Qed.

Lemma gather_np_where {A} (P : A -> bool) (d : A) (u : list A) :
  (fun j => default d (u !! j)) <$> np_where (P <$> u)
  = filter (fun x => P x = true) u.
Proof.
  unfold np_where. rewrite length_fmap.
  apply (gather_np_where_offset P d [] u).
Qed.

Lemma np_where_bound (mask : list bool) j :
  j ∈ np_where mask -> (j < length mask)%nat.
Proof.
  unfold np_where. rewrite list_elem_of_filter, elem_of_seq. lia.
Qed.

Lemma argsort_bool_bound (row : list bool) j :
  j ∈ argsort_bool row -> (j < length row)%nat.
Proof.
  unfold argsort_bool. rewrite elem_of_app. intros [H|H];
    apply np_where_bound in H; by rewrite ?length_fmap in H.
Qed.

(** A row of [big_ordered_array]: the ids that are not [bad_index], in slot
    order, then the others. *)
Lemma sorted_row (bad_index : Z) (rows : list (list Z)) (n i : nat) (u : list Z) :
  Forall (fun r => length r = n) rows ->
  rows !! i = Some u ->
  (fun k => default 0%Z (concat rows !! k))
    <$> ((fun j => (j + n * i)%nat)
           <$> argsort_bool ((fun id => (id =? bad_index)%Z) <$> u))
  = filter (fun id => negb (id =? bad_index)%Z = true) u
    ++ filter (fun id => (id =? bad_index)%Z = true) u.
Proof.
  intros Hall Hu.
  assert (length u = n) as Hlen.
  { rewrite Forall_forall in Hall. apply Hall. by eapply list_elem_of_lookup_2. }
  rewrite <- list_fmap_compose.
  rewrite (Forall_fmap_ext_1 _ (fun j => default 0%Z (u !! j))).
  2:{ apply Forall_forall. intros j Hj. apply argsort_bool_bound in Hj.
      rewrite length_fmap in Hj.
      simpl. by rewrite (concat_lookup_uniform rows n i j u) by (done || lia). }
  unfold argsort_bool. rewrite fmap_app. f_equal.
  - rewrite <- list_fmap_compose.
    apply (gather_np_where (fun id => negb (id =? bad_index)%Z) 0%Z u).
  - apply (gather_np_where (fun id => (id =? bad_index)%Z) 0%Z u).
Qed.

Lemma filter_bad_is_padding (bad_index : Z) (u : list Z) :
  filter (fun id => (id =? bad_index)%Z = true) u
  = replicate (count_true ((fun id => (id =? bad_index)%Z) <$> u)) bad_index.
Proof.
  unfold count_true. induction u as [|x u IH]; [done|].
  rewrite fmap_cons, !filter_cons. destruct (x =? bad_index)%Z eqn:E.
  - rewrite !decide_True by done. apply Z.eqb_eq in E as ->. simpl. by rewrite IH.
  - rewrite !decide_False by done. done.
Qed.

Lemma filter_good_and_bad_length (bad_index : Z) (u : list Z) :
  (length (filter (fun id => negb (id =? bad_index)%Z = true) u)
   + count_true ((fun id => (id =? bad_index)%Z) <$> u) = length u)%nat.
Proof.
  unfold count_true. induction u as [|x u IH]; [done|].
  rewrite fmap_cons, !filter_cons. destruct (x =? bad_index)%Z eqn:E.
  - rewrite decide_False by done. rewrite decide_True by done. simpl. lia.
  - rewrite decide_True by done. rewrite decide_False by done. simpl. lia.
Qed.

(** The ids of a row of [unordered_IDs] that are kept are those of the
    wanted slots. *)
Lemma unordered_ids_kept (wanted : float -> bool) (bad_index : Z) (vs : ndarray)
    (ls : list Z) :
  (forall j v l, vs !! j = Some v -> ls !! j = Some l -> wanted v = true ->
                 l <> bad_index) ->
  filter (fun id => negb (id =? bad_index)%Z = true)
    (zip_with (fun v l => if wanted v then l else bad_index) vs ls)
  = mask_select (wanted <$> vs) ls.
Proof.
  revert ls. induction vs as [|v vs IH]; intros [|l ls] Hgood; try done.
  simpl. rewrite filter_cons. destruct (wanted v) eqn:E.
  - rewrite decide_True.
    + f_equal. apply IH. intros j. apply (Hgood (S j)).
    + apply negb_true_iff, Z.eqb_neq. by apply (Hgood 0%nat v l).
  - rewrite Z.eqb_refl. rewrite decide_False by done.
    apply IH. intros j. apply (Hgood (S j)).
Qed.

Lemma slice_to_minus_padding (c nb : nat) (good : list Z) (bad_index : Z) :
  (0 < c <= nb)%nat ->
  slice_to_minus c (good ++ replicate nb bad_index)
  = good ++ replicate (nb - c) bad_index.
Proof.
  intros Hc. unfold slice_to_minus. destruct c as [|c]; [lia|].
  rewrite length_app, length_replicate.
  rewrite take_app_ge by lia. f_equal.
  rewrite take_replicate. f_equal. lia.
Qed.

Lemma count_true_positive (row : list bool) :
  true ∈ row -> (0 < count_true row)%nat.
Proof.
  unfold count_true. intros Hin.
  assert (true ∈ filter (fun q => q = true) row) as Hin'
    by by apply list_elem_of_filter.
  destruct (filter _ row); [by apply elem_of_nil in Hin'|simpl; lia].
Qed.

Lemma values_at_links_rows grid links values :
  link_table_ok grid links ->
  length (values_at_links links values) = number_of_nodes grid /\
  Forall (fun row => length row = shape_1 (links_at_node links))
    (values_at_links links values).
Proof.
  intros (Hl & Hd & Hls & Hds). unfold values_at_links. split.
  - rewrite length_zip_with. lia.
  - apply Forall_forall. intros row Hrow.
    apply list_elem_of_lookup in Hrow as [i Hi].
    apply lookup_zip_with_Some in Hi as (ls & ds & -> & Hi1 & Hi2).
    rewrite Forall_forall in Hls, Hds.
    rewrite length_zip_with, (Hls ls), (Hds ds);
      [lia|by eapply list_elem_of_lookup_2|by eapply list_elem_of_lookup_2].
Qed.

(** What [ordered_link_ids] returns when every node has a slot that is not
    wanted. *)
Lemma ordered_link_ids_rows (wanted : float -> bool) grid links var_name
    bad_index values :
  link_table_ok grid links ->
  (0 < number_of_nodes grid)%nat ->
  lookup_array var_name (at_link links) = Some values ->
  (forall vs, vs ∈ values_at_links links values ->
              exists v, v ∈ vs /\ wanted v = false) ->
  (forall i vs ls j v l,
     values_at_links links values !! i = Some vs ->
     links_at_node links !! i = Some ls ->
     vs !! j = Some v -> ls !! j = Some l -> wanted v = true -> l <> bad_index) ->
  exists rows width,
    ordered_link_ids wanted grid links var_name bad_index = inr rows /\
    length rows = number_of_nodes grid /\
    (forall i vs ls,
       values_at_links links values !! i = Some vs ->
       links_at_node links !! i = Some ls ->
       exists pad,
         rows !! i
         = Some (mask_select (wanted <$> vs) ls ++ replicate pad bad_index) /\
         (length (mask_select (wanted <$> vs) ls) + pad = width)%nat) /\
    (exists i vs ls,
       values_at_links links values !! i = Some vs /\
       links_at_node links !! i = Some ls /\
       length (mask_select (wanted <$> vs) ls) = width).
Proof.
  intros Hok Hpos Hvalues Hunwanted Hgood.
  destruct (values_at_links_rows grid links values Hok) as [HVlen HVrows].
  destruct Hok as (Hl & Hd & Hls & Hds).
  unfold ordered_link_ids. rewrite Hvalues. cbv zeta.
  set (n := shape_1 (links_at_node links)) in *.
  set (V := values_at_links links values) in *.
  set (U := zip_with (zip_with (fun v l => if wanted v then l else bad_index))
              V (links_at_node links)).
  set (B := map_rows (fun id => (id =? bad_index)%Z) U).
  assert (length U = number_of_nodes grid) as HUlen.
  { unfold U. rewrite length_zip_with. lia. }
  assert (forall i vs ls, V !! i = Some vs -> links_at_node links !! i = Some ls ->
            U !! i = Some (zip_with (fun v l => if wanted v then l else bad_index)
                             vs ls)) as HUrow.
  { intros i vs ls Hvs Hlsi. unfold U. by rewrite lookup_zip_with, Hvs, Hlsi. }
  assert (Forall (fun r => length r = n) U) as HUrows.
  { apply Forall_forall. intros u Hu. apply list_elem_of_lookup in Hu as [i Hi].
    unfold U in Hi. apply lookup_zip_with_Some in Hi as (vs & ls & -> & Hi1 & Hi2).
    rewrite Forall_forall in HVrows. rewrite Forall_forall in Hls.
    rewrite length_zip_with, (HVrows vs), (Hls ls);
      [lia|by eapply list_elem_of_lookup_2|by eapply list_elem_of_lookup_2]. }
  assert (forall i vs ls, V !! i = Some vs -> links_at_node links !! i = Some ls ->
            (0 < count_true ((fun id => (id =? bad_index)%Z)
                               <$> zip_with (fun v l => if wanted v then l else bad_index)
                                     vs ls))%nat) as Hcount.
  { intros i vs ls Hvs Hlsi. apply count_true_positive.
    destruct (Hunwanted vs) as (v & Hv & Hw); [by eapply list_elem_of_lookup_2|].
    apply list_elem_of_lookup in Hv as [j Hj].
    destruct (lookup_lt_is_Some_2 ls j) as [l Hlj].
    { rewrite Forall_forall in HVrows. rewrite Forall_forall in Hls.
      rewrite (Hls ls) by by eapply list_elem_of_lookup_2.
      rewrite <- (HVrows vs) by by eapply list_elem_of_lookup_2.
      by eapply lookup_lt_Some. }
    apply list_elem_of_lookup. exists j.
    rewrite list_lookup_fmap, lookup_zip_with, Hj, Hlj. simpl.
    by rewrite Hw, Z.eqb_refl. }
  destruct (np_min_nat (count_true <$> B)) as [c|] eqn:Emin.
  2:{ exfalso. destruct B eqn:EB; [|done].
      assert (length B = number_of_nodes grid) as HB
        by (unfold B, map_rows; by rewrite length_fmap).
      rewrite EB in HB. simpl in HB. lia. }
  apply np_min_nat_spec in Emin as [Hcin Hcmin].
  apply list_elem_of_fmap in Hcin as (b0 & Hc0 & Hb0).
  apply list_elem_of_lookup in Hb0 as [i0 Hi0].
  unfold B, map_rows in Hi0. rewrite list_lookup_fmap in Hi0.
  destruct (U !! i0) as [u0|] eqn:Eu0; [|done]. injection Hi0 as <-.
  pose proof Eu0 as Eu0'. unfold U in Eu0'.
  apply lookup_zip_with_Some in Eu0' as (vs0 & ls0 & -> & Hvs0 & Hls0).
  assert (0 < c)%nat as Hcpos by (rewrite Hc0; by eapply Hcount).
  assert (forall i vs ls,
            V !! i = Some vs -> links_at_node links !! i = Some ls ->
            (slice_to_minus c
               <$> map_rows (fun k => default 0%Z (concat U !! k))
                     (zip_with (fun row i => (fun j => (j + n * i)%nat) <$> row)
                        (argsort_bool <$> B) (seq 0 (number_of_nodes grid)))) !! i
            = Some (mask_select (wanted <$> vs) ls
                    ++ replicate
                         (count_true ((fun id => (id =? bad_index)%Z)
                            <$> zip_with (fun v l => if wanted v then l else bad_index)
                                  vs ls) - c) bad_index)) as Hrow.
  { intros i vs ls Hvs Hlsi.
    assert (i < number_of_nodes grid)%nat as Hi
      by (rewrite <- HVlen; by eapply lookup_lt_Some).
    unfold map_rows at 1. rewrite !list_lookup_fmap, lookup_zip_with.
    rewrite list_lookup_fmap. unfold B, map_rows.
    rewrite list_lookup_fmap, (HUrow i vs ls Hvs Hlsi). simpl.
    rewrite lookup_seq_lt by done. simpl. f_equal.
    rewrite (sorted_row bad_index U n i _ HUrows (HUrow i vs ls Hvs Hlsi)).
    rewrite filter_bad_is_padding.
    rewrite (unordered_ids_kept wanted bad_index vs ls)
      by (intros j v l; by apply (Hgood i vs ls j v l)).
    apply slice_to_minus_padding. split; [done|].
    rewrite Forall_forall in Hcmin. apply Hcmin.
    apply list_elem_of_fmap. eexists. split; [reflexivity|].
    apply list_elem_of_lookup. exists i. unfold B, map_rows.
    by rewrite list_lookup_fmap, (HUrow i vs ls Hvs Hlsi). }
  eexists _, (n - c)%nat. split; [reflexivity|]. split; [|split].
  - unfold map_rows. rewrite !length_fmap, length_zip_with, length_fmap.
    unfold B, map_rows. rewrite length_fmap, length_seq. lia.
  - intros i vs ls Hvs Hlsi. eexists. split; [by apply Hrow|].
    pose proof (filter_good_and_bad_length bad_index
                  (zip_with (fun v l => if wanted v then l else bad_index) vs ls))
      as Hsum.
    rewrite (unordered_ids_kept wanted bad_index vs ls) in Hsum
      by (intros j v l; by apply (Hgood i vs ls j v l)).
    assert (length (zip_with (fun v l => if wanted v then l else bad_index) vs ls) = n)
      as Hn.
    { rewrite Forall_forall in HUrows. apply HUrows.
      eapply list_elem_of_lookup_2. by apply HUrow. }
    assert (c <= count_true ((fun id => (id =? bad_index)%Z)
                               <$> zip_with (fun v l => if wanted v then l else bad_index)
                                     vs ls))%nat.
    { rewrite Forall_forall in Hcmin. apply Hcmin.
      apply list_elem_of_fmap. eexists. split; [reflexivity|].
      apply list_elem_of_lookup. exists i. unfold B, map_rows.
      by rewrite list_lookup_fmap, (HUrow i vs ls Hvs Hlsi). }
    lia.
  - exists i0, vs0, ls0. split; [done|]. split; [done|].
    pose proof (filter_good_and_bad_length bad_index
                  (zip_with (fun v l => if wanted v then l else bad_index) vs0 ls0))
      as Hsum.
    rewrite (unordered_ids_kept wanted bad_index vs0 ls0) in Hsum
      by (intros j v l; by apply (Hgood i0 vs0 ls0 j v l)).
    assert (length (zip_with (fun v l => if wanted v then l else bad_index) vs0 ls0) = n)
      as Hn.
    { rewrite Forall_forall in HUrows. apply HUrows.
      by eapply list_elem_of_lookup_2. }
    lia.
Qed.

Lemma ordered_link_ids_lists_flagged (wanted : float -> bool) grid links var_name
    bad_index values :
  link_table_ok grid links ->
  (0 < number_of_nodes grid)%nat ->
  lookup_array var_name (at_link links) = Some values ->
  (forall row, row ∈ map_rows wanted (values_at_links links values) -> false ∈ row) ->
  (forall i j,
     at_row_col (map_rows wanted (values_at_links links values)) i j = Some true ->
     at_row_col (links_at_node links) i j <> Some bad_index) ->
  exists rows,
    ordered_link_ids wanted grid links var_name bad_index = inr rows /\
    length rows = number_of_nodes grid /\
    lists_flagged_links (map_rows wanted (values_at_links links values))
      (links_at_node links) bad_index rows.
Proof.
  intros Hok Hpos Hvalues Hfalse Hgood.
  destruct (ordered_link_ids_rows wanted grid links var_name bad_index values)
    as (rows & width & Hrows & Hlen & Hrow & Hfull); try done.
  - intros vs Hvs.
    assert (false ∈ wanted <$> vs) as Hin.
    { apply Hfalse. unfold map_rows. apply list_elem_of_fmap. by exists vs. }
    apply list_elem_of_fmap in Hin as (v & Hv & Hin). by exists v.
  - intros i vs ls j v l Hvs Hls Hv Hl Hw Heq. subst l.
    apply (Hgood i j).
    + unfold at_row_col, map_rows. rewrite list_lookup_fmap, Hvs. simpl.
      by rewrite list_lookup_fmap, Hv, <- Hw.
    + unfold at_row_col. by rewrite Hls.
  - exists rows. split; [done|]. split; [done|]. exists width. split.
    + intros i row ls Hflags Hls. unfold map_rows in Hflags.
      rewrite list_lookup_fmap in Hflags.
      destruct (values_at_links links values !! i) as [vs|] eqn:Hvs; [|done].
      injection Hflags as <-. by apply Hrow.
    + destruct Hfull as (i & vs & ls & Hvs & Hls & Hw).
      exists i, (wanted <$> vs), ls. split; [|done].
      unfold map_rows. by rewrite list_lookup_fmap, Hvs.
Qed.

(** X16.  On a well-formed link table with at least one node, when every
    node has a slot that is not flagged and [bad_index] is not the id of a
    flagged link, [upwind_links_at_node] (and [downwind_links_at_node], with
    its own flags) returns one row per node; each row lists the flagged link
    ids of its node in slot order, followed by [bad_index], and the common
    width is the largest number of flagged links at any node. *)
Theorem links_at_node_list_the_flagged_links grid links var_name bad_index flags :
  link_table_ok grid links ->
  (0 < number_of_nodes grid)%nat ->
  (forall row, row ∈ flags -> false ∈ row) ->
  (forall i j, at_row_col flags i j = Some true ->
               at_row_col (links_at_node links) i j <> Some bad_index) ->
  (link_at_node_is_upwind links var_name None = inr flags ->
   exists rows,
     upwind_links_at_node grid links var_name bad_index = inr rows /\
     length rows = number_of_nodes grid /\
     lists_flagged_links flags (links_at_node links) bad_index rows) /\
  (link_at_node_is_downwind links var_name None = inr flags ->
   exists rows,
     downwind_links_at_node grid links var_name bad_index = inr rows /\
     length rows = number_of_nodes grid /\
     lists_flagged_links flags (links_at_node links) bad_index rows).
Proof.
  intros Hok Hpos Hfalse Hgood.
  unfold link_at_node_is_upwind, link_at_node_is_downwind.
  destruct (lookup_array var_name (at_link links)) as [values|] eqn:Hvalues;
    [|by split].
  split; intros [= <-]; by apply ordered_link_ids_lists_flagged.
Qed.

(** *** Means and picked values at nodes without inflow *)

Lemma ltb_opp v : (0 <? - v) = (v <? 0).
Proof.
  rewrite !FloatAxioms.ltb_spec, FloatAxioms.opp_spec.
  change (Prim2SF 0) with (S754_zero false).
  by destruct (Prim2SF v) as [[]|[]| |[] mx ex].
Qed.

Lemma count_true_none (test : float -> bool) (vs : ndarray) :
  Forall (fun v => test v = false) vs -> count_true (test <$> vs) = 0%nat.
Proof. intros H. apply count_true_all_false. by apply Forall_fmap. Qed.

Lemma masked_products_vanish (test : float -> bool) (vs : ndarray) :
  Forall (fun v => test v = false) vs ->
  Forall (fun x => zero_or_nan x = true)
    (zip_with (fun v (q : bool) => v * (if q then 1 else 0)) vs (test <$> vs)).
Proof.
  induction 1 as [|v vs Hv _ IH]; [constructor|].
  simpl. rewrite Hv. constructor; [apply mul_zero_zero_or_nan|done].
Qed.

Section NodeLinkMeanProperties.

Variable np_sum : ndarray -> float.

(** Whatever order numpy adds in, a sum of zeros and NaNs is a zero or
    NaN. *)
Hypothesis np_sum_of_zeros :
  forall row, Forall (fun x => zero_or_nan x = true) row ->
              zero_or_nan (np_sum row) = true.

Lemma mean_of_positive_none (rows : list (list float)) i vs :
  rows !! i = Some vs ->
  Forall (fun v => (0 <? v) = false) vs ->
  exists x, mean_of_positive np_sum rows !! i = Some x /\ is_nan x = true.
Proof.
  intros Hvs Hnone. unfold mean_of_positive.
  rewrite lookup_zip_with, lookup_zip_with, list_lookup_fmap. unfold map_rows.
  rewrite list_lookup_fmap, Hvs. simpl.
  eexists. split; [reflexivity|].
  rewrite (count_true_none (fun v => 0 <? v)) by done.
  change (float_of_nat 0) with 0.
  apply zero_or_nan_over_zero, np_sum_of_zeros.
  by apply (masked_products_vanish (fun v => 0 <? v)).
Qed.

(** X17.  For any summation whose sum of zeros and NaNs is a zero or NaN:
    at a node none of whose slots is flagged upwind,
    [map_upwind_node_link_mean_to_node] returns exactly 0 (the quotient 0/0
    is NaN, and NaN is replaced), whatever the link values are, infinite
    ones included; likewise downwind; and no entry of either result is
    NaN. *)
Theorem node_link_mean_is_zero_without_links grid links var_name out flags i row :
  link_table_ok grid links ->
  from_option (fun buffer : ndarray => length buffer = number_of_nodes grid)
    True out ->
  flags !! i = Some row ->
  Forall (fun q => q = false) row ->
  (link_at_node_is_upwind links var_name None = inr flags ->
   exists result,
     map_upwind_node_link_mean_to_node np_sum grid links var_name out = inr result /\
     result !! i = Some 0 /\ Forall (fun x => is_nan x = false) result) /\
  (link_at_node_is_downwind links var_name None = inr flags ->
   exists result,
     map_downwind_node_link_mean_to_node np_sum grid links var_name out = inr result /\
     result !! i = Some 0 /\ Forall (fun x => is_nan x = false) result).
Proof.
  intros Hok Hout Hrow Hnone.
  unfold link_at_node_is_upwind, link_at_node_is_downwind,
    map_upwind_node_link_mean_to_node, map_downwind_node_link_mean_to_node.
  destruct (lookup_array var_name (at_link links)) as [values|]; [|by split].
  destruct (values_at_links_rows grid links values Hok) as [HVlen _].
  assert (forall x : float, is_nan (if is_nan x then 0 else x) = false) as Hclean.
  { intros x. by destruct (is_nan x) eqn:E. }
  split; intros [= <-]; cbv zeta; unfold map_rows in Hrow;
    rewrite list_lookup_fmap in Hrow;
    destruct (values_at_links links values !! i) as [vs|] eqn:Hvs; try done;
    injection Hrow as <-; apply Forall_fmap in Hnone.
  - rewrite assign_out_fits; [| |done].
    2:{ unfold mean_of_positive, map_rows.
        rewrite !length_zip_with, !length_fmap. lia. }
    eexists. split; [reflexivity|]. split.
    + destruct (mean_of_positive_none
                  (map_rows (fun v => - v) (values_at_links links values)) i
                  ((fun v => - v) <$> vs)) as (x & Hx & Hnan).
      * unfold map_rows. by rewrite list_lookup_fmap, Hvs.
      * apply Forall_fmap. eapply Forall_impl; [exact Hnone|].
        simpl. intros v Hv. by rewrite ltb_opp.
      * by rewrite list_lookup_fmap, Hx; simpl; rewrite Hnan.
    + apply Forall_fmap, Forall_true. exact Hclean.
  - rewrite assign_out_fits; [| |done].
    2:{ unfold mean_of_positive, map_rows.
        rewrite !length_zip_with, !length_fmap. lia. }
    eexists. split; [reflexivity|]. split.
    + destruct (mean_of_positive_none (values_at_links links values) i vs)
        as (x & Hx & Hnan); [done|done|].
      by rewrite list_lookup_fmap, Hx; simpl; rewrite Hnan.
    + apply Forall_fmap, Forall_true. exact Hclean.
Qed.

End NodeLinkMeanProperties.

Lemma small_sum_of_zeros (row : ndarray) :
  Forall (fun x => zero_or_nan x = true) row -> zero_or_nan (small_sum row) = true.
Proof.
  unfold small_sum. assert (zero_or_nan 0 = true) as H0 by reflexivity.
  revert H0. generalize 0 as acc. intros acc Hacc Hrow. revert acc Hacc.
  induction Hrow as [|x row Hx _ IH]; intros acc Hacc; [done|].
  simpl. apply IH. revert Hacc Hx. unfold zero_or_nan.
  rewrite FloatAxioms.add_spec. unfold SF64add, SFadd.
  by destruct (Prim2SF acc) as [[]|[]| |[] ma ea],
              (Prim2SF x) as [[]|[]| |[] mx ex].
Qed.

Lemma argmax_scan_bound (ip : ndarray) mp max_ind i :
  (max_ind < i)%nat -> (argmax_scan mp max_ind i ip < i + length ip)%nat.
Proof.
  revert mp max_ind i. induction ip as [|x ip IH]; intros mp max_ind i Hlt;
    simpl; [lia|].
  destruct (negb (x <=? mp)).
  - destruct (is_nan x); [lia|].
    specialize (IH x i (S i)). lia.
  - specialize (IH mp max_ind (S i)). lia.
Qed.

Lemma np_argmax_bound (a : ndarray) j : np_argmax a = Some j -> (j < length a)%nat.
Proof.
  destruct a as [|x a]; [done|]. intros [= <-]. simpl.
  destruct (is_nan x); [lia|].
  pose proof (argmax_scan_bound a x 0 1). lia.
Qed.

(** X18.  When [map_value_at_upwind_node_link_max_to_node] returns, its
    value at a node all of whose slot values are [>= 0] (no link brings flux
    in) is 0; likewise for the downwind mapper at a node all of whose slot
    values are [<= 0]. *)
Theorem picked_value_is_zero_without_upwind_link grid links control_name value_name
    out control result i vs :
  link_table_ok grid links ->
  from_option (fun buffer : ndarray => length buffer = number_of_nodes grid)
    True out ->
  lookup_array control_name (at_link links) = Some control ->
  values_at_links links control !! i = Some vs ->
  (Forall (fun v => (0 <=? v) = true) vs ->
   map_value_at_upwind_node_link_max_to_node grid links control_name value_name out
   = inr result ->
   result !! i = Some 0) /\
  (Forall (fun v => (v <=? 0) = true) vs ->
   map_value_at_downwind_node_link_max_to_node grid links control_name value_name out
   = inr result ->
   result !! i = Some 0).
Proof.
  intros Hok Hout Hcontrol Hvs.
  destruct (values_at_links_rows grid links control Hok) as [HVlen HVrows].
  destruct Hok as (Hl & Hd & Hls & Hds).
  assert (i < number_of_nodes grid)%nat as Hi
    by (rewrite <- HVlen; by eapply lookup_lt_Some).
  destruct (lookup_lt_is_Some_2 (links_at_node links) i) as [ls Hlsi]; [lia|].
  assert (length ls = length vs) as Hsame.
  { rewrite Forall_forall in HVrows. rewrite Forall_forall in Hls.
    rewrite (Hls ls), (HVrows vs); [done| |]; by eapply list_elem_of_lookup_2. }
  assert (forall (test : float -> bool) (values : ndarray) (which_link : list nat)
                 (rows : list (list float)) j,
            Forall (fun v => test v = true) vs ->
            rows !! i = Some vs -> which_link !! i = Some j -> (j < length vs)%nat ->
            length which_link = number_of_nodes grid ->
            assign_out out (number_of_nodes grid)
              (pick_per_node (number_of_nodes grid)
                 (zip_with (zip_with (fun v (q : bool) => if q then 0 else v))
                    (map_rows (np_take values) (links_at_node links))
                    (map_rows test (values_at_links links control)))
                 which_link) = inr result ->
            result !! i = Some 0) as Hpick.
  { intros test values which_link rows j Hall _ Hj Hlt Hlen.
    rewrite assign_out_fits; [| |done].
    2:{ unfold pick_per_node. rewrite length_zip_with, length_seq. lia. }
    intros [= <-]. unfold pick_per_node.
    rewrite lookup_zip_with, lookup_seq_lt, Hj by done. simpl. f_equal.
    rewrite lookup_zip_with. unfold map_rows.
    rewrite !list_lookup_fmap, Hlsi, Hvs. simpl.
    apply getf_lookup. rewrite lookup_zip_with, !list_lookup_fmap.
    destruct (lookup_lt_is_Some_2 ls j) as [l ->]; [lia|].
    destruct (lookup_lt_is_Some_2 vs j Hlt) as [v Hv]. rewrite Hv. simpl.
    rewrite Forall_forall in Hall.
    by rewrite (Hall v) by by eapply list_elem_of_lookup_2. }
  split; intros Hall;
    unfold map_value_at_upwind_node_link_max_to_node,
      map_value_at_downwind_node_link_max_to_node;
    rewrite Hcontrol; cbv zeta.
  - destruct (mapM np_argmax _) as [which_link|] eqn:Eargmax; [|done].
    destruct (lookup_array value_name (at_link links)) as [values|]; [|done].
    apply mapM_Some in Eargmax.
    destruct (Forall2_lookup_l _ _ _ i ((fun v => - v) <$> vs) Eargmax)
      as (j & Hj & Hargmax).
    { unfold map_rows. by rewrite list_lookup_fmap, Hvs. }
    apply np_argmax_bound in Hargmax. rewrite length_fmap in Hargmax.
    apply (Hpick (fun v => 0 <=? v) values which_link
             (values_at_links links control) j); try done.
    apply Forall2_length in Eargmax. unfold map_rows in Eargmax.
    rewrite length_fmap in Eargmax. lia.
  - destruct (mapM np_argmax _) as [which_link|] eqn:Eargmax; [|done].
    destruct (lookup_array value_name (at_link links)) as [values|]; [|done].
    apply mapM_Some in Eargmax.
    destruct (Forall2_lookup_l _ _ _ i vs Eargmax) as (j & Hj & Hargmax); [done|].
    apply np_argmax_bound in Hargmax.
    apply (Hpick (fun v => v <=? 0) values which_link
             (values_at_links links control) j); try done.
    apply Forall2_length in Eargmax. lia.
Qed.

(** *** The mappers on the docstring grid *)

(** The embedding reproduces the examples of the docstrings. *)
Lemma mappers_reproduce_docstrings :
  map_link_head_node_to_link docstring_links "arange" None
  = inr [1; 2; 3; 4; 5; 6; 7; 5; 6; 7; 8; 9; 10; 11; 9; 10; 11] /\
  map_link_tail_node_to_link docstring_links "arange" None
  = inr [0; 1; 2; 0; 1; 2; 3; 4; 5; 6; 4; 5; 6; 7; 8; 9; 10] /\
  map_mean_of_link_nodes_to_link docstring_links "arange" None
  = inr [0.5; 1.5; 2.5; 2; 3; 4; 5; 4.5; 5.5; 6.5; 6; 7; 8; 9; 8.5; 9.5; 10.5] /\
  map_node_to_cell raster_3x4_grid docstring_links "arange" None = inr [5; 6] /\
  map_min_of_link_nodes_to_link docstring_links "z" None
  = inr [0; 1; 2; 0; 1; 2; 3; 6; 5; 4; 7; 6; 5; 4; 8; 9; 10] /\
  map_max_of_link_nodes_to_link docstring_links "z" None
  = inr [1; 2; 3; 7; 6; 5; 4; 7; 6; 5; 8; 9; 10; 11; 9; 10; 11] /\
  map_value_at_min_node_to_link docstring_links "z" "vals_to_map" None
  = inr [0; 10; 20; 0; 10; 20; 30; 60; 50; 40; 70; 60; 50; 40; 80; 90; 100] /\
  map_value_at_max_node_to_link docstring_links "z" "vals_to_map" None
  = inr [10; 20; 30; 70; 60; 50; 40; 70; 60; 50; 80; 90; 100; 110; 90; 100; 110] /\
  map_min_of_node_links_to_node raster_3x4_grid docstring_links "vals" None
  = inr [0; 0; 1; 2; 3; 4; 5; 6; 10; 11; 12; 13] /\
  map_max_of_node_links_to_node raster_3x4_grid docstring_links "vals" None
  = inr [3; 4; 5; 6; 10; 11; 12; 13; 14; 15; 16; 16] /\
  map_upwind_node_link_max_to_node raster_3x4_grid docstring_links "grad_rows" None
  = inr [0; 1; 2; 1; 0; 1; 2; 1; 0; 1; 2; 1] /\
  map_downwind_node_link_max_to_node raster_3x4_grid docstring_links "grad_rows" None
  = inr [1; 2; 1; 0; 1; 2; 1; 0; 1; 2; 1; 0] /\
  map_upwind_node_link_mean_to_node small_sum raster_3x4_grid docstring_links
    "grad" None
  = inr [0; 1; 2; 1; 2; 2; 3; 3; 1; 1.5; 2.5; 2.5] /\
  map_downwind_node_link_mean_to_node small_sum raster_3x4_grid docstring_links
    "grad" None
  = inr [1.5; 2.5; 2.5; 5; 1; 2; 2; 4; 1; 2; 1; 0] /\
  map_value_at_upwind_node_link_max_to_node raster_3x4_grid docstring_links
    "grad_rows" "vals" None
  = inr [0; 0; 1; 2; 0; 7; 8; 9; 0; 14; 15; 16] /\
  map_value_at_downwind_node_link_max_to_node raster_3x4_grid docstring_links
    "grad_rows" "vals" None
  = inr [0; 1; 2; 0; 7; 8; 9; 0; 14; 15; 16; 0] /\
  link_at_node_is_upwind docstring_links "grad" None = inr docstring_upwind_flags /\
  link_at_node_is_downwind docstring_links "grad" None
  = inr docstring_downwind_flags /\
  upwind_links_at_node raster_3x4_grid docstring_links "grad" (-1)
  = inr [[-1; -1]; [0; -1]; [1; -1]; [2; -1]; [3; -1]; [7; 4]; [8; 5]; [9; 6];
         [10; -1]; [14; 11]; [15; 12]; [16; 13]]%Z /\
  downwind_links_at_node raster_3x4_grid docstring_links "grad" 2147483647
  = inr [[0; 3]; [1; 4]; [2; 5]; [6; 2147483647]; [7; 10]; [8; 11]; [9; 12];
         [13; 2147483647]; [14; 2147483647]; [15; 2147483647];
         [16; 2147483647]; [2147483647; 2147483647]]%Z.
Proof. vm_compute. repeat split. Qed.

Lemma raster_3x4_table_ok (node_fields link_fields : list (string * ndarray)) :
  link_table_ok raster_3x4_grid (raster_3x4_links node_fields link_fields).
Proof. repeat split; repeat constructor. Qed.

Lemma link_min_and_max_bracket_the_ends_witness :
  exists mins maxs lo hi,
    map_min_of_link_nodes_to_link docstring_links "z" None = inr mins /\
    map_max_of_link_nodes_to_link docstring_links "z" None = inr maxs /\
    mins !! 3%nat = Some lo /\ maxs !! 3%nat = Some hi /\
    (lo = getf docstring_z 4 \/ lo = getf docstring_z 0) /\
    (hi = getf docstring_z 4 \/ hi = getf docstring_z 0) /\
    (lo <=? getf docstring_z 4) = true /\ (lo <=? getf docstring_z 0) = true /\
    (getf docstring_z 4 <=? hi) = true /\ (getf docstring_z 0 <=? hi) = true /\
    (lo <=? hi) = true.
Proof.
  apply (link_min_and_max_bracket_the_ends docstring_links "z" None docstring_z
           3 4 0); try reflexivity; exact I.
Defined.

Lemma value_at_extreme_node_is_the_extreme_witness :
  map_value_at_min_node_to_link docstring_links "z" "z" None
  = map_min_of_link_nodes_to_link docstring_links "z" None /\
  map_value_at_max_node_to_link docstring_links "z" "z" None
  = map_max_of_link_nodes_to_link docstring_links "z" None.
Proof.
  apply (value_at_extreme_node_is_the_extreme docstring_links "z" None docstring_z);
    [reflexivity|].
  intros n [H|H]; vm_compute in H;
    repeat (apply elem_of_cons in H as [->|H]; [reflexivity|]);
    by apply elem_of_nil in H.
Defined.

Lemma link_flags_are_exclusive_witness :
  (at_row_col docstring_upwind_flags 5 2 = Some true ->
   at_row_col docstring_downwind_flags 5 2 = Some false) /\
  (at_row_col docstring_downwind_flags 5 2 = Some true ->
   at_row_col docstring_upwind_flags 5 2 = Some false) /\
  (at_row_col (link_dirs_at_node docstring_links) 0 2 = Some 0%Z ->
   at_row_col docstring_upwind_flags 0 2 <> Some true /\
   at_row_col docstring_downwind_flags 0 2 <> Some true).
Proof.
  destruct (link_flags_are_exclusive docstring_links "grad"
              docstring_upwind_flags docstring_downwind_flags 5 2)
    as (H1 & H2 & _); [vm_compute; reflexivity|vm_compute; reflexivity|].
  destruct (link_flags_are_exclusive docstring_links "grad"
              docstring_upwind_flags docstring_downwind_flags 0 2)
    as (_ & _ & H3); [vm_compute; reflexivity|vm_compute; reflexivity|].
  exact (conj H1 (conj H2 H3)).
Defined.

Lemma links_at_node_vanish_at_a_full_node_witness :
  exists rows,
    upwind_links_at_node raster_3x4_grid converging_links "grad" (-1) = inr rows /\
    Forall (fun r => r = []) rows.
Proof.
  apply (proj1 (links_at_node_vanish_at_a_full_node raster_3x4_grid
                  converging_links "grad" (-1)
                  (map_rows (fun v => v <? 0)
                     (values_at_links converging_links converging_grad))
                  5 [true; true; true; true] [8; 11; 7; 4]%Z
                  eq_refl
                  ltac:(intros H; repeat (apply elem_of_cons in H as [H|H];
                                          [discriminate H|]);
                        by apply elem_of_nil in H))).
  - reflexivity.
  - vm_compute. reflexivity.
  - repeat constructor.
Defined.

Lemma links_at_node_list_the_flagged_links_witness :
  exists rows,
    upwind_links_at_node raster_3x4_grid docstring_links "grad" (-1) = inr rows /\
    length rows = number_of_nodes raster_3x4_grid /\
    lists_flagged_links docstring_upwind_flags (links_at_node docstring_links)
      (-1) rows.
Proof.
  apply (proj1 (links_at_node_list_the_flagged_links raster_3x4_grid
                  docstring_links "grad" (-1) docstring_upwind_flags
                  (raster_3x4_table_ok _ _)
                  ltac:(vm_compute; lia)
                  ltac:(intros row H;
                        repeat (apply elem_of_cons in H as [->|H];
                                [apply list_elem_of_here|]);
                        by apply elem_of_nil in H)
                  ltac:(intros i j H E;
                        do 12 (destruct i as [|i];
                               [do 4 (destruct j as [|j];
                                      [vm_compute in H, E; congruence|]);
                                vm_compute in H; discriminate H|]);
                        vm_compute in H; discriminate H))).
  vm_compute. reflexivity.
Defined.

Lemma node_link_mean_is_zero_without_links_witness :
  exists result,
    map_upwind_node_link_mean_to_node small_sum raster_3x4_grid docstring_links
      "grad" None = inr result /\
    result !! 0%nat = Some 0 /\ Forall (fun x => is_nan x = false) result.
Proof.
  apply (proj1 (node_link_mean_is_zero_without_links small_sum small_sum_of_zeros
                  raster_3x4_grid docstring_links "grad" None
                  docstring_upwind_flags 0 [false; false; false; false]
                  (raster_3x4_table_ok _ _) I eq_refl
                  ltac:(repeat constructor))).
  vm_compute. reflexivity.
Defined.

Lemma picked_value_is_zero_without_upwind_link_witness :
  map_value_at_upwind_node_link_max_to_node raster_3x4_grid docstring_links
    "grad_rows" "vals" None
  = inr [0; 0; 1; 2; 0; 7; 8; 9; 0; 14; 15; 16] /\
  [0; 0; 1; 2; 0; 7; 8; 9; 0; 14; 15; 16] !! 0%nat = Some 0.
Proof.
  split; [vm_compute; reflexivity|].
  apply (proj1 (picked_value_is_zero_without_upwind_link raster_3x4_grid
                  docstring_links "grad_rows" "vals" None docstring_grad_rows
                  [0; 0; 1; 2; 0; 7; 8; 9; 0; 14; 15; 16] 0
                  [1; - 0; - 0; - 0]
                  (raster_3x4_table_ok _ _) I eq_refl
                  ltac:(vm_compute; reflexivity))).
  - repeat constructor.
  - vm_compute. reflexivity.
Defined.

(** *** The sentinels of the node-link extrema *)

Lemma digits2_pos_bound (m : positive) :
  (Z.pos m < 2 ^ Z.pos (digits2_pos m))%Z.
Proof.
  induction m as [m IH|m IH|]; simpl; [| |lia];
    rewrite Pos2Z.inj_succ, Z.pow_succ_r by lia; lia.
Qed.

(** The exponent and the mantissa of a binary64 number are at most those
    of [np.finfo(float).max], which is [(2^53 - 1) * 2^971]. *)
Lemma valid_finite_bound s m e :
  SpecFloat.valid_binary prec emax (S754_finite s m e) = true ->
  (e < 971 \/ e = 971 /\ Z.pos m < 2 ^ 53)%Z.
Proof.
  unfold SpecFloat.valid_binary, bounded, canonical_mantissa, fexp, SpecFloat.emin,
    prec, emax.
  intros H. apply andb_true_iff in H as [Hc He].
  apply Z.eqb_eq in Hc. apply Z.leb_le in He.
  destruct (decide (e = 971)%Z) as [->|]; [right|left; lia].
  split; [reflexivity|].
  assert (Z.pos (digits2_pos m) = 53)%Z as Hd by lia.
  pose proof (digits2_pos_bound m) as Hm. by rewrite Hd in Hm.
Qed.

Lemma mantissa_below_max (m : positive) :
  (Z.pos m < 2 ^ 53)%Z ->
  Pos.compare_cont Eq 9007199254740991 m <> Lt /\
  Pos.compare_cont Eq m 9007199254740991 <> Gt.
Proof.
  intros Hm.
  assert (2 ^ 53 = Z.pos 9007199254740991 + 1)%Z as Hp by reflexivity.
  rewrite Hp in Hm. clear Hp. split; intros E.
  - assert (Z.pos 9007199254740991 < Z.pos m)%Z as Hlt by exact E.
    generalize dependent (Z.pos 9007199254740991). intros. lia.
  - assert (Z.pos m > Z.pos 9007199254740991)%Z as Hgt by exact E.
    generalize dependent (Z.pos 9007199254740991). intros. lia.
Qed.

Lemma finite_not_nan x : finite_number x = true -> is_nan x = false.
Proof.
  unfold finite_number, is_nan.
  rewrite FloatAxioms.ltb_spec, FloatAxioms.abs_spec, FloatAxioms.eqb_spec.
  destruct (Prim2SF x) as [[]|[]| |[] m e]; try reflexivity; try discriminate;
    intros _; unfold SFeqb, SFcompare;
    by rewrite Z.compare_refl, Pos.compare_cont_refl.
Qed.

Lemma finite_below_max x :
  finite_number x = true -> (np_finfo_max <? x) = false.
Proof.
  unfold finite_number.
  rewrite !FloatAxioms.ltb_spec, FloatAxioms.abs_spec.
  change (Prim2SF np_finfo_max) with (S754_finite false 9007199254740991 971).
  pose proof (FloatAxioms.Prim2SF_valid x) as Hvalid.
  destruct (Prim2SF x) as [[]|[]| |[] m e]; try reflexivity; try discriminate;
    intros _.
  apply valid_finite_bound in Hvalid as [He|[-> Hm]]; unfold SFltb, SFcompare.
  - by rewrite (proj2 (Z.compare_gt_iff 971 e)) by lia.
  - rewrite Z.compare_refl.
    destruct (mantissa_below_max m Hm) as [Hm1 _].
    by destruct (Pos.compare_cont Eq 9007199254740991 m).
Qed.

Lemma finite_above_min x :
  finite_number x = true -> (x <? np_finfo_min) = false.
Proof.
  unfold finite_number.
  rewrite !FloatAxioms.ltb_spec, FloatAxioms.abs_spec.
  change (Prim2SF np_finfo_min) with (S754_finite true 9007199254740991 971).
  pose proof (FloatAxioms.Prim2SF_valid x) as Hvalid.
  destruct (Prim2SF x) as [[]|[]| |[] m e]; try reflexivity; try discriminate;
    intros _.
  apply valid_finite_bound in Hvalid as [He|[-> Hm]]; unfold SFltb, SFcompare.
  - by rewrite (proj2 (Z.compare_lt_iff e 971)) by lia.
  - rewrite Z.compare_refl.
    destruct (mantissa_below_max m Hm) as [_ Hm2].
    by destruct (Pos.compare_cont Eq m 9007199254740991).
Qed.

(** A finite number that is not below the largest one is the largest one. *)
Lemma finite_not_below_max x :
  finite_number x = true -> (x <? np_finfo_max) = false -> x = np_finfo_max.
Proof.
  intros Hfin Hlt. pose proof (finite_below_max x Hfin) as Hgt.
  revert Hfin Hlt Hgt. unfold finite_number.
  rewrite !FloatAxioms.ltb_spec, FloatAxioms.abs_spec.
  change (Prim2SF np_finfo_max) with (S754_finite false 9007199254740991 971).
  intros Hfin Hlt Hgt. apply Prim2SF_inj.
  change (Prim2SF np_finfo_max) with (S754_finite false 9007199254740991 971).
  destruct (Prim2SF x) as [[]|[]| |[] m e]; try discriminate.
  revert Hlt Hgt. unfold SFltb, SFcompare.
  rewrite (Z.compare_antisym e 971).
  destruct (e ?= 971)%Z eqn:Ee; cbn [CompOpp]; try discriminate.
  apply Z.compare_eq in Ee as ->.
  rewrite <- (Pos.compare_cont_antisym _ _ Eq). cbn [CompOpp].
  destruct (Pos.compare_cont Eq 9007199254740991 m) eqn:Em; cbn [CompOpp];
    try discriminate.
  apply (Pos.compare_eq 9007199254740991 m) in Em as <-. reflexivity.
Qed.

Lemma finite_not_above_min x :
  finite_number x = true -> (np_finfo_min <? x) = false -> x = np_finfo_min.
Proof.
  intros Hfin Hlt. pose proof (finite_above_min x Hfin) as Hgt.
  revert Hfin Hlt Hgt. unfold finite_number.
  rewrite !FloatAxioms.ltb_spec, FloatAxioms.abs_spec.
  change (Prim2SF np_finfo_min) with (S754_finite true 9007199254740991 971).
  intros Hfin Hlt Hgt. apply Prim2SF_inj.
  change (Prim2SF np_finfo_min) with (S754_finite true 9007199254740991 971).
  destruct (Prim2SF x) as [[]|[]| |[] m e]; try discriminate.
  revert Hlt Hgt. unfold SFltb, SFcompare.
  rewrite (Z.compare_antisym e 971).
  destruct (e ?= 971)%Z eqn:Ee; cbn [CompOpp]; try discriminate.
  apply Z.compare_eq in Ee as ->.
  rewrite <- (Pos.compare_cont_antisym _ _ Eq). cbn [CompOpp].
  destruct (Pos.compare_cont Eq m 9007199254740991) eqn:Em; cbn [CompOpp];
    try discriminate.
  apply (Pos.compare_eq m 9007199254740991) in Em as ->. reflexivity.
Qed.

Lemma np_minimum_sentinel x :
  finite_number x = true ->
  np_minimum x np_finfo_max = x /\ np_minimum np_finfo_max x = x.
Proof.
  intros Hfin. unfold np_minimum.
  rewrite (finite_not_nan x Hfin), (finite_below_max x Hfin).
  change (is_nan np_finfo_max) with false. cbv iota. split; [done|].
  destruct (x <? np_finfo_max) eqn:E; [done|].
  symmetry. by apply finite_not_below_max.
Qed.

Lemma np_maximum_sentinel x :
  finite_number x = true ->
  np_maximum x np_finfo_min = x /\ np_maximum np_finfo_min x = x.
Proof.
  intros Hfin. unfold np_maximum.
  rewrite (finite_not_nan x Hfin), (finite_above_min x Hfin).
  change (is_nan np_finfo_min) with false. cbv iota. split; [done|].
  destruct (np_finfo_min <? x) eqn:E; [done|].
  symmetry. by apply finite_not_above_min.
Qed.

Lemma np_minimum_finite x y :
  finite_number x = true -> finite_number y = true ->
  finite_number (np_minimum x y) = true.
Proof.
  intros Hx Hy. unfold np_minimum.
  rewrite (finite_not_nan x Hx), (finite_not_nan y Hy). by destruct (y <? x).
Qed.

Lemma np_maximum_finite x y :
  finite_number x = true -> finite_number y = true ->
  finite_number (np_maximum x y) = true.
Proof.
  intros Hx Hy. unfold np_maximum.
  rewrite (finite_not_nan x Hx), (finite_not_nan y Hy). by destruct (x <? y).
Qed.

Section SentinelFold.

Variable op : float -> float -> float.
Variable sentinel : float.
Hypothesis sentinel_finite : finite_number sentinel = true.
Hypothesis op_sentinel :
  forall x, finite_number x = true -> op x sentinel = x /\ op sentinel x = x.
Hypothesis op_finite :
  forall x y, finite_number x = true -> finite_number y = true ->
              finite_number (op x y) = true.

(** The slots of a row: [f] reads the extended array, [g] the link field. *)
Variables f g : Z -> float.
Variable ls : list Z.
Hypothesis missing_slot : forall l, l ∈ ls -> l = (-1)%Z -> f l = sentinel.
Hypothesis real_slot :
  forall l, l ∈ ls -> l <> (-1)%Z -> f l = g l /\ finite_number (g l) = true.

Lemma foldl_skips_sentinel (row : list Z) acc :
  row ⊆ ls -> finite_number acc = true ->
  foldl op acc (f <$> row)
  = foldl op acc (g <$> filter (fun l => l <> (-1)%Z) row).
Proof.
  revert acc. induction row as [|l row IH]; intros acc Hsub Hacc; [done|].
  assert (l ∈ ls) as Hl by (apply Hsub, list_elem_of_here).
  assert (row ⊆ ls) as Hrow
    by (intros l' Hl'; by apply Hsub, list_elem_of_further).
  rewrite fmap_cons, filter_cons. simpl.
  destruct (decide (l <> (-1)%Z)) as [Hreal|Hmiss].
  - destruct (real_slot l Hl Hreal) as [-> Hfin]. simpl.
    apply IH; [done|]. by apply op_finite.
  - assert (l = (-1)%Z) as Hm by (destruct (decide (l = (-1)%Z)); done).
    rewrite (missing_slot l Hl Hm), (proj1 (op_sentinel acc Hacc)).
    by apply IH.
Qed.

Lemma foldl_from_sentinel (row : list Z) :
  row ⊆ ls -> Forall (fun l => l <> (-1)%Z) row ->
  foldl op sentinel (g <$> row)
  = match row with
    | [] => sentinel
    | l :: row' => foldl op (g l) (g <$> row')
    end.
Proof.
  intros Hsub Hreal. destruct row as [|l row]; [done|]. simpl.
  apply Forall_cons in Hreal as [Hl _].
  destruct (real_slot l) as [_ Hfin]; [apply Hsub, list_elem_of_here|done|].
  by rewrite (proj2 (op_sentinel (g l) Hfin)).
Qed.

Lemma reduce_with_sentinel (row : list Z) :
  row ⊆ ls -> row <> [] ->
  match f <$> row with
  | [] => None
  | x :: a => Some (foldl op x a)
  end
  = Some (default sentinel
            match g <$> filter (fun l => l <> (-1)%Z) row with
            | [] => None
            | x :: a => Some (foldl op x a)
            end).
Proof.
  intros Hsub Hne. destruct row as [|l row]; [done|].
  assert (l ∈ ls) as Hl by (apply Hsub, list_elem_of_here).
  assert (row ⊆ ls) as Hrow
    by (intros l' Hl'; by apply Hsub, list_elem_of_further).
  rewrite fmap_cons, filter_cons. f_equal.
  destruct (decide (l <> (-1)%Z)) as [Hreal|Hmiss].
  - destruct (real_slot l Hl Hreal) as [-> Hfin]. simpl.
    by apply foldl_skips_sentinel.
  - assert (l = (-1)%Z) as Hm by (destruct (decide (l = (-1)%Z)); done).
    rewrite (missing_slot l Hl Hm).
    rewrite foldl_skips_sentinel by done.
    rewrite foldl_from_sentinel.
    + by destruct (filter _ row).
    + intros l' Hl'. apply list_elem_of_filter in Hl' as [_ Hl']. by apply Hrow.
    + apply Forall_forall. intros l' Hl'. by apply list_elem_of_filter in Hl' as [? _].
Qed.

End SentinelFold.

Lemma np_take_extended_last (values : ndarray) last :
  np_take (values ++ [last]) (-1) = last.
Proof.
  unfold np_take. cbn [Z.ltb Z.compare].
  rewrite length_app. simpl.
  replace (Z.of_nat (length values + 1) + -1)%Z with (Z.of_nat (length values))
    by lia.
  destruct (Z.of_nat (length values) <? 0)%Z eqn:E; [apply Z.ltb_lt in E; lia|].
  rewrite Nat2Z.id. apply getf_lookup.
  rewrite lookup_app_r by lia. by rewrite Nat.sub_diag.
Qed.

Lemma np_take_extended_link (values : ndarray) last l :
  (0 <= l < Z.of_nat (length values))%Z ->
  np_take (values ++ [last]) l = np_take values l.
Proof.
  intros Hl. unfold np_take.
  destruct (l <? 0)%Z eqn:E; [apply Z.ltb_lt in E; lia|].
  rewrite E. unfold getf. rewrite lookup_app_l by lia. done.
Qed.

(** X19.  The entry appended to the link values, [np.finfo(float).max] for
    the minimum and [np.finfo(float).min] for the maximum, is neutral for
    finite data: when [map_min_of_node_links_to_node] returns, its value at a
    node whose slots hold -1 or the id of a link, the links carrying finite
    values, is [np.amin] of the values of its links, and
    [np.finfo(float).max] if it has none; likewise
    [map_max_of_node_links_to_node], with [np.amax] and
    [np.finfo(float).min].  (An infinite value is not neutral: see
    [infinite_link_values_lose_to_the_sentinel].) *)
Theorem node_link_extrema_ignore_missing_links grid links var_name out values i ls :
  lookup_array var_name (at_link links) = Some values ->
  length values = number_of_links links ->
  links_at_node links !! i = Some ls ->
  Forall (fun l => l = (-1)%Z \/ (0 <= l < Z.of_nat (number_of_links links))%Z) ls ->
  (forall l, l ∈ ls -> l <> (-1)%Z -> finite_number (np_take values l) = true) ->
  (forall result,
     map_min_of_node_links_to_node grid links var_name out = inr result ->
     result !! i
     = Some (default np_finfo_max
               (np_amin (np_take values <$> filter (fun l => l <> (-1)%Z) ls)))) /\
  (forall result,
     map_max_of_node_links_to_node grid links var_name out = inr result ->
     result !! i
     = Some (default np_finfo_min
               (np_amax (np_take values <$> filter (fun l => l <> (-1)%Z) ls)))).
Proof.
  intros Hvalues Hlen Hls Hids Hfin.
  unfold map_min_of_node_links_to_node, map_max_of_node_links_to_node,
    values_at_linksX, reduce_rows, reduce_out.
  rewrite Hvalues. unfold assign_out. rewrite decide_True by done.
  assert (forall last l, l ∈ ls -> l <> (-1)%Z ->
            np_take (values ++ [last]) l = np_take values l /\
            finite_number (np_take values l) = true) as Hreal.
  { intros last l Hl Hne. split; [|by apply Hfin].
    rewrite Forall_forall in Hids. destruct (Hids l Hl) as [?|?]; [done|].
    apply np_take_extended_link. lia. }
  split; intros result.
  - destruct (mapM np_amin _) as [v|] eqn:E; [|done].
    case_decide; [|done]. intros [= <-].
    apply mapM_Some in E.
    destruct (Forall2_lookup_l _ _ _ i (np_take (values ++ [np_finfo_max]) <$> ls) E)
      as (y & Hy & Hamin).
    { unfold map_rows. by rewrite list_lookup_fmap, Hls. }
    rewrite Hy, <- Hamin. unfold np_amin.
    apply (reduce_with_sentinel np_minimum np_finfo_max eq_refl
             np_minimum_sentinel np_minimum_finite
             (np_take (values ++ [np_finfo_max])) (np_take values) ls).
    + intros l _ ->. apply np_take_extended_last.
    + intros l. apply Hreal.
    + done.
    + intros Hnil. rewrite Hnil in Hamin. done.
  - destruct (mapM np_amax _) as [v|] eqn:E; [|done].
    case_decide; [|done]. intros [= <-].
    apply mapM_Some in E.
    destruct (Forall2_lookup_l _ _ _ i (np_take (values ++ [np_finfo_min]) <$> ls) E)
      as (y & Hy & Hamax).
    { unfold map_rows. by rewrite list_lookup_fmap, Hls. }
    rewrite Hy, <- Hamax. unfold np_amax.
    apply (reduce_with_sentinel np_maximum np_finfo_min eq_refl
             np_maximum_sentinel np_maximum_finite
             (np_take (values ++ [np_finfo_min])) (np_take values) ls).
    + intros l _ ->. apply np_take_extended_last.
    + intros l. apply Hreal.
    + done.
    + intros Hnil. rewrite Hnil in Hamax. done.
Qed.

Lemma node_link_extrema_ignore_missing_links_witness :
  map_min_of_node_links_to_node raster_3x4_grid docstring_links "vals" None
  = inr [0; 0; 1; 2; 3; 4; 5; 6; 10; 11; 12; 13] /\
  [0; 0; 1; 2; 3; 4; 5; 6; 10; 11; 12; 13] !! 0%nat
  = Some (default np_finfo_max
            (np_amin (np_take (float_of_nat <$> seq 0 17)
                        <$> filter (fun l => l <> (-1)%Z) [0; 3; -1; -1]%Z))).
Proof.
  split; [vm_compute; reflexivity|].
  apply (proj1 (node_link_extrema_ignore_missing_links raster_3x4_grid
                  docstring_links "vals" None (float_of_nat <$> seq 0 17) 0
                  [0; 3; -1; -1]%Z eq_refl eq_refl eq_refl
                  ltac:(repeat constructor; vm_compute; intuition congruence)
                  ltac:(intros l H Hne;
                        repeat (apply elem_of_cons in H as [->|H];
                                [first [reflexivity|done]|]);
                        by apply elem_of_nil in H))).
  vm_compute. reflexivity.
Defined.

(** *** The sign of the node-link maxima *)

Lemma np_maximum_keeps_nonnegative acc y :
  (acc <? 0) = false -> (np_maximum acc y <? 0) = false.
Proof.
  unfold np_maximum. intros Hacc.
  destruct (is_nan acc) eqn:Ea; [done|].
  destruct (is_nan y) eqn:Ey.
  { apply is_nan_eq in Ey as ->. reflexivity. }
  destruct (acc <? y) eqn:E; [|done].
  revert Hacc E. rewrite !FloatAxioms.ltb_spec.
  change (Prim2SF 0) with (S754_zero false).
  destruct (Prim2SF acc) as [[]|[]| |[] ma ea], (Prim2SF y) as [[]|[]| |[] my ey];
    try reflexivity; try discriminate.
Qed.

Lemma np_maximum_reaches_zero acc z :
  zero_or_nan z = true -> (np_maximum acc z <? 0) = false.
Proof.
  unfold np_maximum. intros Hz.
  destruct (is_nan acc) eqn:Ea.
  { apply is_nan_eq in Ea as ->. reflexivity. }
  destruct (is_nan z) eqn:Ez.
  { apply is_nan_eq in Ez as ->. reflexivity. }
  destruct (acc <? z) eqn:E.
  { by destruct (zero_or_nan_unsigned z Hz). }
  pose proof (not_nan_spec z Ez) as Hnan.
  revert Hz E Hnan. unfold zero_or_nan. rewrite !FloatAxioms.ltb_spec.
  change (Prim2SF 0) with (S754_zero false).
  destruct (Prim2SF acc) as [[]|[]| |[] ma ea], (Prim2SF z) as [[]|[]| |[] mz ez];
    try reflexivity; try discriminate; by intros _ _ [].
Qed.

Lemma foldl_np_maximum_nonnegative (row : ndarray) acc :
  (acc <? 0) = false -> (foldl np_maximum acc row <? 0) = false.
Proof.
  revert acc. induction row as [|y row IH]; intros acc Hacc; [done|].
  simpl. by apply IH, np_maximum_keeps_nonnegative.
Qed.

Lemma np_amax_reaches_zero (row : ndarray) z r :
  z ∈ row -> zero_or_nan z = true -> np_amax row = Some r -> (r <? 0) = false.
Proof.
  destruct row as [|x row]; [done|]. intros Hz Hzero [= <-].
  apply elem_of_cons in Hz as [<-|Hz].
  - apply foldl_np_maximum_nonnegative.
    by destruct (zero_or_nan_unsigned z Hzero).
  - revert x. induction row as [|y row IH]; intros x;
      [by apply elem_of_nil in Hz|].
    simpl. apply elem_of_cons in Hz as [<-|Hz].
    + by apply foldl_np_maximum_nonnegative, np_maximum_reaches_zero.
    + by apply IH.
Qed.

Lemma abs_not_negative x : (abs x <? 0) = false.
Proof.
  rewrite FloatAxioms.ltb_spec, FloatAxioms.abs_spec.
  change (Prim2SF 0) with (S754_zero false).
  by destruct (Prim2SF x) as [[]|[]| |[] m e].
Qed.

(** X20.  When [map_upwind_node_link_max_to_node] returns, its value at a
    node that has a slot of direction 0 is not negative (it may be NaN);
    [map_downwind_node_link_max_to_node], which ends in [np.fabs], returns no
    negative value at any node.  (At a node all of whose slots hold links
    the upwind maximum can be negative: see
    [upwind_max_is_negative_at_a_source].) *)
Theorem node_link_max_is_not_negative grid links var_name out result :
  from_option (fun buffer : ndarray => length buffer = number_of_nodes grid)
    True out ->
  (map_upwind_node_link_max_to_node grid links var_name out = inr result ->
   forall i j r,
     at_row_col (links_at_node links) i j <> None ->
     at_row_col (link_dirs_at_node links) i j = Some 0%Z ->
     result !! i = Some r -> (r <? 0) = false) /\
  (map_downwind_node_link_max_to_node grid links var_name out = inr result ->
   length (links_at_node links) = number_of_nodes grid ->
   length (link_dirs_at_node links) = number_of_nodes grid ->
   Forall (fun r => (r <? 0) = false) result).
Proof.
  intros Hout.
  unfold map_upwind_node_link_max_to_node, map_downwind_node_link_max_to_node,
    reduce_rows, reduce_out.
  destruct (lookup_array var_name (at_link links)) as [values|]; [|by split].
  split.
  - destruct (mapM np_amax _) as [v|] eqn:E; [|done].
    case_decide; [|done]. intros [= <-] i j r Hl Hd Hr.
    apply mapM_Some in E.
    destruct (Forall2_lookup_r _ _ _ i r E Hr) as (row & Hrow & Hamax).
    unfold map_rows in Hrow. rewrite list_lookup_fmap in Hrow.
    destruct (values_at_links links values !! i) as [vs|] eqn:Hvs; [|done].
    injection Hrow as <-.
    assert (exists l, at_row_col (values_at_links links values) i j
                      = Some (np_take values l * 0)) as [l Hv].
    { unfold values_at_links. rewrite at_row_col_zip_with, Hd.
      destruct (at_row_col (links_at_node links) i j) as [l|]; [|done].
      by exists l. }
    unfold at_row_col in Hv. rewrite Hvs in Hv.
    apply (np_amax_reaches_zero ((fun v => - v) <$> vs)
             (- (np_take values l * 0)) r); [| |done].
    + apply list_elem_of_fmap. eexists. split; [reflexivity|].
      by eapply list_elem_of_lookup_2.
    + apply opp_zero_or_nan, mul_zero_zero_or_nan.
  - destruct (mapM np_amax _) as [v|] eqn:E; [|done].
    intros Hresult Hl Hd. apply mapM_Some, Forall2_length in E.
    unfold values_at_links in E. rewrite length_zip_with in E.
    rewrite assign_out_fits in Hresult; [| |done].
    2:{ rewrite length_fmap. lia. }
    injection Hresult as <-. apply Forall_fmap, Forall_true. intros x.
    apply abs_not_negative.
Qed.

(** With an infinite value on every link, node 0, which has two empty
    slots, gets [np.finfo(float).max], not infinity; node 5, which has
    none, gets infinity. *)
Lemma infinite_link_values_lose_to_the_sentinel :
  exists result,
    map_min_of_node_links_to_node raster_3x4_grid infinite_links "grad" None
    = inr result /\
    result !! 0%nat = Some np_finfo_max /\ result !! 5%nat = Some infinity.
Proof. eexists. split; [vm_compute; reflexivity|]. split; reflexivity. Qed.

(** Node 5 of the diverging field has no upwind link and four downwind
    ones, of magnitudes 2, 2, 1 and 3: the upwind maximum there is -1, and
    the downwind maximum 3. *)
Lemma upwind_max_is_negative_at_a_source :
  exists up down,
    map_upwind_node_link_max_to_node raster_3x4_grid diverging_links "grad" None
    = inr up /\
    map_downwind_node_link_max_to_node raster_3x4_grid diverging_links "grad" None
    = inr down /\
    up !! 5%nat = Some (-1) /\ down !! 5%nat = Some 3.
Proof.
  eexists _, _. split; [vm_compute; reflexivity|].
  split; [vm_compute; reflexivity|]. split; reflexivity.
Qed.

Lemma node_link_max_is_not_negative_witness :
  map_upwind_node_link_max_to_node raster_3x4_grid docstring_links "grad_rows" None
  = inr [0; 1; 2; 1; 0; 1; 2; 1; 0; 1; 2; 1] /\
  (0 <? 0) = false.
Proof.
  split; [vm_compute; reflexivity|].
  apply (proj1 (node_link_max_is_not_negative raster_3x4_grid docstring_links
                  "grad_rows" None [0; 1; 2; 1; 0; 1; 2; 1; 0; 1; 2; 1] I)
           ltac:(vm_compute; reflexivity) 0%nat 2%nat 0).
  - vm_compute. discriminate.
  - reflexivity.
  - reflexivity.
Defined.
